(** * ChatGPTAPI: context builder, completion transport and request controller

    A shallow embedding of the [ChatGPTAPI] class (the chat-completion
    client of the service): the constructor, the [apiKey] and [apiOrg]
    accessors, [_getTokenCount], [_buildMessages], [sendMessage] with its
    buffered and streaming response handlers, and the default message-store
    accessors.

    Conventions of the embedding.
    - A JavaScript string is a [string] holding the UTF-8 encoding of the
      text; substring tests and splits on valid UTF-8 agree with the ones
      on UTF-16 code units.
    - A JavaScript number that counts tokens is a [Z].
    - An [undefined] field is [None]; truthiness is written out
      ([truthy], [truthyN]) wherever the source tests a value.  The keys
      of the completion parameters, which are spread into other objects,
      keep apart a key that is absent and a key that holds [undefined].
    - [await] is sequencing.  Collaborators that are injected or imported
      ([tokenizer.encode], [JSON.parse], [_fetch], [fetchSSE], the message
      store, [uuidv4], the site configuration) are section variables or
      type-class methods. *)

From Stdlib Require Import QArith Ascii.
From stdpp Require Import base option list strings gmap pretty.

Local Open Scope Z_scope.

(** ** JavaScript string primitives *)

Module JsString.

(** Truthiness of a string: every string but the empty one. *)
Definition truthy (s : string) : bool :=
  match s with
  | EmptyString => false
  | String _ _ => true
  end.

(** [s.startsWith(p)]. *)
Definition startsWith (s p : string) : bool := String.prefix p s.

(** [s.includes(p)]. *)
Fixpoint includes (s p : string) : bool :=
  if String.prefix p s then true
  else match s with
       | EmptyString => false
       | String _ r => includes r p
       end.

(** [s.split(p)[0]] for a non-empty separator [p]: the text before the
    first occurrence of [p], the whole of [s] when there is none. *)
Fixpoint split_head (s p : string) : string :=
  if String.prefix p s then EmptyString
  else match s with
       | EmptyString => EmptyString
       | String c r => String c (split_head r p)
       end.

(** [s.replace(/p/g, '')] for a literal, non-empty pattern [p]: every
    occurrence found in one left-to-right pass is deleted; [skip] counts
    the characters of the current occurrence still to drop. *)
Fixpoint remove_all_from (skip : nat) (p s : string) : string :=
  match s with
  | EmptyString => EmptyString
  | String c r =>
      match skip with
      | S k => remove_all_from k p r
      | O =>
          if String.prefix p s
          then remove_all_from (Nat.pred (String.length p)) p r
          else String c (remove_all_from O p r)
      end
  end.

Definition remove_all (p s : string) : string := remove_all_from O p s.

(** [parts.join(sep)]. *)
Fixpoint join (sep : string) (parts : list string) : string :=
  match parts with
  | [] => EmptyString
  | [p] => p
  | p :: rest => p +:+ sep +:+ join sep rest
  end.

Definition bytes (l : list nat) : string :=
  String.string_of_list_ascii (map Ascii.ascii_of_nat l).

(** The characters [String.prototype.trim] removes (WhiteSpace and
    LineTerminator of ECMAScript), as UTF-8 byte sequences. *)
Definition whitespace : list (list nat) :=
  [ [9%nat]; [10%nat]; [11%nat]; [12%nat]; [13%nat]; [32%nat];
    [194; 160]%nat;                 (* U+00A0 *)
    [225; 154; 128]%nat;            (* U+1680 *)
    [226; 128; 128]%nat; [226; 128; 129]%nat; [226; 128; 130]%nat;
    [226; 128; 131]%nat; [226; 128; 132]%nat; [226; 128; 133]%nat;
    [226; 128; 134]%nat; [226; 128; 135]%nat; [226; 128; 136]%nat;
    [226; 128; 137]%nat; [226; 128; 138]%nat;  (* U+2000 .. U+200A *)
    [226; 128; 168]%nat; [226; 128; 169]%nat;  (* U+2028, U+2029 *)
    [226; 128; 175]%nat;            (* U+202F *)
    [226; 129; 159]%nat;            (* U+205F *)
    [227; 128; 128]%nat;            (* U+3000 *)
    [239; 187; 191]%nat ].          (* U+FEFF *)

(** The line terminators, which [.] of a regular expression refuses. *)
Definition line_terminators : list string :=
  Eval cbv in map bytes [ [10%nat]; [13%nat];
                          [226; 128; 168]%nat; [226; 128; 169]%nat ].

(** Length of the member of [pats] that starts [s], if any. *)
Fixpoint starts_with_any (pats : list string) (s : string) : option nat :=
  match pats with
  | [] => None
  | p :: rest =>
      if String.prefix p s then Some (String.length p)
      else starts_with_any rest s
  end.

Fixpoint drop (n : nat) (s : string) : string :=
  match n, s with
  | S k, String _ r => drop k r
  | _, _ => s
  end.

Fixpoint strip_leading (pats : list string) (fuel : nat) (s : string) : string :=
  match fuel with
  | O => s
  | S f =>
      match starts_with_any pats s with
      | Some (S k) => strip_leading pats f (drop (S k) s)
      | _ => s
      end
  end.

Definition ws_forward : list string := Eval cbv in map bytes whitespace.
Definition ws_backward : list string :=
  Eval cbv in map (fun l => bytes (rev l)) whitespace.

Definition trimStart (s : string) : string :=
  strip_leading ws_forward (String.length s) s.

Definition trimEnd (s : string) : string :=
  String.rev (strip_leading ws_backward (String.length s) (String.rev s)).

(** [s.trim()]. *)
Definition trim (s : string) : string := trimEnd (trimStart s).

(** The capture of [/\((.*?)\)/] once its opening parenthesis has been
    consumed: the text up to the first [)], provided no line terminator
    comes before it. *)
Fixpoint lazy_until_close (s : string) : option string :=
  match s with
  | EmptyString => None
  | String c r =>
      if Ascii.eqb c ")"%char then Some EmptyString
      else match starts_with_any line_terminators s with
           | Some _ => None
           | None => String c <$> lazy_until_close r
           end
  end.

(** [s.match(/\((.*?)\)/)]: [None] is JavaScript's [null], [Some g] is a
    match whose group 1 is [g]; the leftmost opening parenthesis that
    admits a match wins. *)
Fixpoint match_paren (s : string) : option string :=
  match s with
  | EmptyString => None
  | String c r =>
      if Ascii.eqb c "("%char
      then match lazy_until_close r with
           | Some g => Some g
           | None => match_paren r
           end
      else match_paren r
  end.

End JsString.

(** ** Data model ([types]) *)

Inductive Role := system | user | assistant.

#[global] Instance Role_eq_dec : EqDecision Role.
Proof. solve_decision. Defined.

(** What a rejected promise carries. *)
Inductive Error :=
| ChatGPTError (message : string) (statusCode : N) (statusText : string)
| JsError (message : string)        (* [new Error(message)] *)
| TypeError (message : string)      (* a property access on [undefined] or [null] *)
| TimeoutError (message : string)   (* of [pTimeout] *)
| Thrown (what : string).           (* raised by a collaborator *)

(** A computation that returns or throws. *)
Inductive Result (A : Type) :=
| Ok (a : A)
| Throw (e : Error).
Arguments Ok {A} a.
Arguments Throw {A} e.

#[global] Instance Result_ret : MRet Result := fun A a => Ok a.
#[global] Instance Result_bind : MBind Result := fun A B f r =>
  match r with
  | Ok a => f a
  | Throw e => Throw e
  end.

(** Dereferencing a value that may be [undefined] or [null]. *)
Definition deref {A} (what : string) (o : option A) : Result A :=
  match o with
  | Some a => Ok a
  | None => Throw (TypeError what)
  end.

Record Usage := {
  prompt_tokens : Z;
  completion_tokens : Z;
  total_tokens : Z;
  estimated : bool
}.

(** [types.openai]: the provider's wire format, as far as the client reads it. *)

Record ChatCompletionResponseMessage := {
  rm_role : option Role;
  rm_content : string
}.

Record CreateChatCompletionResponseChoice := {
  ch_message : ChatCompletionResponseMessage
}.

(** The [detail] member of an error body: a string, or an object that may
    have a [message]. *)
Inductive ErrorDetail :=
| DetailText (s : string)
| DetailObject (message : option string).

Record CreateChatCompletionResponse := {
  cr_id : option string;
  cr_choices : list CreateChatCompletionResponseChoice;
  cr_usage : option Usage;
  cr_detail : option ErrorDetail
}.

Record ChatCompletionDelta := {
  d_role : option Role;
  d_content : option string
}.

(** A streamed choice; [dc_delta = None] is a choice without a [delta]. *)
Record CreateChatCompletionDeltaChoice := {
  dc_delta : option ChatCompletionDelta;
  dc_finish_reason : option string
}.

Record CreateChatCompletionDeltaResponse := {
  dr_id : option string;
  dr_choices : list CreateChatCompletionDeltaChoice;
  dr_usage : option Usage
}.

(** [ChatMessage.detail]: the raw provider response, of either mode. *)
Inductive Detail :=
| DetailOfResponse (r : CreateChatCompletionResponse)
| DetailOfDelta (r : CreateChatCompletionDeltaResponse).

Record ChatMessage := {
  msg_id : string;
  msg_role : option Role;
  msg_conversationId : option string;
  msg_parentMessageId : option string;
  msg_text : string;
  msg_delta : option string;
  msg_detail : option Detail;
  msg_name : option string
}.

(** The content of a request entry: plain text, or the parts of an image
    question. *)
Inductive ContentPart :=
| TextPart (text : string)
| ImageUrlPart (url : string).

Inductive Content :=
| ContentText (s : string)
| ContentParts (parts : list ContentPart).

Record ChatCompletionRequestMessage := {
  req_role : Role;
  req_content : Content;
  req_name : option string
}.

(** A key of an object literal: absent, present with the value
    [undefined], or present with a value. *)
Inductive Key (A : Type) :=
| Absent
| Undefined
| Defined (a : A).
Arguments Absent {A}.
Arguments Undefined {A}.
Arguments Defined {A} a.

(** Reading a key, [o.k]: [undefined] when the key is absent and when it
    holds [undefined]; it is also what [JSON.stringify] keeps of it. *)
Definition read {A} (k : Key A) : option A :=
  match k with
  | Defined a => Some a
  | _ => None
  end.

(** One key of the object spread [{...a, ...b}]: a key that [b] has,
    whatever its value, replaces the one of [a]. *)
Definition spread_key {A} (a b : Key A) : Key A :=
  match b with
  | Absent => a
  | _ => b
  end.

(** Completion parameters, key by key. *)
Record CompletionParams := {
  key_model : Key string;
  key_temperature : Key Q;
  key_top_p : Key Q;
  key_presence_penalty : Key Q;
  key_max_tokens : Key Z
}.

(** The parameters as read: [cp.model] and so on. *)
Definition cp_model (cp : CompletionParams) : option string := read (key_model cp).
Definition cp_temperature (cp : CompletionParams) : option Q := read (key_temperature cp).
Definition cp_top_p (cp : CompletionParams) : option Q := read (key_top_p cp).
Definition cp_presence_penalty (cp : CompletionParams) : option Q :=
  read (key_presence_penalty cp).
Definition cp_max_tokens (cp : CompletionParams) : option Z := read (key_max_tokens cp).

Definition no_params : CompletionParams :=
  {| key_model := Absent; key_temperature := Absent; key_top_p := Absent;
     key_presence_penalty := Absent; key_max_tokens := Absent |}.

(** Object spread [{...a, ...b}]: a key of [b] wins, also one whose value
    is [undefined]. *)
Definition spread (a b : CompletionParams) : CompletionParams :=
  {| key_model := spread_key (key_model a) (key_model b);
     key_temperature := spread_key (key_temperature a) (key_temperature b);
     key_top_p := spread_key (key_top_p a) (key_top_p b);
     key_presence_penalty :=
       spread_key (key_presence_penalty a) (key_presence_penalty b);
     key_max_tokens := spread_key (key_max_tokens a) (key_max_tokens b) |}.

(** The assignment [cp.model = model]. *)
Definition set_model (model : string) (cp : CompletionParams) : CompletionParams :=
  {| key_model := Defined model;
     key_temperature := key_temperature cp;
     key_top_p := key_top_p cp;
     key_presence_penalty := key_presence_penalty cp;
     key_max_tokens := key_max_tokens cp |}.

(** [SendMessageOptions].  [opt_onProgress] and [opt_abortSignal] say
    whether the caller passed a callback and a signal. *)
Record SendMessageOptions := {
  opt_parentMessageId : option string;
  opt_conversationId : option string;
  opt_messageId : option string;
  opt_timeoutMs : option N;
  opt_onProgress : bool;
  opt_stream : option bool;
  opt_abortSignal : bool;
  opt_completionParams : option CompletionParams;
  opt_systemMessage : option string;
  opt_name : option string
}.

Definition set_completionParams (cp : CompletionParams) (o : SendMessageOptions)
  : SendMessageOptions :=
  {| opt_parentMessageId := opt_parentMessageId o;
     opt_conversationId := opt_conversationId o;
     opt_messageId := opt_messageId o;
     opt_timeoutMs := opt_timeoutMs o;
     opt_onProgress := opt_onProgress o;
     opt_stream := opt_stream o;
     opt_abortSignal := opt_abortSignal o;
     opt_completionParams := Some cp;
     opt_systemMessage := opt_systemMessage o;
     opt_name := opt_name o |}.

(** The fields of a [ChatGPTAPI] instance that the methods read. *)
Record ChatGPTAPI := {
  _apiKey : string;
  _apiBaseUrl : string;
  _apiOrg : option string;
  _debug : bool;
  _systemMessage : string;
  _completionParams : CompletionParams;
  _maxModelTokens : Z;
  _maxResponseTokens : Z
}.

(** The message store behind [_getMessageById] and [_upsertMessage]. *)
Class MessageStore (Store : Type) := {
  getMessageById : Store → string → option ChatMessage;
  upsertMessage : ChatMessage → Store → Store
}.

(** [_defaultGetMessageById] and [_defaultUpsertMessage] over a
    [messageStore] that keeps every key. *)
Definition _defaultGetMessageById (store : gmap string ChatMessage) (id : string)
  : option ChatMessage := store !! id.

Definition _defaultUpsertMessage (message : ChatMessage) (store : gmap string ChatMessage)
  : gmap string ChatMessage := <[msg_id message := message]> store.

#[global] Instance default_store : MessageStore (gmap string ChatMessage) := {|
  getMessageById := _defaultGetMessageById;
  upsertMessage := _defaultUpsertMessage
|}.

(** ** Constants *)

Definition CHATGPT_MODEL : string := "gpt-3.5-turbo".
Definition USER_LABEL_DEFAULT : string := "User".
Definition ASSISTANT_LABEL_DEFAULT : string := "ChatGPT".
Definition IMAGE_MARK : string := "![从感叹号开始为识图标志请勿修改]".
Definition VISION_MODEL : string := "gpt-4-vision-preview".
Definition nl : string := String "010" EmptyString.

(** ** The context builder *)

Record BuiltMessages := {
  messages : list ChatCompletionRequestMessage;
  maxTokens : Z;
  numTokens : Z;
  imgPath : string
}.

Section ContextBuilder.

(** [tokenizer.encode]. *)
Variable encode : string → list N.
(** [config.siteConfig.siteDomain], of [getCacheConfig()]. *)
Variable siteDomain : string.

Context {Store : Type} `{MessageStore Store}.

(** [_getTokenCount]. *)
Definition _getTokenCount (text : string) : Z :=
  let text := JsString.remove_all "<|endoftext|>" text in
  Z.of_nat (length (encode text)).

(** [`${message.content}`]: an array of objects prints as its members,
    each [[object Object]], joined by commas. *)
Definition content_string (c : Content) : string :=
  match c with
  | ContentText s => s
  | ContentParts parts =>
      JsString.join "," (map (fun _ => "[object Object]") parts)
  end.

(** One step of the [reduce] that flattens the entries. *)
Definition prompt_step (userLabel assistantLabel : string)
    (prompt : list string) (message : ChatCompletionRequestMessage) : list string :=
  match req_role message with
  | system =>
      prompt ++ ["Instructions:" +:+ nl +:+ content_string (req_content message)]
  | user =>
      prompt ++ [userLabel +:+ ":" +:+ nl +:+ content_string (req_content message)]
  | assistant =>
      prompt ++ [assistantLabel +:+ ":" +:+ nl +:+ content_string (req_content message)]
  end.

(** The flattened prompt of an entry sequence. *)
Definition render_prompt (nextMessages : list ChatCompletionRequestMessage) : string :=
  JsString.join (nl +:+ nl)
    (fold_left (prompt_step USER_LABEL_DEFAULT ASSISTANT_LABEL_DEFAULT) nextMessages []).

(** The entry made of a fetched parent message. *)
Definition parent_entry (parentMessage : ChatMessage) : ChatCompletionRequestMessage :=
  let parentMessageRole := default user (msg_role parentMessage) in
  {| req_role := parentMessageRole;
     req_content := ContentText (msg_text parentMessage);
     req_name := msg_name parentMessage |}.

(** The [do ... while (true)] loop.  [fuel] bounds the number of
    iterations; [None] means the bound was reached. *)
Fixpoint build_loop (fuel : nat) (store : Store) (maxNumTokens : Z)
    (systemMessageOffset : nat)
    (messages nextMessages : list ChatCompletionRequestMessage)
    (numTokens : Z) (parentMessageId : option string)
  : option (list ChatCompletionRequestMessage * Z) :=
  match fuel with
  | O => None
  | S fuel' =>
      let prompt := render_prompt nextMessages in
      let nextNumTokensEstimate := _getTokenCount prompt in
      let isValidPrompt := nextNumTokensEstimate <=? maxNumTokens in
      if JsString.truthy prompt && negb isValidPrompt
      then Some (messages, numTokens)
      else
        let messages := nextMessages in
        let numTokens := nextNumTokensEstimate in
        if negb isValidPrompt then Some (messages, numTokens)
        else
          match parentMessageId with
          | None => Some (messages, numTokens)
          | Some parentMessageId =>
              if negb (JsString.truthy parentMessageId)
              then Some (messages, numTokens)
              else
                match getMessageById store parentMessageId with
                | None => Some (messages, numTokens)
                | Some parentMessage =>
                    let nextMessages :=
                      take systemMessageOffset nextMessages
                        ++ parent_entry parentMessage
                        :: drop systemMessageOffset nextMessages in
                    build_loop fuel' store maxNumTokens systemMessageOffset
                      messages nextMessages numTokens
                      (msg_parentMessageId parentMessage)
                end
          end
  end.

(** The entries before the loop: the optional system entry. *)
Definition system_entries (systemMessage : string) : list ChatCompletionRequestMessage :=
  if JsString.truthy systemMessage
  then [ {| req_role := system; req_content := ContentText systemMessage;
            req_name := None |} ]
  else [].

(** The first candidate sequence: [messages] plus the new user entry.
    With the image mark in the text the entry is a text part and an image
    part, the call's [completionParams.model] is overwritten and
    [imgPath] is set; both property accesses of that branch can throw. *)
Definition first_candidate (text : string) (opts : SendMessageOptions)
    (messages : list ChatCompletionRequestMessage)
  : Result (list ChatCompletionRequestMessage * string * SendMessageOptions) :=
  if JsString.includes text IMAGE_MARK then
    completionParams ← deref "opts.completionParams" (opt_completionParams opts);
    let opts := set_completionParams (set_model VISION_MODEL completionParams) opts in
    let beforePart := JsString.split_head text IMAGE_MARK in
    afterPart ← deref "text.match(regex)" (JsString.match_paren text);
    let imgPath := IMAGE_MARK +:+ "(" +:+ afterPart +:+ ")" in
    let imgUrlStr :=
      if negb (JsString.startsWith afterPart "http")
      then siteDomain +:+ afterPart
      else afterPart in
    let thiscontent := [TextPart beforePart] ++ [ImageUrlPart imgUrlStr] in
    let nextMessages :=
      if JsString.truthy text
      then messages ++ [ {| req_role := user; req_content := ContentParts thiscontent;
                            req_name := opt_name opts |} ]
      else messages in
    mret (nextMessages, imgPath, opts)
  else
    let nextMessages :=
      if JsString.truthy text
      then messages ++ [ {| req_role := user; req_content := ContentText text;
                            req_name := opt_name opts |} ]
      else messages in
    mret (nextMessages, EmptyString, opts).

(** [_buildMessages].  The outer [option] is the loop's fuel; the
    [Result] is the exception of the image branch; the options come back
    because that branch writes to them. *)
Definition _buildMessages (fuel : nat) (self : ChatGPTAPI) (store : Store)
    (text : string) (opts : SendMessageOptions)
  : option (Result (BuiltMessages * SendMessageOptions)) :=
  let systemMessage := default (_systemMessage self) (opt_systemMessage opts) in
  let parentMessageId := opt_parentMessageId opts in
  let maxNumTokens := _maxModelTokens self - _maxResponseTokens self in
  let messages := system_entries systemMessage in
  let systemMessageOffset := length messages in
  match first_candidate text opts messages with
  | Throw e => Some (Throw e)
  | Ok (nextMessages, imgPath, opts) =>
      match build_loop fuel store maxNumTokens systemMessageOffset
              messages nextMessages 0 parentMessageId with
      | None => None
      | Some (messages, numTokens) =>
          let maxTokens :=
            Z.max 1 (Z.min (_maxModelTokens self - numTokens) (_maxResponseTokens self)) in
          Some (Ok ({| messages := messages; maxTokens := maxTokens;
                       numTokens := numTokens; imgPath := imgPath |}, opts))
      end
  end.

End ContextBuilder.

(** ** The completion transport *)

Record RequestBody := {
  body_params : CompletionParams;
  body_messages : list ChatCompletionRequestMessage;
  body_stream : bool
}.

(** The [init] of a request; [rq_signal] says whether an abort signal is
    attached. *)
Record Request := {
  rq_url : string;
  rq_headers : list (string * string);
  rq_body : RequestBody;
  rq_signal : bool
}.

(** A [Response]: [res_text] is what [res.text()] yields, [res_json] what
    [res.json()] yields, [None] when it throws. *)
Record Response := {
  res_ok : bool;
  res_status : N;
  res_statusText : string;
  res_text : string;
  res_json : option CreateChatCompletionResponse
}.

Inductive FetchOutcome :=
| FetchRejects (err : Error)
| FetchResponse (res : Response).

(** What a [fetchSSE] call does: the [data] payloads it hands to
    [onMessage], in order, and the error its promise rejects with, if any. *)
Record SSEOutcome := {
  sse_frames : list string;
  sse_error : option Error
}.

(** The state of a promise. *)
Inductive Settlement :=
| Pending
| Resolved (message : ChatMessage)
| Rejected (err : Error).

(** [resolve] and [reject] settle a pending promise and do nothing to a
    settled one. *)
Definition resolve (value : ChatMessage) (p : Settlement) : Settlement :=
  match p with
  | Pending => Resolved value
  | _ => p
  end.

Definition reject (err : Error) (p : Settlement) : Settlement :=
  match p with
  | Pending => Rejected err
  | _ => p
  end.

(** Truthiness of an optional string and of a number. *)
Definition truthy_opt (o : option string) : bool :=
  match o with
  | Some s => JsString.truthy s
  | None => false
  end.

Definition truthyN (o : option N) : bool :=
  match o with
  | Some n => negb (n =? 0)%N
  | None => false
  end.

(** Assignments to the fields of the in-flight [result]. *)
Definition set_id (v : string) (m : ChatMessage) : ChatMessage :=
  {| msg_id := v; msg_role := msg_role m; msg_conversationId := msg_conversationId m;
     msg_parentMessageId := msg_parentMessageId m; msg_text := msg_text m;
     msg_delta := msg_delta m; msg_detail := msg_detail m; msg_name := msg_name m |}.

Definition set_role (v : Role) (m : ChatMessage) : ChatMessage :=
  {| msg_id := msg_id m; msg_role := Some v; msg_conversationId := msg_conversationId m;
     msg_parentMessageId := msg_parentMessageId m; msg_text := msg_text m;
     msg_delta := msg_delta m; msg_detail := msg_detail m; msg_name := msg_name m |}.

Definition set_text (v : string) (m : ChatMessage) : ChatMessage :=
  {| msg_id := msg_id m; msg_role := msg_role m; msg_conversationId := msg_conversationId m;
     msg_parentMessageId := msg_parentMessageId m; msg_text := v;
     msg_delta := msg_delta m; msg_detail := msg_detail m; msg_name := msg_name m |}.

Definition set_delta (v : option string) (m : ChatMessage) : ChatMessage :=
  {| msg_id := msg_id m; msg_role := msg_role m; msg_conversationId := msg_conversationId m;
     msg_parentMessageId := msg_parentMessageId m; msg_text := msg_text m;
     msg_delta := v; msg_detail := msg_detail m; msg_name := msg_name m |}.

Definition set_detail (v : Detail) (m : ChatMessage) : ChatMessage :=
  {| msg_id := msg_id m; msg_role := msg_role m; msg_conversationId := msg_conversationId m;
     msg_parentMessageId := msg_parentMessageId m; msg_text := msg_text m;
     msg_delta := msg_delta m; msg_detail := Some v; msg_name := msg_name m |}.

(** The stream handler's view of the exchange: the mutable [result], the
    promise, and the snapshots passed to [onProgress].  The source resolves
    the promise with the object [result] itself; [Resolved] keeps its
    fields as they are when [resolve] is called, which is what the [then]
    callback reads when the sentinel is the last frame. *)
Record StreamState := {
  st_result : ChatMessage;
  st_promise : Settlement;
  st_progress : list ChatMessage
}.

(** What a [sendMessage] call leaves behind: the settlement of the
    promise it returns, the store, the requests handed to the transport,
    the snapshots passed to [onProgress] and the messages handed to
    [_upsertMessage], each in order. *)
Record Exchange (Store : Type) := {
  ex_outcome : Settlement;
  ex_store : Store;
  ex_requests : list Request;
  ex_progress : list ChatMessage;
  ex_upserts : list ChatMessage
}.
Arguments ex_outcome {Store} _.
Arguments ex_store {Store} _.
Arguments ex_requests {Store} _.
Arguments ex_progress {Store} _.
Arguments ex_upserts {Store} _.

Section RequestController.

Variable encode : string → list N.
Variable siteDomain : string.
(** [uuidv4()]: the identifier of the n-th call. *)
Variable uuidv4 : nat → string.
(** [JSON.parse] on a stream frame; [None] when it throws. *)
Variable JSON_parse : string → option CreateChatCompletionDeltaResponse.
(** The injected [_fetch] and the imported [fetchSSE]. *)
Variable _fetch : Request → FetchOutcome.
Variable fetchSSE : Request → SSEOutcome.

Context {Store : Type} `{MessageStore Store}.

(** [onMessage], the callback given to [fetchSSE]. *)
Definition onMessage (imgPath : string) (onProgress : bool)
    (st : StreamState) (data : string) : StreamState :=
  let result := st_result st in
  if String.eqb data "[DONE]" then
    let result := set_text (JsString.trim (msg_text result)) result in
    {| st_result := result;
       st_promise := resolve result (st_promise st);
       st_progress := st_progress st |}
  else
    match JSON_parse data with
    | None =>
        {| st_result := result;
           st_promise := reject (Thrown "JSON.parse") (st_promise st);
           st_progress := st_progress st |}
    | Some response =>
        let result :=
          match dr_id response with
          | Some id => if JsString.truthy id then set_id id result else result
          | None => result
          end in
        match dr_choices response with
        | [] =>
            {| st_result := result; st_promise := st_promise st;
               st_progress := st_progress st |}
        | choice :: _ =>
            match dc_delta choice with
            | None =>
                {| st_result := result;
                   st_promise := reject (TypeError "delta.content") (st_promise st);
                   st_progress := st_progress st |}
            | Some delta =>
                let result := set_delta (d_content delta) result in
                let result :=
                  if truthy_opt (d_content delta)
                  then set_text (msg_text result +:+ default "" (d_content delta)) result
                  else if bool_decide (dc_finish_reason choice = Some "stop")
                       then set_text (msg_text result +:+ imgPath) result
                       else result in
                let result :=
                  match d_role delta with
                  | Some role => set_role role result
                  | None => result
                  end in
                let result := set_detail (DetailOfDelta response) result in
                {| st_result := result; st_promise := st_promise st;
                   st_progress :=
                     if onProgress then st_progress st ++ [result]
                     else st_progress st |}
            end
        end
    end.

(** The streaming branch: [fetchSSE] feeds its frames to [onMessage],
    and its own rejection, if any, goes to [reject]. *)
Definition stream_exchange (request : Request) (imgPath : string)
    (onProgress : bool) (result : ChatMessage) : StreamState :=
  let sse := fetchSSE request in
  let st := fold_left (onMessage imgPath onProgress) (sse_frames sse)
              {| st_result := result; st_promise := Pending; st_progress := [] |} in
  match sse_error sse with
  | Some err =>
      {| st_result := st_result st; st_promise := reject err (st_promise st);
         st_progress := st_progress st |}
  | None => st
  end.

(** [res?.detail?.message || res?.detail || 'unknown'], in a template. *)
Definition error_detail_text (res : CreateChatCompletionResponse) : string :=
  match cr_detail res with
  | Some (DetailObject (Some message)) =>
      if JsString.truthy message then message else "[object Object]"
  | Some (DetailObject None) => "[object Object]"
  | Some (DetailText s) => if JsString.truthy s then s else "unknown"
  | None => "unknown"
  end.

(** The buffered branch. *)
Definition buffered_exchange (request : Request) (result : ChatMessage) : Settlement :=
  match _fetch request with
  | FetchRejects err => Rejected err
  | FetchResponse res =>
      if negb (res_ok res) then
        let reason := res_text res in
        let msg :=
          "OpenAI error "
            +:+ (if negb (res_status res =? 0)%N then pretty (res_status res)
                 else res_statusText res)
            +:+ ": " +:+ reason in
        Rejected (ChatGPTError msg (res_status res) (res_statusText res))
      else
        match res_json res with
        | None => Rejected (Thrown "res.json")
        | Some response =>
            let result :=
              match cr_id response with
              | Some id => if JsString.truthy id then set_id id result else result
              | None => result
              end in
            match cr_choices response with
            | choice :: _ =>
                let message := ch_message choice in
                let result := set_text (rm_content message) result in
                let result :=
                  match rm_role message with
                  | Some role => set_role role result
                  | None => result
                  end in
                let result := set_detail (DetailOfResponse response) result in
                Resolved result
            | [] =>
                Rejected (JsError ("OpenAI error: " +:+ error_detail_text response))
            end
        end
  end.

Definition detail_usage (d : Detail) : option Usage :=
  match d with
  | DetailOfResponse r => cr_usage r
  | DetailOfDelta r => dr_usage r
  end.

Definition detail_set_usage (u : Usage) (d : Detail) : Detail :=
  match d with
  | DetailOfResponse r =>
      DetailOfResponse {| cr_id := cr_id r; cr_choices := cr_choices r;
                          cr_usage := Some u; cr_detail := cr_detail r |}
  | DetailOfDelta r =>
      DetailOfDelta {| dr_id := dr_id r; dr_choices := dr_choices r;
                       dr_usage := Some u |}
  end.

(** The first half of the [then] callback: usage is estimated when the
    provider reported none. *)
Definition estimate_usage (numTokens : Z) (message : ChatMessage) : ChatMessage :=
  match msg_detail message with
  | Some d =>
      match detail_usage d with
      | Some _ => message
      | None =>
          let promptTokens := numTokens in
          let completionTokens := _getTokenCount encode (msg_text message) in
          set_detail
            (detail_set_usage
               {| prompt_tokens := promptTokens;
                  completion_tokens := completionTokens;
                  total_tokens := promptTokens + completionTokens;
                  estimated := true |} d)
            message
      end
  | None => message
  end.

(** The abort controller of [sendMessage] exists when a timeout is set
    and the caller passed no signal. *)
Definition creates_abortController (opts : SendMessageOptions) : bool :=
  truthyN (opt_timeoutMs opts) && negb (opt_abortSignal opts).

(** The user message of a call, [latestQuestion]. *)
Definition user_message (text : string) (opts : SendMessageOptions) : ChatMessage :=
  let messageId := default (uuidv4 0%nat) (opt_messageId opts) in
  {| msg_id := messageId; msg_role := Some user;
     msg_conversationId := opt_conversationId opts;
     msg_parentMessageId := opt_parentMessageId opts;
     msg_text := text; msg_delta := None; msg_detail := None; msg_name := None |}.

(** The assistant placeholder, [result], as created. *)
Definition placeholder (opts : SendMessageOptions) : ChatMessage :=
  let messageId := default (uuidv4 0%nat) (opt_messageId opts) in
  let fresh := match opt_messageId opts with Some _ => 0%nat | None => 1%nat end in
  {| msg_id := uuidv4 fresh; msg_role := Some assistant;
     msg_conversationId := opt_conversationId opts;
     msg_parentMessageId := Some messageId;
     msg_text := ""; msg_delta := None; msg_detail := None; msg_name := None |}.

(** The request of a call. *)
Definition make_request (self : ChatGPTAPI) (opts : SendMessageOptions)
    (built : BuiltMessages) (stream abortSignal : bool) : Request :=
  let url := _apiBaseUrl self +:+ "/chat/completions" in
  let headers :=
    [("Content-Type", "application/json");
     ("Authorization", "Bearer " +:+ _apiKey self)] in
  let body :=
    {| body_params :=
         spread
           (spread {| key_model := Absent; key_temperature := Absent;
                      key_top_p := Absent; key_presence_penalty := Absent;
                      key_max_tokens := Defined (maxTokens built) |}
                   (_completionParams self))
           (default no_params (opt_completionParams opts));
       body_messages := messages built;
       body_stream := stream |} in
  let headers :=
    if truthy_opt (_apiOrg self)
    then headers ++ [("OpenAI-Organization", default "" (_apiOrg self))]
    else headers in
  {| rq_url := url; rq_headers := headers; rq_body := body; rq_signal := abortSignal |}.

(** [sendMessage] over a store whose writes succeed, up to the promise
    [responseP]: what the caller holds when no timeout is set, and when
    the timer of [pTimeout] does not elapse before [responseP] settles.
    The call with writes that can fail and with the timer is
    [sendMessage_call] below.  [None]: the context builder ran out of
    [fuel].  The body of the request reads [completionParams] from
    [written], the options as the builder left them: the
    [completionParams] that [sendMessage] destructured is the very object
    the builder assigns to. *)
Definition sendMessage (fuel : nat) (self : ChatGPTAPI) (store : Store)
    (text : string) (opts : SendMessageOptions) : option (Exchange Store) :=
  let onProgress := opt_onProgress opts in
  let stream := default onProgress (opt_stream opts) in
  let abortSignal := opt_abortSignal opts || creates_abortController opts in
  let message := user_message text opts in
  let latestQuestion := message in
  match _buildMessages encode siteDomain fuel self store text opts with
  | None => None
  | Some (Throw err) =>
      Some {| ex_outcome := Rejected err; ex_store := store; ex_requests := [];
              ex_progress := []; ex_upserts := [] |}
  | Some (Ok (built, written)) =>
      let result := placeholder opts in
      let request := make_request self written built stream abortSignal in
      let st :=
        if stream
        then stream_exchange request (imgPath built) onProgress result
        else {| st_result := result;
                st_promise := buffered_exchange request result;
                st_progress := [] |} in
      match st_promise st with
      | Resolved message =>
          let message := estimate_usage (numTokens built) message in
          Some {| ex_outcome := Resolved message;
                  ex_store := upsertMessage message (upsertMessage latestQuestion store);
                  ex_requests := [request];
                  ex_progress := st_progress st;
                  ex_upserts := [latestQuestion; message] |}
      | settled =>
          Some {| ex_outcome := settled; ex_store := store;
                  ex_requests := [request];
                  ex_progress := st_progress st; ex_upserts := [] |}
      end
  end.

End RequestController.

(** ** The call with failing writes and the timeout *)

(** What a [sendMessage] call leaves behind when the writes can fail and
    a timeout can elapse.  [call_outcome] is the settlement of the promise
    the caller holds; [call_exchange] is the settlement of the promise
    that the transport branch settles, before its [then] callback, and
    [None] when the call failed before that promise was made;
    [call_writes] lists the messages handed to [_upsertMessage], in
    order, each with the error its write rejected with, if any. *)
Record Call (Store : Type) := {
  call_outcome : Settlement;
  call_exchange : option Settlement;
  call_store : Store;
  call_requests : list Request;
  call_progress : list ChatMessage;
  call_writes : list (ChatMessage * option Error)
}.
Arguments call_outcome {Store} _.
Arguments call_exchange {Store} _.
Arguments call_store {Store} _.
Arguments call_requests {Store} _.
Arguments call_progress {Store} _.
Arguments call_writes {Store} _.

(** The rejection of [Promise.all]: that of a write that rejects, the
    first in call order when both do. *)
Definition first_rejection (writes : list (ChatMessage * option Error)) : option Error :=
  head (omap snd writes).

Section WholeCall.

Variable encode : string → list N.
Variable siteDomain : string.
Variable uuidv4 : nat → string.
Variable JSON_parse : string → option CreateChatCompletionDeltaResponse.
Variable _fetch : Request → FetchOutcome.
Variable fetchSSE : Request → SSEOutcome.
(** Whether the timer of [pTimeout] elapses before [responseP] settles. *)
Variable elapsed_first : bool.

Context {Store : Type} `{MessageStore Store}.

(** The injected [_upsertMessage]: the store a write leaves and the error
    its promise rejects with, if any. *)
Variable _upsertMessage : ChatMessage → Store → Store * option Error.

(** The two writes of the [then] callback.  Both calls are made before
    [Promise.all] looks at either promise, so the second write is made
    whatever becomes of the first, and nothing undoes a write. *)
Definition upsert_pair (latestQuestion message : ChatMessage) (store : Store)
  : Store * list (ChatMessage * option Error) :=
  let '(store, first) := _upsertMessage latestQuestion store in
  let '(store, second) := _upsertMessage message store in
  (store, [(latestQuestion, first); (message, second)]).

(** [pTimeout(responseP, { milliseconds, message })] of the imported
    [p-timeout], as far as its result goes: the promise it returns settles
    as [responseP] does, unless the timer elapses first, and then it is
    rejected with a [TimeoutError] that carries [message]; against a
    promise that never settles the timer always elapses first.  When, and
    whether, the [cancel] hook is called is not part of this. *)
Definition pTimeout (responseP : Settlement) (message : string) : Settlement :=
  match responseP with
  | Pending => Rejected (TimeoutError message)
  | settled => if elapsed_first then Rejected (TimeoutError message) else settled
  end.

(** [sendMessage], the whole of it.  The exchange goes on when the timer
    has elapsed: what it then does to the request is the transport's
    affair ([_fetch] and [fetchSSE] say how the request ends), and the
    [then] callback makes its writes whenever the transport branch
    resolves. *)
Definition sendMessage_call (fuel : nat) (self : ChatGPTAPI) (store : Store)
    (text : string) (opts : SendMessageOptions) : option (Call Store) :=
  let timeoutMs := opt_timeoutMs opts in
  let onProgress := opt_onProgress opts in
  let stream := default onProgress (opt_stream opts) in
  let abortSignal := opt_abortSignal opts || creates_abortController opts in
  let message := user_message uuidv4 text opts in
  let latestQuestion := message in
  match _buildMessages encode siteDomain fuel self store text opts with
  | None => None
  | Some (Throw err) =>
      Some {| call_outcome := Rejected err; call_exchange := None;
              call_store := store; call_requests := [];
              call_progress := []; call_writes := [] |}
  | Some (Ok (built, written)) =>
      let result := placeholder uuidv4 opts in
      let request := make_request self written built stream abortSignal in
      let st :=
        if stream
        then stream_exchange JSON_parse fetchSSE request (imgPath built) onProgress result
        else {| st_result := result;
                st_promise := buffered_exchange _fetch request result;
                st_progress := [] |} in
      let '(responseP, store, writes) :=
        match st_promise st with
        | Resolved message =>
            let message := estimate_usage encode (numTokens built) message in
            let '(store, writes) := upsert_pair latestQuestion message store in
            (match first_rejection writes with
             | Some err => Rejected err
             | None => Resolved message
             end, store, writes)
        | settled => (settled, store, [])
        end in
      Some {| call_outcome :=
                if truthyN timeoutMs
                then pTimeout responseP "OpenAI timed out waiting for response"
                else responseP;
              call_exchange := Some (st_promise st);
              call_store := store;
              call_requests := [request];
              call_progress := st_progress st;
              call_writes := writes |}
  end.

End WholeCall.

(** ** The constructor *)

(** What the [fetch] of the options, or else the global one, is. *)
Inductive FetchOption := FetchMissing | FetchNotAFunction | FetchFunction.

(** [ChatGPTAPIOptions]. *)
Record ChatGPTAPIOptions := {
  o_apiKey : string;
  o_apiOrg : option string;
  o_apiBaseUrl : option string;
  o_debug : option bool;
  o_completionParams : option CompletionParams;
  o_systemMessage : option string;
  o_maxModelTokens : option Z;
  o_maxResponseTokens : option Z;
  o_fetch : FetchOption
}.

(** [currentDate] is the day part of [new Date().toISOString()]. *)
Definition constructor (currentDate : string) (opts : ChatGPTAPIOptions)
  : Result ChatGPTAPI :=
  let self :=
    {| _apiKey := o_apiKey opts;
       _apiBaseUrl := default "https://api.openai.com/v1" (o_apiBaseUrl opts);
       _apiOrg := o_apiOrg opts;
       _debug := default false (o_debug opts);
       _systemMessage :=
         default
           ("You are ChatGPT, a large language model trained by OpenAI. "
              +:+ "Answer as concisely as possible." +:+ nl
              +:+ "Knowledge cutoff: 2021-09-01" +:+ nl
              +:+ "Current date: " +:+ currentDate)
           (o_systemMessage opts);
       _completionParams :=
         spread {| key_model := Defined CHATGPT_MODEL;
                   key_temperature := Defined (8 # 10)%Q;
                   key_top_p := Defined (1 # 1)%Q;
                   key_presence_penalty := Defined (1 # 1)%Q;
                   key_max_tokens := Absent |}
                (default no_params (o_completionParams opts));
       _maxModelTokens := default 4000 (o_maxModelTokens opts);
       _maxResponseTokens := default 1000 (o_maxResponseTokens opts) |} in
  if negb (JsString.truthy (_apiKey self))
  then Throw (JsError "OpenAI missing required apiKey")
  else match o_fetch opts with
       | FetchMissing => Throw (JsError "Invalid environment; fetch is not defined")
       | FetchNotAFunction =>
           Throw (JsError ("Invalid " +:+ String (Ascii.ascii_of_nat 34) "fetch"
                             +:+ String (Ascii.ascii_of_nat 34) " is not a function"))
       | FetchFunction => Ok self
       end.

(** ** Collaborators used in the examples *)

Module Sample.

(** A tokenizer that makes one token of every byte. *)
Definition byte_encode (s : string) : list N :=
  map N_of_ascii (String.list_ascii_of_string s).

Definition uuid (n : nat) : string := "uuid-" +:+ pretty n.

(** A client built with the default limits (4000 and 1000). *)
Definition api (systemMessage : string) : ChatGPTAPI :=
  {| _apiKey := "sk-test";
     _apiBaseUrl := "https://api.openai.com/v1";
     _apiOrg := None;
     _debug := false;
     _systemMessage := systemMessage;
     _completionParams :=
       {| key_model := Defined CHATGPT_MODEL; key_temperature := Defined (8 # 10)%Q;
          key_top_p := Defined (1 # 1)%Q; key_presence_penalty := Defined (1 # 1)%Q;
          key_max_tokens := Absent |};
     _maxModelTokens := 4000;
     _maxResponseTokens := 1000 |}.

Definition no_opts : SendMessageOptions :=
  {| opt_parentMessageId := None; opt_conversationId := None;
     opt_messageId := None; opt_timeoutMs := None; opt_onProgress := false;
     opt_stream := None; opt_abortSignal := false;
     opt_completionParams := None; opt_systemMessage := None;
     opt_name := None |}.

Definition with_parent (id : string) : SendMessageOptions :=
  {| opt_parentMessageId := Some id; opt_conversationId := None;
     opt_messageId := None; opt_timeoutMs := None; opt_onProgress := false;
     opt_stream := None; opt_abortSignal := false;
     opt_completionParams := None; opt_systemMessage := None;
     opt_name := None |}.

Definition streaming : SendMessageOptions :=
  {| opt_parentMessageId := None; opt_conversationId := None;
     opt_messageId := Some "q-1"; opt_timeoutMs := None; opt_onProgress := true;
     opt_stream := None; opt_abortSignal := false;
     opt_completionParams := None; opt_systemMessage := None;
     opt_name := None |}.

Definition stored (id : string) (role : Role) (parent : option string) (text : string)
  : ChatMessage :=
  {| msg_id := id; msg_role := Some role; msg_conversationId := None;
     msg_parentMessageId := parent; msg_text := text; msg_delta := None;
     msg_detail := None; msg_name := None |}.

(** A conversation of two earlier turns. *)
Definition question : ChatMessage := stored "m1" user None "What is Rocq?".
Definition answer : ChatMessage := stored "m2" assistant (Some "m1") "A proof assistant.".

Definition history : gmap string ChatMessage :=
  _defaultUpsertMessage answer (_defaultUpsertMessage question ∅).

(** A frame whose first choice carries the fragment [content]. *)
Definition fragment (content : string) : CreateChatCompletionDeltaResponse :=
  {| dr_id := Some "chatcmpl-1";
     dr_choices := [ {| dc_delta := Some {| d_role := None; d_content := Some content |};
                        dc_finish_reason := None |} ];
     dr_usage := None |}.

(** [JSON.parse] on the two payloads of the examples. *)
Definition parse (data : string) : option CreateChatCompletionDeltaResponse :=
  if String.eqb data "{Hel}" then Some (fragment "Hel")
  else if String.eqb data "{lo}" then Some (fragment "lo")
  else None.

Definition sse (request : Request) : SSEOutcome :=
  {| sse_frames := ["{Hel}"; "{lo}"; "[DONE]"]; sse_error := None |}.

(** A buffered reply with one choice. *)
Definition reply : CreateChatCompletionResponse :=
  {| cr_id := Some "chatcmpl-2";
     cr_choices := [ {| ch_message := {| rm_role := Some assistant;
                                         rm_content := "Hello" |} |} ];
     cr_usage := None; cr_detail := None |}.

Definition fetch_ok (request : Request) : FetchOutcome :=
  FetchResponse {| res_ok := true; res_status := 200; res_statusText := "OK";
                   res_text := ""; res_json := Some reply |}.

Definition fetch_429 (request : Request) : FetchOutcome :=
  FetchResponse {| res_ok := false; res_status := 429;
                   res_statusText := "Too Many Requests";
                   res_text := "rate limited"; res_json := None |}.

Definition fetch_empty (request : Request) : FetchOutcome :=
  FetchResponse {| res_ok := true; res_status := 200; res_statusText := "OK";
                   res_text := "";
                   res_json := Some {| cr_id := None; cr_choices := [];
                                       cr_usage := None;
                                       cr_detail := Some (DetailText "bad request") |} |}.

Definition fetch_down (request : Request) : FetchOutcome :=
  FetchRejects (Thrown "ECONNREFUSED").

(** A buffered reply that reports its usage. *)
Definition metered_reply : CreateChatCompletionResponse :=
  {| cr_id := Some "chatcmpl-3";
     cr_choices := [ {| ch_message := {| rm_role := Some assistant;
                                         rm_content := "Hello" |} |} ];
     cr_usage := Some {| prompt_tokens := 12; completion_tokens := 1;
                         total_tokens := 13; estimated := false |};
     cr_detail := None |}.

Definition metered_response : Response :=
  {| res_ok := true; res_status := 200; res_statusText := "OK"; res_text := "";
     res_json := Some metered_reply |}.

Definition fetch_metered (request : Request) : FetchOutcome :=
  FetchResponse metered_response.

(** A frame that ends the answer. *)
Definition stop_frame : CreateChatCompletionDeltaResponse :=
  {| dr_id := Some "chatcmpl-1";
     dr_choices := [ {| dc_delta := Some {| d_role := None; d_content := None |};
                        dc_finish_reason := Some "stop" |} ];
     dr_usage := None |}.

(** [JSON.parse] on the payloads of the image example. *)
Definition parse_image (data : string) : option CreateChatCompletionDeltaResponse :=
  if String.eqb data "{A cat.}" then Some (fragment "A cat.")
  else if String.eqb data "{stop}" then Some stop_frame
  else None.

Definition sse_image (request : Request) : SSEOutcome :=
  {| sse_frames := ["{A cat.}"; "{stop}"; "[DONE]"]; sse_error := None |}.

(** A stream with a frame that cannot be decoded, and one that ends
    without the sentinel. *)
Definition sse_garbled (request : Request) : SSEOutcome :=
  {| sse_frames := ["{Hel}"; "<html>"; "{lo}"; "[DONE]"]; sse_error := None |}.

Definition sse_cut (request : Request) : SSEOutcome :=
  {| sse_frames := ["{Hel}"; "{lo}"]; sse_error := None |}.

(** The options of an image question, streamed. *)
Definition image_opts : SendMessageOptions :=
  {| opt_parentMessageId := None; opt_conversationId := None;
     opt_messageId := Some "q-1"; opt_timeoutMs := None; opt_onProgress := true;
     opt_stream := None; opt_abortSignal := false;
     opt_completionParams := Some no_params; opt_systemMessage := None;
     opt_name := None |}.

(** A client with a ceiling of [ceiling] tokens. *)
Definition api_with_ceiling (systemMessage : string) (ceiling : Z) : ChatGPTAPI :=
  {| _apiKey := "sk-test";
     _apiBaseUrl := "https://api.openai.com/v1";
     _apiOrg := None;
     _debug := false;
     _systemMessage := systemMessage;
     _completionParams := no_params;
     _maxModelTokens := ceiling + 1000;
     _maxResponseTokens := 1000 |}.

(** A store whose only message names itself as its parent. *)
Definition knot : ChatMessage := stored "k" assistant (Some "k") "again".
Definition knotted : gmap string ChatMessage := _defaultUpsertMessage knot ∅.

(** Parameters of a call that name a model and pass [max_tokens] as
    [undefined], and parameters that pass the model as [undefined]. *)
Definition call_params : CompletionParams :=
  {| key_model := Defined "gpt-4"; key_temperature := Absent; key_top_p := Absent;
     key_presence_penalty := Absent; key_max_tokens := Undefined |}.

Definition no_model : CompletionParams :=
  {| key_model := Undefined; key_temperature := Absent; key_top_p := Absent;
     key_presence_penalty := Absent; key_max_tokens := Absent |}.

(** A store whose writes succeed, and one that refuses the messages of
    a role. *)
Definition upsert_ok (message : ChatMessage) (store : gmap string ChatMessage)
  : gmap string ChatMessage * option Error :=
  (_defaultUpsertMessage message store, None).

Definition upsert_refusing (role : Role) (message : ChatMessage)
    (store : gmap string ChatMessage) : gmap string ChatMessage * option Error :=
  if bool_decide (msg_role message = Some role)
  then (store, Some (Thrown "store write failed"))
  else (_defaultUpsertMessage message store, None).

(** Options with a timeout and the caller's own signal, buffered, and
    options with a timeout, streamed. *)
Definition timed_opts : SendMessageOptions :=
  {| opt_parentMessageId := None; opt_conversationId := None;
     opt_messageId := None; opt_timeoutMs := Some 50%N; opt_onProgress := false;
     opt_stream := None; opt_abortSignal := true;
     opt_completionParams := None; opt_systemMessage := None;
     opt_name := None |}.

Definition timed_streaming : SendMessageOptions :=
  {| opt_parentMessageId := None; opt_conversationId := None;
     opt_messageId := Some "q-1"; opt_timeoutMs := Some 50%N; opt_onProgress := true;
     opt_stream := None; opt_abortSignal := false;
     opt_completionParams := None; opt_systemMessage := None;
     opt_name := None |}.

(** [n] copies of [s]. *)
Fixpoint repeat_string (n : nat) (s : string) : string :=
  match n with
  | O => EmptyString
  | S k => s +:+ repeat_string k s
  end.

End Sample.

(** ** Vocabulary of the statements *)

(** The line of the prompt that an entry contributes. *)
Definition prompt_line (message : ChatCompletionRequestMessage) : string :=
  match req_role message with
  | system => "Instructions:" +:+ nl +:+ content_string (req_content message)
  | user =>
      USER_LABEL_DEFAULT +:+ ":" +:+ nl +:+ content_string (req_content message)
  | assistant =>
      ASSISTANT_LABEL_DEFAULT +:+ ":" +:+ nl +:+ content_string (req_content message)
  end.

(** The new user entry of a text without the image mark. *)
Definition user_entry (text : string) (opts : SendMessageOptions)
  : ChatCompletionRequestMessage :=
  {| req_role := user; req_content := ContentText text; req_name := opt_name opts |}.

(** [ancestor_chain store id chain]: [chain] lists the messages met by
    following [parentMessageId] from [id] through the store, newest first,
    up to the first identifier that is absent, empty or unknown. *)
Inductive ancestor_chain {Store : Type} `{MessageStore Store} (store : Store)
  : option string → list ChatMessage → Prop :=
| chain_no_parent : ancestor_chain store None []
| chain_empty_id : ancestor_chain store (Some "") []
| chain_unknown (id : string) :
    getMessageById store id = None → ancestor_chain store (Some id) []
| chain_parent (id : string) (parent : ChatMessage) (older : list ChatMessage) :
    id ≠ "" →
    getMessageById store id = Some parent →
    ancestor_chain store (msg_parentMessageId parent) older →
    ancestor_chain store (Some id) (parent :: older).

(** The candidate sequence once the [k] newest members of [chain] have
    been spliced in behind the system entries [sys] and before [turn]. *)
Definition candidate (sys turn : list ChatCompletionRequestMessage)
    (chain : list ChatMessage) (k : nat) : list ChatCompletionRequestMessage :=
  sys ++ rev (map parent_entry (take k chain)) ++ turn.

(** [data] is a stream frame whose first choice carries the content
    fragment [fragment]; an empty fragment does not come with the [stop]
    finish reason. *)
Definition carries_fragment
    (JSON_parse : string → option CreateChatCompletionDeltaResponse)
    (data fragment : string) : Prop :=
  data ≠ "[DONE]" ∧
  ∃ response choice rest delta,
    JSON_parse data = Some response ∧
    dr_choices response = choice :: rest ∧
    dc_delta choice = Some delta ∧
    d_content delta = Some fragment ∧
    (fragment = "" → dc_finish_reason choice ≠ Some "stop").

(** Concatenation of the fragments, in order. *)
Definition concat_fragments (fragments : list string) : string :=
  foldr String.append "" fragments.

(** The handler leaves [parentMessageId] alone, on the in-flight result
    and on what the promise was resolved with. *)
Definition linked (p : option string) (st : StreamState) : Prop :=
  msg_parentMessageId (st_result st) = p ∧
  ∀ m, st_promise st = Resolved m → msg_parentMessageId m = p.

(** [ancestor_path store id path]: [path] lists the first messages met by
    following [parentMessageId] from [id] through the store, newest first;
    unlike a chain it may stop anywhere, and it may pass through the same
    message again when the store holds a cycle. *)
Inductive ancestor_path {Store : Type} `{MessageStore Store} (store : Store)
  : option string → list ChatMessage → Prop :=
| path_stop (id : option string) : ancestor_path store id []
| path_step (id : string) (parent : ChatMessage) (older : list ChatMessage) :
    id ≠ "" →
    getMessageById store id = Some parent →
    ancestor_path store (msg_parentMessageId parent) older →
    ancestor_path store (Some id) (parent :: older).

(** Whether, and how often, a character occurs in a string. *)
Fixpoint has_char (c : ascii) (s : string) : bool :=
  match s with
  | EmptyString => false
  | String a r => if Ascii.eqb a c then true else has_char c r
  end.

Fixpoint count_char (c : ascii) (s : string) : nat :=
  match s with
  | EmptyString => O
  | String a r => if Ascii.eqb a c then S (count_char c r) else count_char c r
  end.

(** Whether a line terminator (LF, CR, U+2028 or U+2029) starts
    somewhere in a string. *)
Fixpoint has_line_terminator (s : string) : bool :=
  match s with
  | EmptyString => false
  | String _ r =>
      match JsString.starts_with_any JsString.line_terminators s with
      | Some _ => true
      | None => has_line_terminator r
      end
  end.

(** A path segment that the expression [/\((.*?)\)/] captures whole: it
    has no closing parenthesis and no line terminator. *)
Definition capturable (g : string) : bool :=
  negb (has_char ")" g) && negb (has_line_terminator g).

(** A key of an optional object: absent when there is no object. *)
Definition own_key {A} (key : CompletionParams → Key A) (o : option CompletionParams)
  : Key A :=
  match o with
  | Some cp => key cp
  | None => Absent
  end.

(** The user entry of an image question: the text before the mark and
    the image reference, resolved against the site when it is relative. *)
Definition image_entry (siteDomain before path : string) (opts : SendMessageOptions)
  : ChatCompletionRequestMessage :=
  {| req_role := user;
     req_content :=
       ContentParts
         [TextPart before;
          ImageUrlPart (if JsString.startsWith path "http" then path
                        else siteDomain +:+ path)];
     req_name := opt_name opts |}.

(** What the rendering of an entry depends on. *)
Definition shadow (e : ChatCompletionRequestMessage) : Role * string :=
  (req_role e, content_string (req_content e)).

(** The texts after each fragment: the running concatenations. *)
Fixpoint running (so_far : string) (fragments : list string) : list string :=
  match fragments with
  | [] => []
  | fragment :: rest => (so_far +:+ fragment) :: running (so_far +:+ fragment) rest
  end.

(** [data] is a stream frame whose first choice has no content and the
    finish reason [stop]. *)
Definition carries_stop
    (JSON_parse : string → option CreateChatCompletionDeltaResponse)
    (data : string) : Prop :=
  data ≠ "[DONE]" ∧
  ∃ response choice rest delta,
    JSON_parse data = Some response ∧
    dr_choices response = choice :: rest ∧
    dc_delta choice = Some delta ∧
    truthy_opt (d_content delta) = false ∧
    dc_finish_reason choice = Some "stop".

(** The setters [apiKey] and [apiOrg]; the getters are the projections
    [_apiKey] and [_apiOrg]. *)
Definition set_apiKey (apiKey : string) (self : ChatGPTAPI) : ChatGPTAPI :=
  {| _apiKey := apiKey; _apiBaseUrl := _apiBaseUrl self; _apiOrg := _apiOrg self;
     _debug := _debug self; _systemMessage := _systemMessage self;
     _completionParams := _completionParams self;
     _maxModelTokens := _maxModelTokens self;
     _maxResponseTokens := _maxResponseTokens self |}.

Definition set_apiOrg (apiOrg : option string) (self : ChatGPTAPI) : ChatGPTAPI :=
  {| _apiKey := _apiKey self; _apiBaseUrl := _apiBaseUrl self; _apiOrg := apiOrg;
     _debug := _debug self; _systemMessage := _systemMessage self;
     _completionParams := _completionParams self;
     _maxModelTokens := _maxModelTokens self;
     _maxResponseTokens := _maxResponseTokens self |}.

(** * Properties *)

(** ** Strings *)

Lemma truthy_spec (s : string) : JsString.truthy s = true ↔ s ≠ "".
Proof. destruct s; simpl; split; congruence. Qed.

Lemma truthy_app_l (s t : string) :
  JsString.truthy s = true → JsString.truthy (s +:+ t) = true.
Proof. destruct s; simpl; [discriminate | trivial]. Qed.

Lemma truthy_join_cons (sep p : string) (rest : list string) :
  JsString.truthy p = true → JsString.truthy (JsString.join sep (p :: rest)) = true.
Proof.
  intros Hp. destruct rest as [|q rest]; simpl; [exact Hp |].
  now apply truthy_app_l.
Qed.

(** ** The context builder *)

Section ContextBuilderFacts.

Variable encode : string → list N.
Variable siteDomain : string.
Context {Store : Type} `{MessageStore Store}.

Lemma prompt_step_line (prompt : list string) (message : ChatCompletionRequestMessage) :
  prompt_step USER_LABEL_DEFAULT ASSISTANT_LABEL_DEFAULT prompt message
  = prompt ++ [prompt_line message].
Proof. unfold prompt_step, prompt_line. now destruct (req_role message). Qed.

Lemma fold_prompt_step (l : list ChatCompletionRequestMessage) (acc : list string) :
  fold_left (prompt_step USER_LABEL_DEFAULT ASSISTANT_LABEL_DEFAULT) l acc
  = acc ++ map prompt_line l.
Proof.
  revert acc. induction l as [|m l IH]; intros acc; simpl.
  - now rewrite app_nil_r.
  - rewrite IH, prompt_step_line, <- app_assoc. reflexivity.
Qed.

Lemma render_prompt_lines (l : list ChatCompletionRequestMessage) :
  render_prompt l = JsString.join (nl +:+ nl) (map prompt_line l).
Proof. unfold render_prompt. now rewrite fold_prompt_step. Qed.

Lemma prompt_line_truthy (message : ChatCompletionRequestMessage) :
  JsString.truthy (prompt_line message) = true.
Proof. unfold prompt_line. now destruct (req_role message). Qed.

(** A sequence with at least one entry never renders to the empty string. *)
Lemma render_prompt_truthy (l : list ChatCompletionRequestMessage) :
  l ≠ [] → JsString.truthy (render_prompt l) = true.
Proof.
  intros Hl. rewrite render_prompt_lines.
  destruct l as [|m l]; [congruence |]. simpl map.
  apply truthy_join_cons, prompt_line_truthy.
Qed.

(** More fuel does not change a result that was reached. *)
Lemma build_loop_fuel_mono (fuel extra : nat) (store : Store) (ceiling : Z) (off : nat)
    (accepted next : list ChatCompletionRequestMessage) (n : Z) (pid : option string)
    (r : list ChatCompletionRequestMessage * Z) :
  build_loop encode fuel store ceiling off accepted next n pid = Some r →
  build_loop encode (fuel + extra) store ceiling off accepted next n pid = Some r.
Proof.
  revert accepted next n pid.
  induction fuel as [|fuel IH]; intros accepted next n pid; simpl; [discriminate |].
  destruct (JsString.truthy (render_prompt next)
            && negb (_getTokenCount encode (render_prompt next) <=? ceiling)); [trivial |].
  destruct (negb (_getTokenCount encode (render_prompt next) <=? ceiling)); [trivial |].
  destruct pid as [pid|]; [| trivial].
  destruct (negb (JsString.truthy pid)); [trivial |].
  destruct (getMessageById store pid) as [parent|]; [| trivial].
  apply IH.
Qed.

(** The first iteration on a non-empty candidate that is over the
    ceiling: the loop ends before it accepts anything. *)
Lemma build_loop_rejects_first (fuel : nat) (store : Store) (ceiling : Z) (off : nat)
    (accepted next : list ChatCompletionRequestMessage) (n : Z) (pid : option string) :
  next ≠ [] →
  ceiling < _getTokenCount encode (render_prompt next) →
  build_loop encode (S fuel) store ceiling off accepted next n pid = Some (accepted, n).
Proof.
  intros Hnext Hover. simpl.
  rewrite (render_prompt_truthy next Hnext).
  assert ((_getTokenCount encode (render_prompt next) <=? ceiling) = false) as ->
    by now apply Z.leb_gt.
  reflexivity.
Qed.

Lemma first_candidate_plain (text : string) (opts : SendMessageOptions)
    (sys : list ChatCompletionRequestMessage) :
  JsString.includes text IMAGE_MARK = false →
  text ≠ "" →
  first_candidate siteDomain text opts sys = Ok (sys ++ [user_entry text opts], "", opts).
Proof.
  intros Hmark Htext. unfold first_candidate. rewrite Hmark.
  apply truthy_spec in Htext. rewrite Htext. reflexivity.
Qed.

(** Whatever the first candidate is, it extends the system entries by at
    most the new user entry. *)
Lemma first_candidate_shape (text : string) (opts written : SendMessageOptions)
    (sys next : list ChatCompletionRequestMessage) (img : string) :
  first_candidate siteDomain text opts sys = Ok (next, img, written) →
  ∃ turn, next = sys ++ turn ∧
          (turn = [] ∧ text = "" ∨ ∃ e, turn = [e] ∧ req_role e = user).
Proof.
  unfold first_candidate.
  destruct (JsString.includes text IMAGE_MARK).
  - destruct (opt_completionParams opts) as [cp|]; simpl; [| discriminate].
    destruct (JsString.match_paren text) as [g|]; simpl; [| discriminate].
    destruct text as [|c text]; simpl; intros [= <- <- <-].
    + exists []. rewrite app_nil_r. auto.
    + eexists [_]. split; [reflexivity |]. right. eauto.
  - destruct text as [|c text]; simpl; intros [= <- <- <-].
    + exists []. rewrite app_nil_r. auto.
    + eexists [_]. split; [reflexivity |]. right. eauto.
Qed.

(** The loop over a chain all of whose candidates fit the ceiling: every
    member is spliced in, and the last candidate is the one accepted. *)
Lemma build_loop_slack (ceiling : Z) (store : Store)
    (sys turn : list ChatCompletionRequestMessage) (chain : list ChatMessage) :
  ∀ (fuel : nat) (id : option string) (spliced accepted : list ChatCompletionRequestMessage)
    (n : Z),
    ancestor_chain store id chain →
    (∀ k, (k ≤ length chain)%nat →
          _getTokenCount encode
            (render_prompt (sys ++ rev (map parent_entry (take k chain)) ++ spliced ++ turn))
          ≤ ceiling) →
    (length chain < fuel)%nat →
    build_loop encode fuel store ceiling (length sys) accepted
      (sys ++ spliced ++ turn) n id
    = Some (sys ++ rev (map parent_entry chain) ++ spliced ++ turn,
            _getTokenCount encode
              (render_prompt (sys ++ rev (map parent_entry chain) ++ spliced ++ turn))).
Proof.
  induction chain as [|parent older IH];
    intros fuel id spliced accepted n Hchain Hfit Hfuel.
  - destruct fuel as [|fuel]; [simpl in Hfuel; lia |].
    pose proof (Hfit 0%nat (Nat.le_0_l _)) as H0. simpl in H0.
    apply Z.leb_le in H0. simpl. rewrite H0. rewrite andb_false_r. simpl.
    inversion Hchain as [| | id' Hnone |]; subst; simpl; try reflexivity.
    destruct (JsString.truthy id'); simpl; [| reflexivity].
    now rewrite Hnone.
  - destruct fuel as [|fuel]; [simpl in Hfuel; lia |].
    pose proof (Hfit 0%nat (Nat.le_0_l _)) as H0. simpl in H0.
    apply Z.leb_le in H0. simpl build_loop. rewrite H0. rewrite andb_false_r. simpl negb.
    cbv iota.
    inversion Hchain as [| | | id' parent' older' Hid Hget Holder]; subst.
    apply truthy_spec in Hid. rewrite Hid. simpl negb. cbv iota. rewrite Hget.
    rewrite take_app_length, drop_app_length.
    specialize (IH fuel (msg_parentMessageId parent) (parent_entry parent :: spliced)
                  (sys ++ spliced ++ turn)
                  (_getTokenCount encode (render_prompt (sys ++ spliced ++ turn))) Holder).
    simpl map. simpl rev. rewrite <- !app_assoc. simpl app.
    simpl app in IH. apply IH.
    + intros k Hk. specialize (Hfit (S k)). simpl in Hfit.
      rewrite <- !app_assoc in Hfit. simpl in Hfit. apply Hfit. lia.
    + simpl in Hfuel. lia.
Qed.

(** What the loop hands back is either what it was given (the first
    candidate was refused) or a candidate together with its own count. *)
Lemma build_loop_result (ceiling : Z) (store : Store) (off : nat) :
  ∀ (fuel : nat) (accepted next : list ChatCompletionRequestMessage) (n : Z)
    (id : option string) (msgs : list ChatCompletionRequestMessage) (k : Z),
    build_loop encode fuel store ceiling off accepted next n id = Some (msgs, k) →
    (msgs = accepted ∧ k = n) ∨ k = _getTokenCount encode (render_prompt msgs).
Proof.
  induction fuel as [|fuel IH]; intros accepted next n id msgs k; simpl; [discriminate |].
  destruct (JsString.truthy (render_prompt next)
            && negb (_getTokenCount encode (render_prompt next) <=? ceiling)).
  { intros [= <- <-]. now left. }
  destruct (negb (_getTokenCount encode (render_prompt next) <=? ceiling)).
  { intros [= <- <-]. now right. }
  destruct id as [id|]; [| intros [= <- <-]; now right].
  destruct (negb (JsString.truthy id)); [intros [= <- <-]; now right |].
  destruct (getMessageById store id) as [parent|]; [| intros [= <- <-]; now right].
  intros Hrec. apply IH in Hrec as [[-> ->] | Hk]; now right.
Qed.

(** The budget is computed from the count the builder reports. *)
Lemma maxTokens_formula (fuel : nat) (self : ChatGPTAPI) (store : Store) (text : string)
    (opts written : SendMessageOptions) (built : BuiltMessages) :
  _buildMessages encode siteDomain fuel self store text opts = Some (Ok (built, written)) →
  maxTokens built
  = Z.max 1 (Z.min (_maxModelTokens self - numTokens built) (_maxResponseTokens self)).
Proof.
  unfold _buildMessages.
  destruct (first_candidate _ _ _ _) as [[[next img] w]|e]; [| discriminate].
  destruct (build_loop _ _ _ _ _ _ _ _ _) as [[msgs k]|]; [| discriminate].
  intros [= <- <-]. reflexivity.
Qed.

(** When the first candidate is within the ceiling, the reported count is
    the count of the returned sequence. *)
Lemma numTokens_of_accepted (fuel : nat) (self : ChatGPTAPI) (store : Store)
    (text : string) (opts written : SendMessageOptions) (built : BuiltMessages)
    (next : list ChatCompletionRequestMessage) (img : string) :
  first_candidate siteDomain text opts
    (system_entries (default (_systemMessage self) (opt_systemMessage opts)))
  = Ok (next, img, written) →
  _getTokenCount encode (render_prompt next)
  ≤ _maxModelTokens self - _maxResponseTokens self →
  _buildMessages encode siteDomain fuel self store text opts = Some (Ok (built, written)) →
  numTokens built = _getTokenCount encode (render_prompt (messages built)).
Proof.
  intros Hfirst Hfit. unfold _buildMessages. rewrite Hfirst.
  destruct fuel as [|fuel]; [discriminate |].
  destruct (build_loop _ _ _ _ _ _ _ _ _) as [[msgs k]|] eqn:Hloop; [| discriminate].
  intros [= <-]. simpl.
  simpl in Hloop. apply Z.leb_le in Hfit. rewrite Hfit, andb_false_r in Hloop.
  simpl in Hloop.
  destruct (opt_parentMessageId opts) as [id|]; [| now inversion Hloop].
  destruct (negb (JsString.truthy id)); [now inversion Hloop |].
  destruct (getMessageById store id) as [parent|]; [| now inversion Hloop].
  apply build_loop_result in Hloop as [[-> ->] | Hk]; [reflexivity | exact Hk].
Qed.

(** With a first candidate that holds the user turn and is over the
    ceiling, the builder hands back the system entries alone and reports
    no tokens. *)
Lemma build_refuses_oversized_first (fuel : nat) (self : ChatGPTAPI) (store : Store)
    (text : string) (opts : SendMessageOptions) :
  JsString.includes text IMAGE_MARK = false →
  text ≠ "" →
  _maxModelTokens self - _maxResponseTokens self
  < _getTokenCount encode
      (render_prompt
         (system_entries (default (_systemMessage self) (opt_systemMessage opts))
            ++ [user_entry text opts])) →
  _buildMessages encode siteDomain (S fuel) self store text opts
  = Some (Ok ({| messages :=
                   system_entries (default (_systemMessage self) (opt_systemMessage opts));
                 maxTokens :=
                   Z.max 1 (Z.min (_maxModelTokens self - 0) (_maxResponseTokens self));
                 numTokens := 0;
                 imgPath := "" |}, opts)).
Proof.
  intros Hmark Htext Hover. unfold _buildMessages.
  rewrite (first_candidate_plain text opts _ Hmark Htext).
  rewrite build_loop_rejects_first; [reflexivity | | exact Hover].
  intros Hnil. now apply app_eq_nil in Hnil as [_ [=]].
Qed.

(** In that case the budget is not the one that the count of the returned
    sequence would give, as soon as that count eats into the allowance. *)
Lemma refused_first_budget_mismatch (fuel : nat) (self : ChatGPTAPI) (store : Store)
    (text : string) (opts written : SendMessageOptions) (built : BuiltMessages) :
  JsString.includes text IMAGE_MARK = false →
  text ≠ "" →
  _maxModelTokens self - _maxResponseTokens self
  < _getTokenCount encode
      (render_prompt
         (system_entries (default (_systemMessage self) (opt_systemMessage opts))
            ++ [user_entry text opts])) →
  1 < _maxResponseTokens self ≤ _maxModelTokens self →
  _maxModelTokens self
  - _getTokenCount encode
      (render_prompt
         (system_entries (default (_systemMessage self) (opt_systemMessage opts))))
  < _maxResponseTokens self →
  _buildMessages encode siteDomain (S fuel) self store text opts
  = Some (Ok (built, written)) →
  maxTokens built
  ≠ Z.max 1 (Z.min (_maxModelTokens self
                    - _getTokenCount encode (render_prompt (messages built)))
                   (_maxResponseTokens self)).
Proof.
  intros Hmark Htext Hover Hlimits Heats.
  rewrite (build_refuses_oversized_first fuel self store text opts Hmark Htext Hover).
  intros [= <- _]. simpl. lia.
Qed.

Lemma system_entries_role (systemMessage : string) (e : ChatCompletionRequestMessage) :
  e ∈ system_entries systemMessage → req_role e = system.
Proof.
  unfold system_entries. destruct (JsString.truthy systemMessage).
  - intros ->%list_elem_of_singleton. reflexivity.
  - intros []%elem_of_nil.
Qed.

End ContextBuilderFacts.

(** ** Claims about the context builder *)

(** C1 (the code departs from the claim).  The claim: with a non-empty
    text, the returned sequence holds the new user entry even when the
    minimal sequence is over the ceiling.  The code: with the default
    limits (ceiling 3000), the system message "Be brief." and a text of
    3500 words, the first candidate is refused before it is accepted, so
    the builder returns the system entry alone, without any user entry,
    and reports 0 tokens. *)
Theorem oversized_first_prompt_omits_user_turn (fuel : nat) :
  ∃ built,
    _buildMessages Sample.byte_encode "https://site" (S fuel) (Sample.api "Be brief.")
      (∅ : gmap string ChatMessage) (Sample.repeat_string 3500 "hello ") Sample.no_opts
    = Some (Ok (built, Sample.no_opts)) ∧
    messages built
    = [ {| req_role := system; req_content := ContentText "Be brief.";
           req_name := None |} ] ∧
    (∀ e, e ∈ messages built → req_role e ≠ user) ∧
    numTokens built = 0.
Proof.
  eexists. split.
  - apply build_refuses_oversized_first.
    + vm_compute. reflexivity.
    + apply truthy_spec. vm_compute. reflexivity.
    + vm_compute. reflexivity.
  - simpl. split; [reflexivity |]. split; [| reflexivity].
    intros e ->%list_elem_of_singleton. discriminate.
Qed.

(** C2, as stated, fails: two outcomes of the builder under the default
    limits use 7 and 8 tokens and get the same budget, 1000; and with
    [maxResponseTokens = 0] the budget is 1, above the allowance. *)
Lemma response_budget_not_strict :
  ∃ b1 b2,
    _buildMessages Sample.byte_encode "https://site" 1 (Sample.api "")
      (∅ : gmap string ChatMessage) "a" Sample.no_opts = Some (Ok (b1, Sample.no_opts)) ∧
    _buildMessages Sample.byte_encode "https://site" 1 (Sample.api "")
      (∅ : gmap string ChatMessage) "ab" Sample.no_opts = Some (Ok (b2, Sample.no_opts)) ∧
    numTokens b1 < numTokens b2 ∧
    ¬ (maxTokens b2 < maxTokens b1) ∧
    ∃ b3,
      _buildMessages Sample.byte_encode "https://site" 1
        {| _apiKey := "sk-test"; _apiBaseUrl := "https://api.openai.com/v1";
           _apiOrg := None; _debug := false; _systemMessage := "";
           _completionParams := no_params;
           _maxModelTokens := 4000; _maxResponseTokens := 0 |}
        (∅ : gmap string ChatMessage) "a" Sample.no_opts = Some (Ok (b3, Sample.no_opts)) ∧
      ¬ (maxTokens b3 ≤ 0).
Proof.
  eexists _, _. split; [vm_compute; reflexivity |].
  split; [vm_compute; reflexivity |].
  split; [vm_compute; reflexivity |].
  split; [vm_compute; intros [=] |].
  eexists. split; [vm_compute; reflexivity |].
  vm_compute. intros Hle. now apply Hle.
Qed.

(** C2, amended.  For two outcomes of the builder under one
    configuration: the budget is at least 1 and at most
    [max 1 maxResponseTokens], and it does not grow when the used tokens
    grow. *)
Theorem response_budget_bounds_and_monotone
    (encode : string → list N) (siteDomain : string)
    {Store : Type} `{MessageStore Store}
    (self : ChatGPTAPI) (fuel1 fuel2 : nat) (store1 store2 : Store)
    (text1 text2 : string) (opts1 opts2 written1 written2 : SendMessageOptions)
    (b1 b2 : BuiltMessages) :
  _buildMessages encode siteDomain fuel1 self store1 text1 opts1 = Some (Ok (b1, written1)) →
  _buildMessages encode siteDomain fuel2 self store2 text2 opts2 = Some (Ok (b2, written2)) →
  1 ≤ maxTokens b1 ∧
  maxTokens b1 ≤ Z.max 1 (_maxResponseTokens self) ∧
  (numTokens b1 ≤ numTokens b2 → maxTokens b2 ≤ maxTokens b1).
Proof.
  intros H1 H2.
  rewrite (maxTokens_formula _ _ _ _ _ _ _ _ _ H1).
  rewrite (maxTokens_formula _ _ _ _ _ _ _ _ _ H2).
  repeat split; lia.
Qed.

Lemma response_budget_bounds_and_monotone_witness :
  ∃ b1 b2 : BuiltMessages,
    (numTokens b1 = 7 ∧ numTokens b2 = 8) ∧
    1 ≤ maxTokens b1 ∧
    maxTokens b1 ≤ Z.max 1 1000 ∧
    (numTokens b1 ≤ numTokens b2 → maxTokens b2 ≤ maxTokens b1).
Proof.
  eexists _, _. split; cycle 1.
  - apply (response_budget_bounds_and_monotone Sample.byte_encode "https://site"
             (Sample.api "") 1 1
             (∅ : gmap string ChatMessage) (∅ : gmap string ChatMessage)
             "a" "ab" Sample.no_opts Sample.no_opts Sample.no_opts Sample.no_opts).
    + vm_compute. reflexivity.
    + vm_compute. reflexivity.
  - vm_compute. split; reflexivity.
Defined.

(** C4.  When the chain of ancestors reachable from [parentMessageId] has
    [N] members and every candidate (the first one and each extension by
    one more ancestor) is within the ceiling, the builder, given more than
    [N] iterations, returns the system entries, then all [N] ancestors from
    the oldest to the newest, then the new user turn: each ancestor once,
    none dropped. *)
Theorem slack_budget_keeps_whole_chain
    (encode : string → list N) (siteDomain : string)
    {Store : Type} `{MessageStore Store}
    (fuel : nat) (self : ChatGPTAPI) (store : Store) (text : string)
    (opts written : SendMessageOptions) (img : string)
    (turn : list ChatCompletionRequestMessage) (chain : list ChatMessage) :
  first_candidate siteDomain text opts
    (system_entries (default (_systemMessage self) (opt_systemMessage opts)))
  = Ok (system_entries (default (_systemMessage self) (opt_systemMessage opts)) ++ turn,
        img, written) →
  ancestor_chain store (opt_parentMessageId opts) chain →
  (∀ k, (k ≤ length chain)%nat →
        _getTokenCount encode
          (render_prompt
             (candidate
                (system_entries (default (_systemMessage self) (opt_systemMessage opts)))
                turn chain k))
        ≤ _maxModelTokens self - _maxResponseTokens self) →
  (length chain < fuel)%nat →
  ∃ built,
    _buildMessages encode siteDomain fuel self store text opts = Some (Ok (built, written)) ∧
    messages built
    = system_entries (default (_systemMessage self) (opt_systemMessage opts))
        ++ rev (map parent_entry chain) ++ turn ∧
    length (messages built)
    = (length (system_entries (default (_systemMessage self) (opt_systemMessage opts)))
       + length chain + length turn)%nat ∧
    numTokens built = _getTokenCount encode (render_prompt (messages built)).
Proof.
  intros Hfirst Hchain Hfit Hfuel.
  set (sys := system_entries (default (_systemMessage self) (opt_systemMessage opts))) in *.
  pose proof (build_loop_slack encode (_maxModelTokens self - _maxResponseTokens self)
                store sys turn chain fuel (opt_parentMessageId opts) [] sys 0 Hchain)
    as Hloop.
  simpl in Hloop. specialize (Hloop Hfit Hfuel).
  unfold _buildMessages. fold sys. rewrite Hfirst, Hloop.
  eexists. split; [reflexivity |]. simpl.
  split; [reflexivity |]. split; [| reflexivity].
  rewrite !length_app, length_rev, length_map. lia.
Qed.

Lemma slack_budget_keeps_whole_chain_witness :
  ∃ built,
    _buildMessages Sample.byte_encode "https://site" 3 (Sample.api "Be brief.")
      Sample.history "And who makes it?" (Sample.with_parent "m2")
    = Some (Ok (built, Sample.with_parent "m2")) ∧
    messages built
    = system_entries "Be brief."
        ++ rev (map parent_entry [Sample.answer; Sample.question])
        ++ [user_entry "And who makes it?" (Sample.with_parent "m2")] ∧
    length (messages built) = (1 + 2 + 1)%nat ∧
    numTokens built = _getTokenCount Sample.byte_encode (render_prompt (messages built)).
Proof.
  apply (slack_budget_keeps_whole_chain Sample.byte_encode "https://site" 3
           (Sample.api "Be brief.") Sample.history "And who makes it?"
           (Sample.with_parent "m2") (Sample.with_parent "m2") ""
           [user_entry "And who makes it?" (Sample.with_parent "m2")]
           [Sample.answer; Sample.question]).
  - reflexivity.
  - apply chain_parent; [discriminate | reflexivity |].
    apply chain_parent; [discriminate | reflexivity |].
    apply chain_no_parent.
  - intros k Hk. apply Z.leb_le.
    destruct k as [|[|[|k]]]; [vm_compute; reflexivity .. |].
    simpl in Hk. lia.
  - simpl. lia.
Defined.

(** C5 (the code departs from the claim; same defect as C1).  The claim:
    the budget is [max 1 (min (maxModelTokens - n) maxResponseTokens)]
    with [n] the token count of the returned sequence.  The code: with
    the default limits, a system message of 3500 words and the text "Hi",
    the first candidate is refused, the builder returns the system entry,
    whose own count is 21014, but reports 0 tokens and a budget of 1000
    where the claim's formula gives 1. *)
Theorem budget_ignores_returned_prompt_when_first_refused (fuel : nat) :
  ∃ built,
    _buildMessages Sample.byte_encode "https://site" (S fuel)
      (Sample.api (Sample.repeat_string 3500 "hello "))
      (∅ : gmap string ChatMessage) "Hi" Sample.no_opts
    = Some (Ok (built, Sample.no_opts)) ∧
    numTokens built = 0 ∧
    _getTokenCount Sample.byte_encode (render_prompt (messages built)) = 21014 ∧
    maxTokens built = 1000 ∧
    Z.max 1 (Z.min (4000 - _getTokenCount Sample.byte_encode (render_prompt (messages built)))
                   1000) = 1.
Proof.
  eexists. split.
  - apply build_refuses_oversized_first.
    + vm_compute. reflexivity.
    + discriminate.
    + vm_compute. reflexivity.
  - cbn [numTokens maxTokens messages]. split; [reflexivity |].
    split; [vm_compute; reflexivity |]. split; [vm_compute; reflexivity |].
    vm_compute. reflexivity.
Qed.

(** ** The completion transport and the request controller *)

Lemma append_nil_r (s : string) : s +:+ "" = s.
Proof.
  induction s as [|a s IH]; [reflexivity |].
  change (String a (s +:+ "") = String a s). now rewrite IH.
Qed.

Lemma append_assoc (s t u : string) : (s +:+ t) +:+ u = s +:+ t +:+ u.
Proof.
  induction s as [|a s IH]; [reflexivity |].
  change (String a ((s +:+ t) +:+ u) = String a (s +:+ t +:+ u)). now rewrite IH.
Qed.

Lemma resolve_settled (value : ChatMessage) (p : Settlement) :
  p ≠ Pending → resolve value p = p.
Proof. now destruct p. Qed.

Lemma reject_settled (err : Error) (p : Settlement) :
  p ≠ Pending → reject err p = p.
Proof. now destruct p. Qed.

(** The handlers assign [id] and [role] only when the response has them:
    the cases of those tests. *)
Ltac split_optional_assignments :=
  repeat match goal with
         | |- context [match ?o with Some _ => _ | None => _ end] => destruct o
         | |- context [if JsString.truthy ?s then _ else _] => destruct (JsString.truthy s)
         end.

Section RequestControllerFacts.

Variable encode : string → list N.
Variable siteDomain : string.
Variable uuidv4 : nat → string.
Variable JSON_parse : string → option CreateChatCompletionDeltaResponse.
Variable _fetch : Request → FetchOutcome.
Variable fetchSSE : Request → SSEOutcome.
Context {Store : Type} `{MessageStore Store}.

(** A frame that carries a fragment appends it and leaves the promise as
    it is. *)
Lemma onMessage_fragment (img : string) (onProgress : bool) (st : StreamState)
    (data fragment : string) :
  carries_fragment JSON_parse data fragment →
  msg_text (st_result (onMessage JSON_parse img onProgress st data))
  = msg_text (st_result st) +:+ fragment ∧
  st_promise (onMessage JSON_parse img onProgress st data) = st_promise st.
Proof.
  intros [Hdata (response & choice & rest & delta & Hparse & Hch & Hdelta & Hcontent & Hstop)].
  unfold onMessage.
  apply String.eqb_neq in Hdata. rewrite Hdata, Hparse, Hch, Hdelta, Hcontent.
  split; [| reflexivity].
  destruct fragment as [|c fragment].
  - simpl truthy_opt. cbv iota.
    rewrite bool_decide_eq_false_2 by now apply Hstop.
    rewrite append_nil_r. split_optional_assignments; reflexivity.
  - simpl truthy_opt. cbv iota. split_optional_assignments; reflexivity.
Qed.

Lemma fold_onMessage_fragments (img : string) (onProgress : bool)
    (datas fragments : list string) :
  Forall2 (carries_fragment JSON_parse) datas fragments →
  ∀ st,
    msg_text (st_result (fold_left (onMessage JSON_parse img onProgress) datas st))
    = msg_text (st_result st) +:+ concat_fragments fragments ∧
    st_promise (fold_left (onMessage JSON_parse img onProgress) datas st) = st_promise st.
Proof.
  induction 1 as [|data fragment datas fragments Hcarry _ IH]; intros st; simpl.
  - now rewrite append_nil_r.
  - destruct (onMessage_fragment img onProgress st data fragment Hcarry) as [Htext Hp].
    destruct (IH (onMessage JSON_parse img onProgress st data)) as [Htext' Hp'].
    rewrite Htext', Hp', Htext, Hp, append_assoc. auto.
Qed.

(** Once the promise is settled, no frame changes it. *)
Lemma onMessage_settled (img : string) (onProgress : bool) (st : StreamState)
    (data : string) :
  st_promise st ≠ Pending →
  st_promise (onMessage JSON_parse img onProgress st data) = st_promise st.
Proof.
  intros Hset. unfold onMessage.
  destruct (String.eqb data "[DONE]"); simpl; [now apply resolve_settled |].
  destruct (JSON_parse data) as [response|]; simpl; [| now apply reject_settled].
  destruct (dr_choices response) as [|choice rest]; simpl; [reflexivity |].
  destruct (dc_delta choice); simpl; [reflexivity | now apply reject_settled].
Qed.

Lemma fold_onMessage_settled (img : string) (onProgress : bool) (datas : list string) :
  ∀ st, st_promise st ≠ Pending →
        st_promise (fold_left (onMessage JSON_parse img onProgress) datas st)
        = st_promise st.
Proof.
  induction datas as [|data datas IH]; intros st Hset; simpl; [reflexivity |].
  rewrite IH; rewrite onMessage_settled; auto.
Qed.

Lemma onMessage_linked (img : string) (onProgress : bool) (p : option string)
    (st : StreamState) (data : string) :
  linked p st → linked p (onMessage JSON_parse img onProgress st data).
Proof.
  intros [Hres Hprom]. unfold onMessage.
  destruct (String.eqb data "[DONE]").
  { split; simpl; [exact Hres |].
    destruct (st_promise st) eqn:Hp; simpl; intros m [= <-]; auto. }
  destruct (JSON_parse data) as [response|]; cycle 1.
  { split; simpl; [exact Hres |].
    destruct (st_promise st) eqn:Hp; simpl; intros m [=]; subst; auto. }
  assert (msg_parentMessageId
            match dr_id response with
            | Some id => if JsString.truthy id then set_id id (st_result st)
                         else st_result st
            | None => st_result st
            end = p) as Hid.
  { destruct (dr_id response) as [id|]; [destruct (JsString.truthy id) |]; exact Hres. }
  destruct (dr_choices response) as [|choice rest]; [split; simpl; auto |].
  destruct (dc_delta choice) as [delta|]; cycle 1.
  { split; simpl; [exact Hid |].
    destruct (st_promise st) eqn:Hp; simpl; intros m [=]; subst; auto. }
  split; [| exact Hprom]. simpl.
  destruct (d_role delta); destruct (truthy_opt (d_content delta));
    try destruct (bool_decide _); exact Hid.
Qed.

Lemma fold_onMessage_linked (img : string) (onProgress : bool) (p : option string)
    (datas : list string) :
  ∀ st, linked p st → linked p (fold_left (onMessage JSON_parse img onProgress) datas st).
Proof.
  induction datas as [|data datas IH]; intros st Hl; simpl; [exact Hl |].
  apply IH, onMessage_linked, Hl.
Qed.

Lemma stream_exchange_linked (request : Request) (img : string) (onProgress : bool)
    (result m : ChatMessage) :
  st_promise (stream_exchange JSON_parse fetchSSE request img onProgress result)
  = Resolved m →
  msg_parentMessageId m = msg_parentMessageId result.
Proof.
  unfold stream_exchange.
  pose proof (fold_onMessage_linked img onProgress (msg_parentMessageId result)
                (sse_frames (fetchSSE request))
                {| st_result := result; st_promise := Pending; st_progress := [] |})
    as [_ Hprom].
  { split; [reflexivity | discriminate]. }
  destruct (sse_error (fetchSSE request)) as [err|]; simpl; [| apply Hprom].
  destruct (st_promise (fold_left _ _ _)) eqn:Hp; simpl; intros [=]; subst.
  now apply Hprom.
Qed.

Lemma buffered_exchange_linked (request : Request) (result m : ChatMessage) :
  buffered_exchange _fetch request result = Resolved m →
  msg_parentMessageId m = msg_parentMessageId result.
Proof.
  unfold buffered_exchange.
  destruct (_fetch request) as [err|res]; [discriminate |].
  destruct (negb (res_ok res)); [discriminate |].
  destruct (res_json res) as [response|]; [| discriminate].
  destruct (cr_choices response) as [|choice rest]; [discriminate |].
  intros [= <-]. split_optional_assignments; reflexivity.
Qed.

Lemma estimate_usage_fields (n : Z) (m : ChatMessage) :
  msg_parentMessageId (estimate_usage encode n m) = msg_parentMessageId m ∧
  msg_text (estimate_usage encode n m) = msg_text m ∧
  msg_role (estimate_usage encode n m) = msg_role m ∧
  msg_id (estimate_usage encode n m) = msg_id m.
Proof.
  unfold estimate_usage.
  destruct (msg_detail m) as [d|]; [destruct (detail_usage d) |]; auto.
Qed.

End RequestControllerFacts.

Section ExchangeFacts.

Variable encode : string → list N.
Variable siteDomain : string.
Variable uuidv4 : nat → string.
Variable JSON_parse : string → option CreateChatCompletionDeltaResponse.
Variable _fetch : Request → FetchOutcome.
Variable fetchSSE : Request → SSEOutcome.
Context {Store : Type} `{MessageStore Store}.

(** Fragments, then the sentinel: the promise is pending until the
    sentinel, which resolves it with the trimmed concatenation; a late
    rejection by [fetchSSE] does not unsettle it. *)
Lemma stream_exchange_sentinel (request : Request) (img : string) (onProgress : bool)
    (result : ChatMessage) (datas fragments : list string) :
  sse_frames (fetchSSE request) = datas ++ ["[DONE]"] →
  Forall2 (carries_fragment JSON_parse) datas fragments →
  ∃ m,
    st_promise (stream_exchange JSON_parse fetchSSE request img onProgress result)
    = Resolved m ∧
    msg_text m = JsString.trim (msg_text result +:+ concat_fragments fragments).
Proof.
  intros Hframes Hcarry. unfold stream_exchange. rewrite Hframes, fold_left_app.
  set (init := {| st_result := result; st_promise := Pending; st_progress := [] |}).
  destruct (fold_onMessage_fragments JSON_parse img onProgress datas fragments Hcarry init)
    as [Htext Hpending].
  set (st := fold_left (onMessage JSON_parse img onProgress) datas init) in *.
  simpl fold_left.
  assert (st_promise (onMessage JSON_parse img onProgress st "[DONE]")
          = Resolved (set_text (JsString.trim (msg_text (st_result st))) (st_result st)))
    as Hdone.
  { unfold onMessage. rewrite String.eqb_refl. simpl. now rewrite Hpending. }
  exists (set_text (JsString.trim (msg_text (st_result st))) (st_result st)).
  split; [| simpl; now rewrite Htext].
  destruct (sse_error (fetchSSE request)); cbn [st_promise]; rewrite Hdone; reflexivity.
Qed.

(** C6.  In streaming mode, when the frames handed to [onMessage] are
    fragments followed by the sentinel, the promise is still pending after
    the last fragment and the sentinel resolves it: [sendMessage] resolves
    with a message whose text is the concatenation of the fragments in
    their order of arrival, trimmed.  A rejection of [fetchSSE] after the
    sentinel does not settle the promise again. *)
Theorem stream_text_is_trimmed_concatenation
    (fuel : nat) (self : ChatGPTAPI) (store : Store) (text : string)
    (opts written : SendMessageOptions) (built : BuiltMessages)
    (datas fragments : list string) :
  _buildMessages encode siteDomain fuel self store text opts = Some (Ok (built, written)) →
  default (opt_onProgress opts) (opt_stream opts) = true →
  sse_frames
    (fetchSSE (make_request self written built true
                 (opt_abortSignal opts || creates_abortController opts)))
  = datas ++ ["[DONE]"] →
  Forall2 (carries_fragment JSON_parse) datas fragments →
  st_promise
    (fold_left (onMessage JSON_parse (imgPath built) (opt_onProgress opts)) datas
       {| st_result := placeholder uuidv4 opts; st_promise := Pending; st_progress := [] |})
  = Pending ∧
  ∃ ex message,
    sendMessage encode siteDomain uuidv4 JSON_parse _fetch fetchSSE fuel self store text opts
    = Some ex ∧
    ex_outcome ex = Resolved message ∧
    msg_text message = JsString.trim (concat_fragments fragments).
Proof.
  intros Hbuild Hstream Hframes Hcarry. split.
  { now destruct (fold_onMessage_fragments JSON_parse (imgPath built) (opt_onProgress opts)
                    datas fragments Hcarry
                    {| st_result := placeholder uuidv4 opts; st_promise := Pending;
                       st_progress := [] |}) as [_ ->]. }
  destruct (stream_exchange_sentinel _ (imgPath built) (opt_onProgress opts)
              (placeholder uuidv4 opts) datas fragments Hframes Hcarry)
    as (m & Hm & Htext).
  unfold sendMessage. rewrite Hbuild, Hstream, Hm.
  eexists _, _. split; [reflexivity |]. split; [reflexivity |].
  destruct (estimate_usage_fields encode (numTokens built) m) as (_ & -> & _).
  exact Htext.
Qed.

(** C7.  In buffered mode: a response that is not ok rejects with a
    [ChatGPTError] that has the response's status code and status text and
    whose message ends with the body text; an ok response without choices
    rejects with a plain error; an ok response with a choice resolves with
    the text of the first choice's message and with its role (the
    placeholder's role, assistant, stays when the message has none). *)
Theorem buffered_outcomes
    (fuel : nat) (self : ChatGPTAPI) (store : Store) (text : string)
    (opts written : SendMessageOptions) (built : BuiltMessages) (res : Response) :
  _buildMessages encode siteDomain fuel self store text opts = Some (Ok (built, written)) →
  default (opt_onProgress opts) (opt_stream opts) = false →
  _fetch (make_request self written built false
            (opt_abortSignal opts || creates_abortController opts))
  = FetchResponse res →
  ∃ ex,
    sendMessage encode siteDomain uuidv4 JSON_parse _fetch fetchSSE fuel self store text opts
    = Some ex ∧
    (res_ok res = false →
     ex_outcome ex
     = Rejected (ChatGPTError
                   ("OpenAI error "
                      +:+ (if negb (res_status res =? 0)%N then pretty (res_status res)
                           else res_statusText res)
                      +:+ ": " +:+ res_text res)
                   (res_status res) (res_statusText res))) ∧
    (∀ response,
       res_ok res = true → res_json res = Some response → cr_choices response = [] →
       ex_outcome ex
       = Rejected (JsError ("OpenAI error: " +:+ error_detail_text response))) ∧
    (∀ response choice rest,
       res_ok res = true → res_json res = Some response →
       cr_choices response = choice :: rest →
       ∃ message,
         ex_outcome ex = Resolved message ∧
         msg_text message = rm_content (ch_message choice) ∧
         msg_role message = Some (default assistant (rm_role (ch_message choice)))).
Proof.
  intros Hbuild Hstream Hfetch. unfold sendMessage. rewrite Hbuild, Hstream.
  cbv iota. unfold st_promise at 1. unfold buffered_exchange at 1. rewrite Hfetch.
  destruct (res_ok res) eqn:Hok; simpl negb; cbv iota.
  - destruct (res_json res) as [response|] eqn:Hjson.
    + destruct (cr_choices response) as [|choice rest] eqn:Hch.
      * eexists. split; [reflexivity |]. split; [discriminate |].
        split.
        -- intros response' _ [= <-] _. reflexivity.
        -- intros response' choice' rest' _ [= <-]. rewrite Hch. discriminate.
      * eexists. split; [reflexivity |]. split; [discriminate |].
        split.
        -- intros response' _ [= <-]. rewrite Hch. discriminate.
        -- intros response' choice' rest' _ [= <-]. rewrite Hch. intros [= <- <-].
           eexists. split; [reflexivity |].
           match goal with
           | |- context [estimate_usage encode ?n ?m] =>
               destruct (estimate_usage_fields encode n m) as (_ & -> & -> & _)
           end.
           split_optional_assignments; split; reflexivity.
    + eexists. split; [reflexivity |]. split; [discriminate |].
      split; [intros ? _ [=] | intros ? ? ? _ [=]].
  - eexists. split; [reflexivity |].
    split; [intros _; reflexivity |].
    split; [intros ? [=] | intros ? ? ? [=]].
Qed.

(** Over a store whose writes succeed, a run that resolves has handed the
    user message and the resolved message to [_upsertMessage], in that
    order. *)
Lemma resolved_run_writes_pair
    (fuel : nat) (self : ChatGPTAPI) (store : Store) (text : string)
    (opts : SendMessageOptions) (ex : Exchange Store) (message : ChatMessage) :
  sendMessage encode siteDomain uuidv4 JSON_parse _fetch fetchSSE fuel self store text opts
  = Some ex →
  ex_outcome ex = Resolved message →
  ex_upserts ex = [user_message uuidv4 text opts; message] ∧
  ex_store ex
  = upsertMessage message (upsertMessage (user_message uuidv4 text opts) store).
Proof.
  unfold sendMessage.
  destruct (_buildMessages _ _ _ _ _ _ _) as [[[built written]|err]|]; [| | discriminate].
  - match goal with
    | |- context [st_promise ?st] => destruct (st_promise st) as [|m|err] eqn:Hp
    end; intros [= <-]; simpl; intros [= <-]. auto.
  - intros [= <-]; simpl; discriminate.
Qed.

(** A frame that is neither the sentinel nor decodable rejects a pending
    promise. *)
Lemma undecodable_frame_rejects (img : string) (onProgress : bool) (st : StreamState)
    (data : string) :
  data ≠ "[DONE]" → JSON_parse data = None → st_promise st = Pending →
  st_promise (onMessage JSON_parse img onProgress st data) = Rejected (Thrown "JSON.parse").
Proof.
  intros Hdata Hparse Hp. unfold onMessage.
  apply String.eqb_neq in Hdata. rewrite Hdata, Hparse. simpl. now rewrite Hp.
Qed.

(** C9.  The placeholder of a call is an assistant message with an empty
    text whose [parentMessageId] is the id of the call's user message,
    which is the caller's [messageId] or else a fresh identifier; neither
    response mode changes that field, so the assistant message that a
    resolved call has written points to the user message written with it. *)
Theorem assistant_points_to_user_message
    (fuel : nat) (self : ChatGPTAPI) (store : Store) (text : string)
    (opts : SendMessageOptions) (ex : Exchange Store) (message : ChatMessage) :
  sendMessage encode siteDomain uuidv4 JSON_parse _fetch fetchSSE fuel self store text opts
  = Some ex →
  ex_outcome ex = Resolved message →
  msg_role (placeholder uuidv4 opts) = Some assistant ∧
  msg_text (placeholder uuidv4 opts) = "" ∧
  msg_parentMessageId (placeholder uuidv4 opts)
  = Some (msg_id (user_message uuidv4 text opts)) ∧
  msg_id (user_message uuidv4 text opts) = default (uuidv4 0%nat) (opt_messageId opts) ∧
  msg_parentMessageId message = Some (msg_id (user_message uuidv4 text opts)) ∧
  ex_upserts ex = [user_message uuidv4 text opts; message].
Proof.
  intros Hsend Hres.
  do 4 (split; [reflexivity |]).
  destruct (resolved_run_writes_pair _ _ _ _ _ _ _ Hsend Hres) as [Hups _].
  split; [| exact Hups].
  revert Hsend Hres. unfold sendMessage.
  destruct (_buildMessages _ _ _ _ _ _ _) as [[[built written]|err]|]; [| | discriminate].
  - match goal with
    | |- context [st_promise ?st] => destruct (st_promise st) as [|m|err] eqn:Hp
    end; intros [= <-]; simpl; intros [= <-].
    destruct (estimate_usage_fields encode (numTokens built) m) as (-> & _).
    destruct (default (opt_onProgress opts) (opt_stream opts)).
    + now apply stream_exchange_linked in Hp.
    + now apply buffered_exchange_linked in Hp.
  - intros [= <-]; simpl; discriminate.
Qed.

(** C10.  A text that holds the image mark makes the call fail with a
    [TypeError] raised while the context is built, whatever the fuel, when
    the options carry no [completionParams], and also when the text has no
    parenthesised segment for the expression to match; no request is
    handed to the transport and nothing is written. *)
Theorem image_mark_throws_before_transport
    (fuel : nat) (self : ChatGPTAPI) (store : Store) (text : string)
    (opts : SendMessageOptions) :
  JsString.includes text IMAGE_MARK = true →
  opt_completionParams opts = None ∨ JsString.match_paren text = None →
  ∃ what,
    _buildMessages encode siteDomain fuel self store text opts
    = Some (Throw (TypeError what)) ∧
    sendMessage encode siteDomain uuidv4 JSON_parse _fetch fetchSSE fuel self store text opts
    = Some {| ex_outcome := Rejected (TypeError what); ex_store := store;
              ex_requests := []; ex_progress := []; ex_upserts := [] |}.
Proof.
  intros Hmark Hmissing.
  assert (∃ what,
            first_candidate siteDomain text opts
              (system_entries (default (_systemMessage self) (opt_systemMessage opts)))
            = Throw (TypeError what)) as [what Hthrow].
  { unfold first_candidate. rewrite Hmark.
    destruct (opt_completionParams opts) as [cp|] eqn:Hcp; simpl.
    - destruct Hmissing as [[=] | ->]. simpl. eauto.
    - eauto. }
  exists what. unfold sendMessage, _buildMessages. rewrite Hthrow. auto.
Qed.

End ExchangeFacts.

(** ** The call with failing writes and the timeout *)

Section WholeCallFacts.

Variable encode : string → list N.
Variable siteDomain : string.
Variable uuidv4 : nat → string.
Variable JSON_parse : string → option CreateChatCompletionDeltaResponse.
Variable _fetch : Request → FetchOutcome.
Variable fetchSSE : Request → SSEOutcome.
Variable elapsed_first : bool.
Context {Store : Type} `{MessageStore Store}.
Variable _upsertMessage : ChatMessage → Store → Store * option Error.

(** [pTimeout] never turns a promise that is not resolved into a resolved
    one. *)
Lemma pTimeout_resolved (responseP : Settlement) (text : string) (message : ChatMessage) :
  pTimeout elapsed_first responseP text = Resolved message →
  responseP = Resolved message.
Proof.
  unfold pTimeout. destruct responseP; [discriminate | |];
    destruct elapsed_first; (discriminate || trivial).
Qed.

(** [pTimeout] leaves a rejected promise rejected. *)
Lemma pTimeout_rejected (responseP : Settlement) (text : string) (err : Error) :
  responseP = Rejected err →
  ∃ e, pTimeout elapsed_first responseP text = Rejected e.
Proof. intros ->. unfold pTimeout. destruct elapsed_first; eauto. Qed.

(** What the two writes leave. *)
Lemma upsert_pair_writes (latestQuestion message : ChatMessage) (store : Store) :
  upsert_pair _upsertMessage latestQuestion message store
  = ((_upsertMessage message (_upsertMessage latestQuestion store).1).1,
     [(latestQuestion, (_upsertMessage latestQuestion store).2);
      (message, (_upsertMessage message (_upsertMessage latestQuestion store).1).2)]).
Proof.
  unfold upsert_pair. destruct (_upsertMessage latestQuestion store) as [store1 first].
  cbn [fst snd]. now destruct (_upsertMessage message store1).
Qed.

(** The call, once the builder has returned: what it does is decided by
    the settlement of the transport branch. *)
Lemma sendMessage_call_built
    (fuel : nat) (self : ChatGPTAPI) (store : Store) (text : string)
    (opts written : SendMessageOptions) (built : BuiltMessages) (c : Call Store) :
  _buildMessages encode siteDomain fuel self store text opts = Some (Ok (built, written)) →
  sendMessage_call encode siteDomain uuidv4 JSON_parse _fetch fetchSSE elapsed_first
    _upsertMessage fuel self store text opts = Some c →
  ∃ settled responseP,
    call_exchange c = Some settled ∧
    call_outcome c
    = (if truthyN (opt_timeoutMs opts)
       then pTimeout elapsed_first responseP "OpenAI timed out waiting for response"
       else responseP) ∧
    match settled with
    | Resolved m =>
        let latestQuestion := user_message uuidv4 text opts in
        let message := estimate_usage encode (numTokens built) m in
        let first := _upsertMessage latestQuestion store in
        let second := _upsertMessage message first.1 in
        call_writes c = [(latestQuestion, first.2); (message, second.2)] ∧
        call_store c = second.1 ∧
        responseP = match first_rejection (call_writes c) with
                    | Some err => Rejected err
                    | None => Resolved message
                    end
    | _ => call_writes c = [] ∧ call_store c = store ∧ responseP = settled
    end.
Proof.
  intros Hbuild. unfold sendMessage_call. rewrite Hbuild. cbv zeta.
  match goal with
  | |- context [st_promise ?st] => destruct (st_promise st) as [|m|err] eqn:Hp
  end.
  - intros [= <-]. exists Pending, Pending. cbn. auto.
  - rewrite upsert_pair_writes. intros [= <-]. eexists (Resolved m), _. cbn.
    split; [reflexivity |]. split; [reflexivity |]. auto.
  - intros [= <-]. exists (Rejected err), (Rejected err). cbn. auto.
Qed.

(** With writes that succeed, and without a timer that decides, the call
    is the exchange of [sendMessage]. *)
Lemma sendMessage_call_agrees
    (fuel : nat) (self : ChatGPTAPI) (store : Store) (text : string)
    (opts : SendMessageOptions) (ex : Exchange Store) :
  (∀ message store, _upsertMessage message store = (upsertMessage message store, None)) →
  truthyN (opt_timeoutMs opts) = false
  ∨ (elapsed_first = false ∧ ex_outcome ex ≠ Pending) →
  sendMessage encode siteDomain uuidv4 JSON_parse _fetch fetchSSE fuel self store text opts
  = Some ex →
  ∃ c,
    sendMessage_call encode siteDomain uuidv4 JSON_parse _fetch fetchSSE elapsed_first
      _upsertMessage fuel self store text opts = Some c ∧
    call_outcome c = ex_outcome ex ∧
    call_store c = ex_store ex ∧
    call_requests c = ex_requests ex ∧
    call_progress c = ex_progress ex ∧
    map fst (call_writes c) = ex_upserts ex.
Proof.
  intros Hwrites Htimer. unfold sendMessage, sendMessage_call.
  destruct (_buildMessages _ _ _ _ _ _ _) as [[[built written]|err]|]; [| | discriminate].
  - cbv zeta.
    match goal with
    | |- context [st_promise ?st] => destruct (st_promise st) as [|m|err] eqn:Hp
    end.
    + intros [= <-]. cbn in Htimer. eexists. split; [reflexivity |]. cbn.
      destruct Htimer as [-> | [_ []]]; auto.
    + rewrite upsert_pair_writes, !Hwrites. intros [= <-]. cbn in Htimer.
      eexists. split; [reflexivity |]. cbn.
      destruct Htimer as [-> | [-> _]]; [auto |].
      destruct (truthyN _); auto.
    + intros [= <-]. cbn in Htimer. eexists. split; [reflexivity |]. cbn.
      destruct Htimer as [-> | [-> _]]; [auto |].
      destruct (truthyN _); auto.
  - intros [= <-]. eexists. split; [reflexivity |]. cbn. auto.
Qed.

(** C3.  The user message and the final assistant message are handed to
    [_upsertMessage], in that order, exactly when the exchange succeeds,
    that is, when the transport branch resolves; when it fails (a rejected
    transport call, a response that is not ok or has no choices, a frame
    that cannot be decoded) nothing is written, the store is left as it
    was found and the call does not resolve.  A call that resolves does so
    after both writes were made and had succeeded, and a write that is
    rejected rejects the call. *)
Theorem writes_follow_the_exchange
    (fuel : nat) (self : ChatGPTAPI) (store : Store) (text : string)
    (opts : SendMessageOptions) (c : Call Store) :
  sendMessage_call encode siteDomain uuidv4 JSON_parse _fetch fetchSSE elapsed_first
    _upsertMessage fuel self store text opts = Some c →
  ((∃ m, call_exchange c = Some (Resolved m)) ↔
   ∃ message, map fst (call_writes c) = [user_message uuidv4 text opts; message]) ∧
  ((∀ m, call_exchange c ≠ Some (Resolved m)) →
   call_writes c = [] ∧ call_store c = store ∧
   ∀ message, call_outcome c ≠ Resolved message) ∧
  (∀ message,
     call_outcome c = Resolved message →
     call_writes c = [(user_message uuidv4 text opts, None); (message, None)] ∧
     call_store c
     = (_upsertMessage message
          (_upsertMessage (user_message uuidv4 text opts) store).1).1) ∧
  (∀ written err,
     (written, Some err) ∈ call_writes c → ∃ e, call_outcome c = Rejected e).
Proof.
  intros Hcall.
  destruct (_buildMessages encode siteDomain fuel self store text opts)
    as [[[built written]|err]|] eqn:Hbuild.
  - destruct (sendMessage_call_built fuel self store text opts written built c Hbuild Hcall)
      as (settled & responseP & Hex & Hout & Hthen).
    assert (∀ message, call_outcome c = Resolved message → responseP = Resolved message)
      as Hresolved.
    { intros message. rewrite Hout.
      destruct (truthyN _); [apply pTimeout_resolved | trivial]. }
    assert (∀ err, responseP = Rejected err → ∃ e, call_outcome c = Rejected e)
      as Hrejected.
    { intros err Hrej. rewrite Hout.
      destruct (truthyN _); [now apply (pTimeout_rejected _ _ err) | eauto]. }
    destruct settled as [|m|err]; cbv zeta in Hthen.
    + destruct Hthen as (Hwrites & Hstore & ->).
      split; [| split; [| split]].
      * rewrite Hex, Hwrites. split; [intros [m [=]] | intros [message [=]]].
      * intros _. split; [exact Hwrites |]. split; [exact Hstore |].
        intros message Hres. now apply Hresolved in Hres.
      * intros message Hres. now apply Hresolved in Hres.
      * intros w err. rewrite Hwrites. intros []%elem_of_nil.
    + destruct Hthen as (Hwrites & Hstore & HP).
      split; [| split; [| split]].
      * rewrite Hex, Hwrites. split; intros _; eauto.
      * intros Hno. now destruct (Hno m).
      * intros message Hres. apply Hresolved in Hres. rewrite HP, Hwrites in Hres.
        rewrite Hwrites, Hstore. unfold first_rejection in Hres. cbn in Hres.
        destruct (_upsertMessage (user_message uuidv4 text opts) store) as [store1 [e1|]];
          cbn in Hres |- *; [discriminate |].
        destruct (_upsertMessage (estimate_usage encode (numTokens built) m) store1)
          as [store2 [e2|]] eqn:Hsecond; cbn in Hres |- *; [discriminate |].
        injection Hres as <-. rewrite Hsecond. auto.
      * intros w err Hin. rewrite Hwrites in Hin.
        assert (∃ e, first_rejection (call_writes c) = Some e) as [e He].
        { rewrite Hwrites. unfold first_rejection. cbn.
          apply elem_of_cons in Hin as [[= _ <-] | Hin]; [cbn; eauto |].
          apply list_elem_of_singleton in Hin as [= _ <-].
          destruct (_upsertMessage (user_message uuidv4 text opts) store).2; cbn; eauto. }
        rewrite He in HP. exact (Hrejected _ HP).
    + destruct Hthen as (Hwrites & Hstore & ->).
      split; [| split; [| split]].
      * rewrite Hex, Hwrites. split; [intros [m [=]] | intros [message [=]]].
      * intros _. split; [exact Hwrites |]. split; [exact Hstore |].
        intros message Hres. now apply Hresolved in Hres.
      * intros message Hres. now apply Hresolved in Hres.
      * intros w e. rewrite Hwrites. intros []%elem_of_nil.
  - revert Hcall. unfold sendMessage_call. rewrite Hbuild. intros [= <-]. cbn.
    split; [| split; [| split]].
    + split; [intros [m [=]] | intros [message [=]]].
    + intros _. auto.
    + discriminate.
    + intros w e []%elem_of_nil.
  - revert Hcall. unfold sendMessage_call. rewrite Hbuild. discriminate.
Qed.

End WholeCallFacts.

(** ** The theorems at concrete exchanges *)

Lemma sample_frames_carry_fragments :
  Forall2 (carries_fragment Sample.parse) ["{Hel}"; "{lo}"] ["Hel"; "lo"].
Proof.
  repeat constructor; try discriminate;
    eexists _, _, _, _; (repeat split; try reflexivity); discriminate.
Qed.

Lemma stream_text_is_trimmed_concatenation_witness :
  (st_promise
     (fold_left (onMessage Sample.parse "" true) ["{Hel}"; "{lo}"]
        {| st_result := placeholder Sample.uuid Sample.streaming;
           st_promise := Pending; st_progress := [] |})
   = Pending ∧
   ∃ ex message,
     sendMessage Sample.byte_encode "https://site" Sample.uuid Sample.parse
       Sample.fetch_ok Sample.sse 1 (Sample.api "Be brief.")
       (∅ : gmap string ChatMessage) "Say hello" Sample.streaming
     = Some ex ∧
     ex_outcome ex = Resolved message ∧
     msg_text message = JsString.trim (concat_fragments ["Hel"; "lo"])) ∧
  JsString.trim (concat_fragments ["Hel"; "lo"]) = "Hello".
Proof.
  split; [| vm_compute; reflexivity].
  apply (stream_text_is_trimmed_concatenation Sample.byte_encode "https://site"
           Sample.uuid Sample.parse Sample.fetch_ok Sample.sse 1 (Sample.api "Be brief.")
           (∅ : gmap string ChatMessage) "Say hello" Sample.streaming Sample.streaming
           {| messages := system_entries "Be brief."
                            ++ [user_entry "Say hello" Sample.streaming];
              maxTokens := 1000; numTokens := 40; imgPath := "" |}
           ["{Hel}"; "{lo}"] ["Hel"; "lo"]).
  - vm_compute. reflexivity.
  - reflexivity.
  - reflexivity.
  - exact sample_frames_carry_fragments.
Defined.

Lemma buffered_outcomes_witness :
  ∃ ex,
    sendMessage Sample.byte_encode "https://site" Sample.uuid Sample.parse
      Sample.fetch_429 Sample.sse 1 (Sample.api "Be brief.")
      (∅ : gmap string ChatMessage) "Say hello" Sample.no_opts
    = Some ex ∧
    (false = false →
     ex_outcome ex
     = Rejected (ChatGPTError ("OpenAI error " +:+ pretty 429%N +:+ ": " +:+ "rate limited")
                   429 "Too Many Requests")) ∧
    (∀ response,
       false = true → None = Some response → cr_choices response = [] →
       ex_outcome ex
       = Rejected (JsError ("OpenAI error: " +:+ error_detail_text response))) ∧
    (∀ response choice rest,
       false = true → None = Some response →
       cr_choices response = choice :: rest →
       ∃ message,
         ex_outcome ex = Resolved message ∧
         msg_text message = rm_content (ch_message choice) ∧
         msg_role message = Some (default assistant (rm_role (ch_message choice)))).
Proof.
  apply (buffered_outcomes Sample.byte_encode "https://site" Sample.uuid Sample.parse
           Sample.fetch_429 Sample.sse 1 (Sample.api "Be brief.")
           (∅ : gmap string ChatMessage) "Say hello" Sample.no_opts Sample.no_opts
           {| messages := system_entries "Be brief."
                            ++ [user_entry "Say hello" Sample.no_opts];
              maxTokens := 1000; numTokens := 40; imgPath := "" |}
           {| res_ok := false; res_status := 429; res_statusText := "Too Many Requests";
              res_text := "rate limited"; res_json := None |}).
  - vm_compute. reflexivity.
  - reflexivity.
  - reflexivity.
Defined.

(** The three buffered outcomes, evaluated. *)
Example buffered_429 :
  ex_outcome <$>
    sendMessage Sample.byte_encode "https://site" Sample.uuid Sample.parse
      Sample.fetch_429 Sample.sse 1 (Sample.api "Be brief.")
      (∅ : gmap string ChatMessage) "Say hello" Sample.no_opts
  = Some (Rejected (ChatGPTError "OpenAI error 429: rate limited" 429 "Too Many Requests")).
Proof. vm_compute. reflexivity. Qed.

Example buffered_no_choice :
  ex_outcome <$>
    sendMessage Sample.byte_encode "https://site" Sample.uuid Sample.parse
      Sample.fetch_empty Sample.sse 1 (Sample.api "Be brief.")
      (∅ : gmap string ChatMessage) "Say hello" Sample.no_opts
  = Some (Rejected (JsError "OpenAI error: bad request")).
Proof. vm_compute. reflexivity. Qed.

Example buffered_first_choice :
  (λ ex, match ex_outcome ex with
         | Resolved m => Some (msg_text m, msg_role m, msg_parentMessageId m)
         | _ => None
         end) <$>
    sendMessage Sample.byte_encode "https://site" Sample.uuid Sample.parse
      Sample.fetch_ok Sample.sse 1 (Sample.api "Be brief.")
      (∅ : gmap string ChatMessage) "Say hello" Sample.no_opts
  = Some (Some ("Hello", Some assistant, Some "uuid-0")).
Proof. vm_compute. reflexivity. Qed.

Lemma writes_follow_the_exchange_witness :
  ∃ c,
    sendMessage_call Sample.byte_encode "https://site" Sample.uuid Sample.parse
      Sample.fetch_ok Sample.sse false Sample.upsert_ok 1 (Sample.api "Be brief.")
      (∅ : gmap string ChatMessage) "Say hello" Sample.no_opts
    = Some c ∧
    ((∃ m, call_exchange c = Some (Resolved m)) ↔
     ∃ message,
       map fst (call_writes c)
       = [user_message Sample.uuid "Say hello" Sample.no_opts; message]) ∧
    ((∀ m, call_exchange c ≠ Some (Resolved m)) →
     call_writes c = [] ∧ call_store c = ∅ ∧
     ∀ message, call_outcome c ≠ Resolved message) ∧
    (∀ message,
       call_outcome c = Resolved message →
       call_writes c
       = [(user_message Sample.uuid "Say hello" Sample.no_opts, None); (message, None)] ∧
       call_store c
       = (Sample.upsert_ok message
            (Sample.upsert_ok
               (user_message Sample.uuid "Say hello" Sample.no_opts) ∅).1).1) ∧
    (∀ written err,
       (written, Some err) ∈ call_writes c → ∃ e, call_outcome c = Rejected e).
Proof.
  eexists. split; [reflexivity |].
  apply (writes_follow_the_exchange Sample.byte_encode "https://site" Sample.uuid
           Sample.parse Sample.fetch_ok Sample.sse false Sample.upsert_ok 1
           (Sample.api "Be brief.") (∅ : gmap string ChatMessage) "Say hello"
           Sample.no_opts).
  reflexivity.
Defined.

(** C3, as stated, fails: the pair is not atomic, and a call that fails
    can leave messages in the store.  When the write of the assistant
    message is rejected, the call is rejected although the exchange
    succeeded, and the store keeps the user message without the answer.
    When a timeout elapses first on a call that runs under the caller's own
    signal, the call is rejected with the timeout error and the exchange,
    which nothing stops, writes both messages. *)
Lemma failed_call_leaves_messages_in_the_store :
  (∃ c m,
     sendMessage_call Sample.byte_encode "https://site" Sample.uuid Sample.parse
       Sample.fetch_ok Sample.sse false (Sample.upsert_refusing assistant) 1
       (Sample.api "Be brief.") (∅ : gmap string ChatMessage) "Say hello" Sample.no_opts
     = Some c ∧
     call_exchange c = Some (Resolved m) ∧
     call_outcome c = Rejected (Thrown "store write failed") ∧
     call_store c !! "uuid-0"
     = Some (user_message Sample.uuid "Say hello" Sample.no_opts) ∧
     call_store c !! msg_id m = None) ∧
  (∃ c m,
     sendMessage_call Sample.byte_encode "https://site" Sample.uuid Sample.parse
       Sample.fetch_ok Sample.sse true Sample.upsert_ok 1
       (Sample.api "Be brief.") (∅ : gmap string ChatMessage) "Say hello"
       Sample.timed_opts
     = Some c ∧
     call_exchange c = Some (Resolved m) ∧
     call_outcome c = Rejected (TimeoutError "OpenAI timed out waiting for response") ∧
     call_store c !! "uuid-0"
     = Some (user_message Sample.uuid "Say hello" Sample.timed_opts) ∧
     is_Some (call_store c !! msg_id m)).
Proof.
  split.
  - eexists _, _. split; [reflexivity |]. split; [reflexivity |].
    split; [reflexivity |]. split; vm_compute; reflexivity.
  - eexists _, _. split; [reflexivity |]. split; [reflexivity |].
    split; [reflexivity |]. split; [vm_compute; reflexivity |].
    vm_compute. eauto.
Qed.

Lemma assistant_points_to_user_message_witness :
  ∃ ex message,
    sendMessage Sample.byte_encode "https://site" Sample.uuid Sample.parse
      Sample.fetch_ok Sample.sse 1 (Sample.api "Be brief.")
      (∅ : gmap string ChatMessage) "Say hello" Sample.streaming
    = Some ex ∧
    ex_outcome ex = Resolved message ∧
    msg_role (placeholder Sample.uuid Sample.streaming) = Some assistant ∧
    msg_text (placeholder Sample.uuid Sample.streaming) = "" ∧
    msg_parentMessageId (placeholder Sample.uuid Sample.streaming)
    = Some (msg_id (user_message Sample.uuid "Say hello" Sample.streaming)) ∧
    msg_id (user_message Sample.uuid "Say hello" Sample.streaming)
    = default (Sample.uuid 0%nat) (Some "q-1") ∧
    msg_parentMessageId message
    = Some (msg_id (user_message Sample.uuid "Say hello" Sample.streaming)) ∧
    ex_upserts ex = [user_message Sample.uuid "Say hello" Sample.streaming; message].
Proof.
  eexists _, _. split; [reflexivity |]. split; [reflexivity |].
  apply (assistant_points_to_user_message Sample.byte_encode "https://site" Sample.uuid
           Sample.parse Sample.fetch_ok Sample.sse 1 (Sample.api "Be brief.")
           (∅ : gmap string ChatMessage) "Say hello" Sample.streaming);
    reflexivity.
Defined.

Lemma image_mark_throws_before_transport_witness :
  ∃ what,
    _buildMessages Sample.byte_encode "https://site" 1 (Sample.api "Be brief.")
      (∅ : gmap string ChatMessage)
      ("What is this? " +:+ IMAGE_MARK +:+ "(/sysfiles/1.png)") Sample.no_opts
    = Some (Throw (TypeError what)) ∧
    sendMessage Sample.byte_encode "https://site" Sample.uuid Sample.parse
      Sample.fetch_ok Sample.sse 1 (Sample.api "Be brief.")
      (∅ : gmap string ChatMessage)
      ("What is this? " +:+ IMAGE_MARK +:+ "(/sysfiles/1.png)") Sample.no_opts
    = Some {| ex_outcome := Rejected (TypeError what); ex_store := ∅;
              ex_requests := []; ex_progress := []; ex_upserts := [] |}.
Proof.
  apply (image_mark_throws_before_transport Sample.byte_encode "https://site" Sample.uuid
           Sample.parse Sample.fetch_ok Sample.sse 1 (Sample.api "Be brief.")
           (∅ : gmap string ChatMessage)
           ("What is this? " +:+ IMAGE_MARK +:+ "(/sysfiles/1.png)") Sample.no_opts).
  - vm_compute. reflexivity.
  - left. reflexivity.
Defined.

(** The mark with [completionParams] but without a parenthesised segment. *)
Example image_mark_without_url :
  ex_outcome <$>
    sendMessage Sample.byte_encode "https://site" Sample.uuid Sample.parse
      Sample.fetch_ok Sample.sse 1 (Sample.api "Be brief.")
      (∅ : gmap string ChatMessage)
      ("What is this? " +:+ IMAGE_MARK)
      (set_completionParams no_params Sample.no_opts)
  = Some (Rejected (TypeError "text.match(regex)")).
Proof. vm_compute. reflexivity. Qed.

(** The mark with both: the user entry has two parts, the model is the
    vision model, the relative path is resolved against the site. *)
Example image_question :
  (λ r, match r with
        | Ok (built, written) =>
            Some (messages built, imgPath built,
                  opt_completionParams written ≫= cp_model)
        | Throw _ => None
        end) <$>
    _buildMessages Sample.byte_encode "https://site" 1 (Sample.api "")
      (∅ : gmap string ChatMessage)
      ("What is this? " +:+ IMAGE_MARK +:+ "(/sysfiles/1.png)")
      (set_completionParams no_params Sample.no_opts)
  = Some (Some ([ {| req_role := user;
                     req_content :=
                       ContentParts [TextPart "What is this? ";
                                     ImageUrlPart "https://site/sysfiles/1.png"];
                     req_name := None |} ],
                IMAGE_MARK +:+ "(/sysfiles/1.png)",
                Some VISION_MODEL)).
Proof. vm_compute. reflexivity. Qed.

(** The client of the examples is what the constructor makes of an API
    key and a system message. *)
Example sample_api_is_constructed :
  constructor "2024-02-23"
    {| o_apiKey := "sk-test"; o_apiOrg := None; o_apiBaseUrl := None; o_debug := None;
       o_completionParams := None; o_systemMessage := Some "Be brief.";
       o_maxModelTokens := None; o_maxResponseTokens := None; o_fetch := FetchFunction |}
  = Ok (Sample.api "Be brief.").
Proof. reflexivity. Qed.

Example constructor_needs_key :
  constructor "2024-02-23"
    {| o_apiKey := ""; o_apiOrg := None; o_apiBaseUrl := None; o_debug := None;
       o_completionParams := None; o_systemMessage := None;
       o_maxModelTokens := None; o_maxResponseTokens := None; o_fetch := FetchFunction |}
  = Throw (JsError "OpenAI missing required apiKey").
Proof. reflexivity. Qed.

(** The request that goes out when the first candidate is refused: the
    system entry alone, with the whole allowance as [max_tokens]. *)
Example oversized_request :
  (λ ex, map (λ rq, (body_messages (rq_body rq), cp_max_tokens (body_params (rq_body rq))))
             (ex_requests ex)) <$>
    sendMessage Sample.byte_encode "https://site" Sample.uuid Sample.parse
      Sample.fetch_ok Sample.sse 1 (Sample.api "Be brief.")
      (∅ : gmap string ChatMessage) (Sample.repeat_string 3500 "hello ") Sample.no_opts
  = Some [([ {| req_role := system; req_content := ContentText "Be brief.";
                req_name := None |} ], Some 1000)].
Proof. vm_compute. reflexivity. Qed.

(** The examples of the string primitives. *)
Example trim_example :
  JsString.trim (" " +:+ JsString.bytes [194; 160]%nat +:+ "Hello world" +:+ nl +:+ " ")
  = "Hello world".
Proof. vm_compute. reflexivity. Qed.

Example match_paren_example :
  JsString.match_paren ("see (a" +:+ nl +:+ "b) and (/sysfiles/1.png) (x)")
  = Some "/sysfiles/1.png".
Proof. vm_compute. reflexivity. Qed.

Example remove_all_example :
  JsString.remove_all "<|endoftext|>" "a<|endoftext|><|endoftext|>b<|endoftext"
  = "ab<|endoftext".
Proof. vm_compute. reflexivity. Qed.

(** ** The abort signal of a call with a timeout *)

(** With a timeout and no signal from the caller, the call makes its own
    controller and attaches its signal to the request. *)
Lemma timeout_without_signal_attaches_own (self : ChatGPTAPI) (opts : SendMessageOptions)
    (built : BuiltMessages) (stream : bool) :
  truthyN (opt_timeoutMs opts) = true →
  opt_abortSignal opts = false →
  creates_abortController opts = true ∧
  rq_signal (make_request self opts built stream
               (opt_abortSignal opts || creates_abortController opts)) = true.
Proof.
  intros Htimeout Hsignal. unfold creates_abortController.
  rewrite Htimeout, Hsignal. split; reflexivity.
Qed.

(** Without a timeout, or with a signal of the caller, no controller is made. *)
Lemma no_controller_otherwise (opts : SendMessageOptions) :
  truthyN (opt_timeoutMs opts) = false ∨ opt_abortSignal opts = true →
  creates_abortController opts = false.
Proof.
  unfold creates_abortController. intros [-> | ->]; [reflexivity |].
  apply andb_false_r.
Qed.

(** * Further properties of the context builder *)

Section ContextBuilderMore.

Variable encode : string → list N.
Variable siteDomain : string.
Context {Store : Type} `{MessageStore Store}.

Lemma ancestor_chain_path (store : Store) (id : option string) (chain : list ChatMessage) :
  ancestor_chain store id chain → ∀ k, ancestor_path store id (take k chain).
Proof.
  induction 1 as [| | id Hnone | id parent older Hid Hget _ IH]; intros k;
    try (rewrite take_nil; constructor).
  destruct k as [|k]; simpl; [constructor |].
  now apply path_step.
Qed.

(** The loop over a path whose last member is one too many: the members
    before it are spliced in, and its candidate is refused. *)
Lemma build_loop_cutoff (ceiling : Z) (store : Store)
    (sys turn : list ChatCompletionRequestMessage) (dropped : ChatMessage)
    (kept : list ChatMessage) :
  ∀ (fuel : nat) (id : option string) (spliced accepted : list ChatCompletionRequestMessage)
    (n : Z),
    ancestor_path store id (kept ++ [dropped]) →
    (∀ k, (k ≤ length kept)%nat →
          _getTokenCount encode
            (render_prompt (sys ++ rev (map parent_entry (take k kept)) ++ spliced ++ turn))
          ≤ ceiling) →
    ceiling
    < _getTokenCount encode
        (render_prompt
           (sys ++ parent_entry dropped :: rev (map parent_entry kept) ++ spliced ++ turn)) →
    (S (length kept) < fuel)%nat →
    build_loop encode fuel store ceiling (length sys) accepted
      (sys ++ spliced ++ turn) n id
    = Some (sys ++ rev (map parent_entry kept) ++ spliced ++ turn,
            _getTokenCount encode
              (render_prompt (sys ++ rev (map parent_entry kept) ++ spliced ++ turn))).
Proof.
  induction kept as [|parent older IH];
    intros fuel id spliced accepted n Hpath Hfit Hover Hfuel;
    (destruct fuel as [|fuel]; [simpl in Hfuel; lia |]);
    pose proof (Hfit 0%nat (Nat.le_0_l _)) as H0; simpl in H0;
    apply Z.leb_le in H0; simpl build_loop; rewrite H0, andb_false_r; simpl negb;
    cbv iota;
    inversion Hpath as [| id' parent' older' Hid Hget Holder]; subst;
    apply truthy_spec in Hid; rewrite Hid; simpl negb; cbv iota; rewrite Hget;
    rewrite take_app_length, drop_app_length.
  - destruct fuel as [|fuel]; [simpl in Hfuel; lia |].
    simpl in Hover. cbn [map rev app].
    rewrite build_loop_rejects_first; [reflexivity | | exact Hover].
    intros Hnil. apply app_eq_nil in Hnil as [_ [=]].
  - specialize (IH fuel (msg_parentMessageId parent) (parent_entry parent :: spliced)
                  (sys ++ spliced ++ turn)
                  (_getTokenCount encode (render_prompt (sys ++ spliced ++ turn))) Holder).
    simpl map. simpl rev. rewrite <- !app_assoc. simpl app.
    simpl app in IH. apply IH.
    + intros k Hk. specialize (Hfit (S k)). simpl in Hfit.
      rewrite <- !app_assoc in Hfit. simpl in Hfit. apply Hfit. lia.
    + simpl in Hover. rewrite <- !app_assoc in Hover. exact Hover.
    + simpl in Hfuel. lia.
Qed.

(** With a non-empty candidate, what the loop hands back is what it was
    given or a sequence whose count is within the ceiling. *)
Lemma build_loop_within (ceiling : Z) (store : Store) (off : nat) :
  ∀ (fuel : nat) (accepted next : list ChatCompletionRequestMessage) (n : Z)
    (id : option string) (msgs : list ChatCompletionRequestMessage) (k : Z),
    next ≠ [] →
    build_loop encode fuel store ceiling off accepted next n id = Some (msgs, k) →
    (msgs = accepted ∧ k = n) ∨ k ≤ ceiling.
Proof.
  induction fuel as [|fuel IH]; intros accepted next n id msgs k Hnext; simpl;
    [discriminate |].
  rewrite (render_prompt_truthy next Hnext). simpl andb.
  destruct (_getTokenCount encode (render_prompt next) <=? ceiling) eqn:Hvalid; simpl.
  2: { intros [= <- <-]. now left. }
  apply Z.leb_le in Hvalid.
  destruct id as [id|]; [| intros [= <- <-]; now right].
  destruct (negb (JsString.truthy id)); [intros [= <- <-]; now right |].
  destruct (getMessageById store id) as [parent|]; [| intros [= <- <-]; now right].
  intros Hrec. apply IH in Hrec as [[-> ->] | Hk]; [now right | now right |].
  intros Hnil. now apply app_eq_nil in Hnil as [_ [=]].
Qed.

(** The loop over a finite chain returns within one iteration more than
    the chain has members, whatever the ceiling. *)
Lemma build_loop_finite (ceiling : Z) (store : Store)
    (sys turn : list ChatCompletionRequestMessage) (chain : list ChatMessage) :
  ∀ (fuel : nat) (id : option string) (spliced accepted : list ChatCompletionRequestMessage)
    (n : Z),
    ancestor_chain store id chain →
    (length chain < fuel)%nat →
    ∃ msgs k,
      build_loop encode fuel store ceiling (length sys) accepted
        (sys ++ spliced ++ turn) n id = Some (msgs, k) ∧
      (msgs = accepted ∨
       ∃ j, (j ≤ length chain)%nat ∧
            msgs = sys ++ rev (map parent_entry (take j chain)) ++ spliced ++ turn).
Proof.
  induction chain as [|parent older IH]; intros fuel id spliced accepted n Hchain Hfuel;
    (destruct fuel as [|fuel]; [simpl in Hfuel; lia |]); simpl build_loop.
  - destruct (JsString.truthy _ && negb _); [eauto |].
    assert (∃ j, (j ≤ 0)%nat ∧
                 sys ++ spliced ++ turn
                 = sys ++ rev (map parent_entry (take j [])) ++ spliced ++ turn)
      as Hzero by (exists 0%nat; split; [lia | reflexivity]).
    destruct (negb _); [eauto |].
    inversion Hchain as [| | id' Hnone |]; subst; eauto.
    destruct (negb (JsString.truthy id')); [eauto |]. rewrite Hnone. eauto.
  - destruct (JsString.truthy _ && negb _); [eauto |].
    assert (∃ j, (j ≤ length (parent :: older))%nat ∧
                 sys ++ spliced ++ turn
                 = sys ++ rev (map parent_entry (take j (parent :: older)))
                     ++ spliced ++ turn)
      as Hzero by (exists 0%nat; split; [lia | reflexivity]).
    destruct (negb _); [eauto |].
    inversion Hchain as [| | | id' parent' older' Hid Hget Holder]; subst.
    apply truthy_spec in Hid. rewrite Hid. simpl negb. cbv iota. rewrite Hget.
    rewrite take_app_length, drop_app_length.
    destruct (IH fuel (msg_parentMessageId parent) (parent_entry parent :: spliced)
                (sys ++ spliced ++ turn)
                (_getTokenCount encode (render_prompt (sys ++ spliced ++ turn))) Holder)
      as (msgs & k & Hloop & Hshape); [simpl in Hfuel; lia |].
    simpl app in Hloop. exists msgs, k. split; [exact Hloop |].
    destruct Hshape as [-> | (j & Hj & ->)]; [right; exact Hzero |].
    right. exists (S j). split; [simpl; lia |].
    simpl. rewrite <- !app_assoc. reflexivity.
Qed.

(** When every entry costs at least one token, the loop returns within
    [ceiling + 2] iterations at most, on any store. *)
Lemma build_loop_bounded (ceiling : Z) (store : Store) (off : nat) :
  (∀ l, Z.of_nat (length l) ≤ _getTokenCount encode (render_prompt l)) →
  ∀ (fuel : nat) (accepted next : list ChatCompletionRequestMessage) (n : Z)
    (id : option string),
    (Z.to_nat (ceiling + 1 - Z.of_nat (length next)) < fuel)%nat →
    ∃ r, build_loop encode fuel store ceiling off accepted next n id = Some r.
Proof.
  intros Hcost. induction fuel as [|fuel IH]; intros accepted next n id Hfuel;
    [lia |]. simpl.
  destruct (JsString.truthy _ && negb _); [eauto |].
  destruct (_getTokenCount encode (render_prompt next) <=? ceiling) eqn:Hvalid; simpl;
    [| eauto].
  apply Z.leb_le in Hvalid. pose proof (Hcost next) as Hlen.
  destruct id as [id|]; [| eauto].
  destruct (negb (JsString.truthy id)); [eauto |].
  destruct (getMessageById store id) as [parent|]; [| eauto].
  apply IH. rewrite length_app. simpl length.
  pose proof (take_drop off next) as Htd.
  apply (f_equal length) in Htd. rewrite length_app in Htd. lia.
Qed.

End ContextBuilderMore.

Section ContextBuilderTheorems.

Variable encode : string → list N.
Variable siteDomain : string.
Context {Store : Type} `{MessageStore Store}.

(** X1.  Tight cut-off.  When the first candidate and its extensions by
    the members of [kept], newest first, are within the ceiling and the
    extension by the next ancestor [dropped] is over it, the builder
    returns the system entries, the members of [kept] from the oldest to
    the newest, and the user turn: [dropped] and everything older is left
    out, and the count it reports is that of the returned sequence and is
    within the ceiling. *)
Theorem cutoff_keeps_newest_ancestors
    (fuel : nat) (self : ChatGPTAPI) (store : Store) (text : string)
    (opts written : SendMessageOptions) (img : string)
    (turn : list ChatCompletionRequestMessage) (kept : list ChatMessage)
    (dropped : ChatMessage) :
  first_candidate siteDomain text opts
    (system_entries (default (_systemMessage self) (opt_systemMessage opts)))
  = Ok (system_entries (default (_systemMessage self) (opt_systemMessage opts)) ++ turn,
        img, written) →
  ancestor_path store (opt_parentMessageId opts) (kept ++ [dropped]) →
  (∀ k, (k ≤ length kept)%nat →
        _getTokenCount encode
          (render_prompt
             (candidate
                (system_entries (default (_systemMessage self) (opt_systemMessage opts)))
                turn kept k))
        ≤ _maxModelTokens self - _maxResponseTokens self) →
  _maxModelTokens self - _maxResponseTokens self
  < _getTokenCount encode
      (render_prompt
         (candidate
            (system_entries (default (_systemMessage self) (opt_systemMessage opts)))
            turn (kept ++ [dropped]) (S (length kept)))) →
  (S (length kept) < fuel)%nat →
  ∃ built,
    _buildMessages encode siteDomain fuel self store text opts = Some (Ok (built, written)) ∧
    messages built
    = system_entries (default (_systemMessage self) (opt_systemMessage opts))
        ++ rev (map parent_entry kept) ++ turn ∧
    numTokens built = _getTokenCount encode (render_prompt (messages built)) ∧
    numTokens built ≤ _maxModelTokens self - _maxResponseTokens self.
Proof.
  intros Hfirst Hpath Hfit Hover Hfuel.
  set (sys := system_entries (default (_systemMessage self) (opt_systemMessage opts))) in *.
  pose proof (build_loop_cutoff encode (_maxModelTokens self - _maxResponseTokens self)
                store sys turn dropped kept fuel (opt_parentMessageId opts) [] sys 0 Hpath)
    as Hloop.
  simpl in Hloop. specialize (Hloop Hfit).
  unfold candidate in Hover.
  rewrite take_ge in Hover by (rewrite length_app; simpl; lia).
  rewrite map_app, rev_app_distr in Hover. simpl in Hover.
  specialize (Hloop Hover Hfuel).
  unfold _buildMessages. fold sys. rewrite Hfirst, Hloop.
  eexists. split; [reflexivity |]. simpl.
  split; [reflexivity |]. split; [reflexivity |].
  specialize (Hfit (length kept) (Nat.le_refl _)). unfold candidate in Hfit.
  now rewrite firstn_all in Hfit.
Qed.

(** X2.  When the first candidate is within the ceiling, the count the
    builder reports is within the ceiling too, and the budget it returns is
    [max 1 maxResponseTokens]: the subtraction never bites. *)
Theorem accepted_prompt_within_ceiling
    (fuel : nat) (self : ChatGPTAPI) (store : Store) (text : string)
    (opts written : SendMessageOptions) (built : BuiltMessages)
    (next : list ChatCompletionRequestMessage) (img : string) :
  first_candidate siteDomain text opts
    (system_entries (default (_systemMessage self) (opt_systemMessage opts)))
  = Ok (next, img, written) →
  _getTokenCount encode (render_prompt next)
  ≤ _maxModelTokens self - _maxResponseTokens self →
  _buildMessages encode siteDomain fuel self store text opts = Some (Ok (built, written)) →
  numTokens built ≤ _maxModelTokens self - _maxResponseTokens self ∧
  maxTokens built = Z.max 1 (_maxResponseTokens self).
Proof.
  intros Hfirst Hfit Hbuild.
  assert (numTokens built ≤ _maxModelTokens self - _maxResponseTokens self) as Hle.
  { revert Hbuild. unfold _buildMessages. rewrite Hfirst.
    destruct fuel as [|fuel]; [discriminate |].
    destruct (build_loop _ _ _ _ _ _ _ _ _) as [[msgs k]|] eqn:Hloop; [| discriminate].
    intros [= <-]. simpl.
    simpl in Hloop. pose proof Hfit as Hvalid. apply Z.leb_le in Hvalid.
    rewrite Hvalid, andb_false_r in Hloop. simpl in Hloop.
    destruct (opt_parentMessageId opts) as [id|]; [| now inversion Hloop; subst].
    destruct (negb (JsString.truthy id)); [now inversion Hloop; subst |].
    destruct (getMessageById store id) as [parent|]; [| now inversion Hloop; subst].
    apply build_loop_within in Hloop as [[_ ->] | Hk]; [exact Hfit | exact Hk |].
    intros Hnil. now apply app_eq_nil in Hnil as [_ [=]]. }
  split; [exact Hle |].
  rewrite (maxTokens_formula _ _ _ _ _ _ _ _ _ Hbuild). lia.
Qed.

(** X3.  On a finite chain of [N] ancestors the builder returns within
    [N + 1] iterations, whatever the tokenizer and the limits, and what it
    returns is the system entries alone or the system entries, the [j]
    newest ancestors from the oldest to the newest, and the user turn, for
    some [j <= N]. *)
Theorem finite_chain_terminates
    (fuel : nat) (self : ChatGPTAPI) (store : Store) (text : string)
    (opts written : SendMessageOptions) (img : string)
    (turn : list ChatCompletionRequestMessage) (chain : list ChatMessage) :
  first_candidate siteDomain text opts
    (system_entries (default (_systemMessage self) (opt_systemMessage opts)))
  = Ok (system_entries (default (_systemMessage self) (opt_systemMessage opts)) ++ turn,
        img, written) →
  ancestor_chain store (opt_parentMessageId opts) chain →
  (length chain < fuel)%nat →
  ∃ built,
    _buildMessages encode siteDomain fuel self store text opts = Some (Ok (built, written)) ∧
    (messages built
     = system_entries (default (_systemMessage self) (opt_systemMessage opts)) ∨
     ∃ j, (j ≤ length chain)%nat ∧
          messages built
          = candidate
              (system_entries (default (_systemMessage self) (opt_systemMessage opts)))
              turn chain j).
Proof.
  intros Hfirst Hchain Hfuel.
  set (sys := system_entries (default (_systemMessage self) (opt_systemMessage opts))) in *.
  destruct (build_loop_finite encode (_maxModelTokens self - _maxResponseTokens self)
              store sys turn chain fuel (opt_parentMessageId opts) [] sys 0 Hchain Hfuel)
    as (msgs & k & Hloop & Hshape).
  simpl in Hloop. unfold _buildMessages. fold sys. rewrite Hfirst, Hloop.
  eexists. split; [reflexivity |]. simpl. exact Hshape.
Qed.

(** X4.  When the tokenizer charges at least one token for every entry
    of a prompt, the builder returns within [ceiling + 2] iterations on
    every store, also on one whose parent links form a cycle: the growing
    prompt runs into the ceiling. *)
Theorem builder_returns_on_any_store
    (fuel : nat) (self : ChatGPTAPI) (store : Store) (text : string)
    (opts : SendMessageOptions) :
  (∀ l, Z.of_nat (length l) ≤ _getTokenCount encode (render_prompt l)) →
  (Z.to_nat (_maxModelTokens self - _maxResponseTokens self + 1) < fuel)%nat →
  ∃ r, _buildMessages encode siteDomain fuel self store text opts = Some r.
Proof.
  intros Hcost Hfuel. unfold _buildMessages.
  destruct (first_candidate _ _ _ _) as [[[next img] written]|err]; [| eauto].
  destruct (build_loop_bounded encode (_maxModelTokens self - _maxResponseTokens self)
              store
              (length (system_entries
                         (default (_systemMessage self) (opt_systemMessage opts))))
              Hcost fuel
              (system_entries (default (_systemMessage self) (opt_systemMessage opts)))
              next 0 (opt_parentMessageId opts)) as [[msgs k] ->]; [lia | eauto].
Qed.

End ContextBuilderTheorems.

(** ** Counting characters *)

Lemma count_char_app (c : ascii) (a b : string) :
  count_char c (a +:+ b) = (count_char c a + count_char c b)%nat.
Proof.
  induction a as [|x a IH]; [reflexivity |].
  change (count_char c (String x (a +:+ b))
          = (count_char c (String x a) + count_char c b)%nat).
  simpl. destruct (Ascii.eqb x c); rewrite IH; reflexivity.
Qed.

Lemma count_char_le_length (c : ascii) (s : string) :
  (count_char c s ≤ String.length s)%nat.
Proof. induction s as [|x s IH]; simpl; [lia |]. destruct (Ascii.eqb x c); lia. Qed.

Lemma has_char_count (c : ascii) (s : string) :
  has_char c s = false → count_char c s = 0%nat.
Proof.
  induction s as [|x s IH]; simpl; [reflexivity |].
  destruct (Ascii.eqb x c); [discriminate | exact IH].
Qed.

Lemma prefix_cons_inv (a x : ascii) (p s : string) :
  String.prefix (String a p) (String x s) = true → a = x ∧ String.prefix p s = true.
Proof. simpl. destruct (ascii_dec a x); [auto | discriminate]. Qed.

(** Deleting the occurrences of a pattern leaves alone the characters
    that the pattern does not have. *)
Lemma remove_all_from_count (c : ascii) (p : string) :
  p ≠ "" → has_char c p = false →
  ∀ (s q : string),
    String.prefix q s = true → has_char c q = false →
    count_char c (JsString.remove_all_from (String.length q) p s) = count_char c s.
Proof.
  intros Hp Hc. induction s as [|x s IH]; intros q Hq Hcq; [reflexivity |].
  destruct q as [|a q].
  - cbn [String.length JsString.remove_all_from].
    destruct (String.prefix p (String x s)) eqn:Hpre.
    + destruct p as [|a p]; [congruence |].
      apply prefix_cons_inv in Hpre as [-> Hpre].
      simpl in Hc. destruct (Ascii.eqb x c) eqn:Hx; [discriminate |].
      cbn [String.length Nat.pred count_char]. rewrite Hx. now apply IH.
    + assert (count_char c (JsString.remove_all_from 0 p s) = count_char c s) as IH0.
      { apply (IH ""); [now destruct s | reflexivity]. }
      cbn [count_char]. now rewrite IH0.
  - apply prefix_cons_inv in Hq as [-> Hq].
    simpl in Hcq. destruct (Ascii.eqb x c) eqn:Hx; [discriminate |].
    cbn [String.length JsString.remove_all_from count_char]. rewrite Hx. now apply IH.
Qed.

Lemma remove_all_count (c : ascii) (p s : string) :
  p ≠ "" → has_char c p = false →
  count_char c (JsString.remove_all p s) = count_char c s.
Proof.
  intros Hp Hc. apply (remove_all_from_count c p Hp Hc s ""); [| reflexivity].
  now destruct s.
Qed.

Lemma prompt_line_has_newline (message : ChatCompletionRequestMessage) :
  (1 ≤ count_char "010" (prompt_line message))%nat.
Proof.
  unfold prompt_line.
  destruct (req_role message); rewrite !count_char_app;
    change (count_char "010" nl) with 1%nat; lia.
Qed.

(** A rendered prompt has a line feed for each of its entries. *)
Lemma render_prompt_newlines (l : list ChatCompletionRequestMessage) :
  (length l ≤ count_char "010" (render_prompt l))%nat.
Proof.
  rewrite render_prompt_lines.
  induction l as [|m l IH]; [simpl; lia |].
  pose proof (prompt_line_has_newline m) as Hm.
  destruct l as [|m' l]; [simpl; lia |].
  change (JsString.join (nl +:+ nl) (map prompt_line (m :: m' :: l)))
    with (prompt_line m +:+ (nl +:+ nl)
            +:+ JsString.join (nl +:+ nl) (map prompt_line (m' :: l))).
  rewrite !count_char_app. simpl length in *. lia.
Qed.

Lemma length_list_ascii (s : string) :
  length (String.list_ascii_of_string s) = String.length s.
Proof. induction s as [|x s IH]; simpl; [reflexivity | now rewrite IH]. Qed.

(** The byte tokenizer charges at least one token for every entry. *)
Lemma byte_encode_cost (l : list ChatCompletionRequestMessage) :
  Z.of_nat (length l) ≤ _getTokenCount Sample.byte_encode (render_prompt l).
Proof.
  unfold _getTokenCount, Sample.byte_encode.
  rewrite length_map, length_list_ascii.
  pose proof (render_prompt_newlines l) as Hl.
  pose proof (remove_all_count "010" "<|endoftext|>" (render_prompt l)) as Hrm.
  rewrite <- Hrm in Hl by (discriminate || reflexivity).
  pose proof (count_char_le_length "010"
                (JsString.remove_all "<|endoftext|>" (render_prompt l))) as Hle.
  lia.
Qed.

(** ** The further properties of the builder at concrete inputs *)

Lemma cutoff_keeps_newest_ancestors_witness :
  ∃ built,
    _buildMessages Sample.byte_encode "https://site" 3
      (Sample.api_with_ceiling "Be brief." 80)
      Sample.history "And who makes it?" (Sample.with_parent "m2")
    = Some (Ok (built, Sample.with_parent "m2")) ∧
    messages built
    = system_entries "Be brief."
        ++ rev (map parent_entry [Sample.answer])
        ++ [user_entry "And who makes it?" (Sample.with_parent "m2")] ∧
    numTokens built = _getTokenCount Sample.byte_encode (render_prompt (messages built)) ∧
    numTokens built ≤ 80 + 1000 - 1000.
Proof.
  apply (cutoff_keeps_newest_ancestors Sample.byte_encode "https://site" 3
           (Sample.api_with_ceiling "Be brief." 80) Sample.history "And who makes it?"
           (Sample.with_parent "m2") (Sample.with_parent "m2") ""
           [user_entry "And who makes it?" (Sample.with_parent "m2")]
           [Sample.answer] Sample.question).
  - reflexivity.
  - apply path_step; [discriminate | reflexivity |].
    apply path_step; [discriminate | reflexivity |].
    apply path_stop.
  - intros k Hk. apply Z.leb_le.
    destruct k as [|[|k]]; [vm_compute; reflexivity .. |].
    simpl in Hk. lia.
  - vm_compute. reflexivity.
  - simpl. lia.
Defined.

Lemma accepted_prompt_within_ceiling_witness :
  40 ≤ 4000 - 1000 ∧ 1000 = Z.max 1 1000.
Proof.
  apply (accepted_prompt_within_ceiling Sample.byte_encode "https://site" 1
           (Sample.api "Be brief.") (∅ : gmap string ChatMessage) "Say hello"
           Sample.no_opts Sample.no_opts
           {| messages := system_entries "Be brief."
                            ++ [user_entry "Say hello" Sample.no_opts];
              maxTokens := 1000; numTokens := 40; imgPath := "" |}
           (system_entries "Be brief." ++ [user_entry "Say hello" Sample.no_opts]) "").
  - reflexivity.
  - vm_compute. discriminate.
  - vm_compute. reflexivity.
Defined.

Lemma finite_chain_terminates_witness :
  ∃ built,
    _buildMessages Sample.byte_encode "https://site" 3
      (Sample.api_with_ceiling "Be brief." 80)
      Sample.history "And who makes it?" (Sample.with_parent "m2")
    = Some (Ok (built, Sample.with_parent "m2")) ∧
    (messages built = system_entries "Be brief." ∨
     ∃ j, (j ≤ 2)%nat ∧
          messages built
          = candidate (system_entries "Be brief.")
              [user_entry "And who makes it?" (Sample.with_parent "m2")]
              [Sample.answer; Sample.question] j).
Proof.
  apply (finite_chain_terminates Sample.byte_encode "https://site" 3
           (Sample.api_with_ceiling "Be brief." 80) Sample.history "And who makes it?"
           (Sample.with_parent "m2") (Sample.with_parent "m2") ""
           [user_entry "And who makes it?" (Sample.with_parent "m2")]
           [Sample.answer; Sample.question]).
  - reflexivity.
  - apply chain_parent; [discriminate | reflexivity |].
    apply chain_parent; [discriminate | reflexivity |].
    apply chain_no_parent.
  - simpl. lia.
Defined.

Lemma builder_returns_on_any_store_witness :
  ∃ r,
    _buildMessages Sample.byte_encode "https://site" 102
      (Sample.api_with_ceiling "Be brief." 100)
      Sample.knotted "Once more" (Sample.with_parent "k")
    = Some r.
Proof.
  apply (builder_returns_on_any_store Sample.byte_encode "https://site" 102
           (Sample.api_with_ceiling "Be brief." 100) Sample.knotted "Once more"
           (Sample.with_parent "k")).
  - exact byte_encode_cost.
  - vm_compute. lia.
Defined.

(** On the knotted store the same message is spliced in again and again,
    until the next copy would pass the ceiling. *)
Example knot_is_repeated :
  messages <$>
    (_buildMessages Sample.byte_encode "https://site" 102
       (Sample.api_with_ceiling "Be brief." 100)
       Sample.knotted "Once more" (Sample.with_parent "k")
     ≫= λ r, match r with Ok (built, _) => Some built | Throw _ => None end)
  = Some (system_entries "Be brief."
            ++ replicate 3 (parent_entry Sample.knot)
            ++ [user_entry "Once more" (Sample.with_parent "k")]).
Proof. vm_compute. reflexivity. Qed.

(** * The image branch *)

Lemma prefix_app (p b : string) : String.prefix p (p +:+ b) = true.
Proof.
  induction p as [|a p IH]; [now destruct b |].
  change (String.prefix (String a p) (String a (p +:+ b)) = true).
  simpl. destruct (ascii_dec a a); [exact IH | congruence].
Qed.

Lemma includes_unfold (s p : string) :
  JsString.includes s p
  = if String.prefix p s then true
    else match s with
         | EmptyString => false
         | String _ r => JsString.includes r p
         end.
Proof. now destruct s. Qed.

Lemma includes_app_r (a b p : string) :
  JsString.includes b p = true → JsString.includes (a +:+ b) p = true.
Proof.
  intros Hb. induction a as [|x a IH]; [exact Hb |].
  change (JsString.includes (String x (a +:+ b)) p = true).
  rewrite includes_unfold. destruct (String.prefix p _); [reflexivity | exact IH].
Qed.

Lemma includes_here (p b : string) : JsString.includes (p +:+ b) p = true.
Proof. rewrite includes_unfold. now rewrite prefix_app. Qed.

Lemma prefix_other_head (a x : ascii) (p s : string) :
  Ascii.eqb x a = false → String.prefix (String a p) (String x s) = false.
Proof.
  intros Hx. simpl. destruct (ascii_dec a x) as [-> |]; [| reflexivity].
  now rewrite Ascii.eqb_refl in Hx.
Qed.

(** The text before the first occurrence of a pattern whose first
    character does not occur in that text. *)
Lemma split_head_app (c : ascii) (p a b : string) :
  has_char c a = false →
  JsString.split_head (a +:+ String c p +:+ b) (String c p) = a.
Proof.
  intros Ha. induction a as [|x a IH].
  - change (JsString.split_head (String c p +:+ b) (String c p) = "").
    destruct (String c p +:+ b) eqn:Heq; [discriminate |].
    unfold JsString.split_head. rewrite <- Heq, prefix_app. reflexivity.
  - simpl in Ha. destruct (Ascii.eqb x c) eqn:Hx; [discriminate |].
    change (JsString.split_head (String x (a +:+ String c p +:+ b)) (String c p)
            = String x a).
    cbn [JsString.split_head]. rewrite (prefix_other_head c x p _ Hx).
    now rewrite IH.
Qed.

Lemma prefix_empty (s : string) : String.prefix "" s = true.
Proof. now destruct s. Qed.

(** Whether a line terminator starts a string depends on its first three
    characters at most. *)
Lemma line_terminator_ahead (x y z : ascii) (s t : string) :
  JsString.starts_with_any JsString.line_terminators (String x (String y (String z s)))
  = JsString.starts_with_any JsString.line_terminators (String x (String y (String z t))).
Proof.
  unfold JsString.line_terminators. cbn [JsString.starts_with_any String.prefix].
  repeat match goal with
         | |- context [ascii_dec ?a ?b] => destruct (ascii_dec a b)
         end; rewrite ?prefix_empty; reflexivity.
Qed.

(** A closing parenthesis is no part of a line terminator. *)
Lemma line_terminator_before_close (s t : string) :
  JsString.starts_with_any JsString.line_terminators s = None →
  JsString.starts_with_any JsString.line_terminators (s +:+ String ")" t) = None.
Proof.
  intros Hs.
  destruct s as [|x [|y [|z s]]].
  - reflexivity.
  - revert Hs. change (String x "" +:+ String ")" t) with (String x (String ")" t)).
    unfold JsString.line_terminators. cbn [JsString.starts_with_any String.prefix].
    repeat match goal with
           | |- context [ascii_dec ?a ?b] => destruct (ascii_dec a b)
           end; rewrite ?prefix_empty; try discriminate; reflexivity.
  - revert Hs. change (String x (String y "") +:+ String ")" t)
      with (String x (String y (String ")" t))).
    unfold JsString.line_terminators. cbn [JsString.starts_with_any String.prefix].
    repeat match goal with
           | |- context [ascii_dec ?a ?b] => destruct (ascii_dec a b)
           end; rewrite ?prefix_empty; try discriminate; reflexivity.
  - change (String x (String y (String z s)) +:+ String ")" t)
      with (String x (String y (String z (s +:+ String ")" t)))).
    now rewrite (line_terminator_ahead x y z _ s).
Qed.

Lemma capturable_cons (x : ascii) (g : string) :
  capturable (String x g) = true →
  Ascii.eqb x ")" = false ∧
  JsString.starts_with_any JsString.line_terminators (String x g) = None ∧
  capturable g = true.
Proof.
  unfold capturable. cbn [has_char has_line_terminator].
  destruct (Ascii.eqb x ")"); [discriminate |].
  destruct (JsString.starts_with_any _ _); [now rewrite andb_false_r |].
  auto.
Qed.

(** The capture of a segment without closing parenthesis and without
    line terminator is the segment. *)
Lemma lazy_until_close_capturable (g rest : string) :
  capturable g = true →
  JsString.lazy_until_close (g +:+ ")" +:+ rest) = Some g.
Proof.
  induction g as [|x g IH]; intros Hg; [reflexivity |].
  apply capturable_cons in Hg as (Hclose & Hline & Hg).
  pose proof (line_terminator_before_close (String x g) rest Hline) as Hahead.
  change (String x g +:+ String ")" rest) with (String x (g +:+ ")" +:+ rest)) in Hahead.
  change (JsString.lazy_until_close (String x (g +:+ ")" +:+ rest)) = Some (String x g)).
  cbn [JsString.lazy_until_close]. rewrite Hclose, Hahead.
  now rewrite IH.
Qed.

Lemma lazy_until_close_unfold (c : ascii) (r : string) :
  JsString.lazy_until_close (String c r)
  = if Ascii.eqb c ")" then Some EmptyString
    else match JsString.starts_with_any JsString.line_terminators (String c r) with
         | Some _ => None
         | None => String c <$> JsString.lazy_until_close r
         end.
Proof. reflexivity. Qed.

(** A capture ends at a closing parenthesis. *)
Lemma lazy_until_close_has_close (s g : string) :
  JsString.lazy_until_close s = Some g → has_char ")" s = true.
Proof.
  revert g. induction s as [|c r IH]; intros g; [discriminate |].
  rewrite lazy_until_close_unfold. cbn [has_char].
  destruct (Ascii.eqb c ")"); [reflexivity |].
  destruct (JsString.starts_with_any _ _); [discriminate |].
  destruct (JsString.lazy_until_close r) as [g'|]; [| discriminate].
  intros _. now apply (IH g').
Qed.

(** What follows a capture does not change it. *)
Lemma lazy_until_close_app (s b g : string) :
  JsString.lazy_until_close s = Some g →
  JsString.lazy_until_close (s +:+ b) = Some g.
Proof.
  revert g. induction s as [|c r IH]; intros g; [discriminate |].
  change (String c r +:+ b) with (String c (r +:+ b)).
  rewrite !lazy_until_close_unfold.
  destruct (Ascii.eqb c ")") eqn:Hc; [trivial |].
  destruct (JsString.starts_with_any _ (String c r)) eqn:Hline; [discriminate |].
  destruct (JsString.lazy_until_close r) as [g'|] eqn:Hr; [| discriminate].
  intros [= <-]. rewrite (IH g' eq_refl).
  assert (JsString.starts_with_any JsString.line_terminators (String c (r +:+ b)) = None)
    as ->; [| reflexivity].
  destruct r as [|d r]; [discriminate |].
  rewrite lazy_until_close_unfold in Hr.
  destruct (Ascii.eqb d ")") eqn:Hd.
  - apply Ascii.eqb_eq in Hd as ->.
    apply (line_terminator_before_close (String c "") (r +:+ b)).
    revert Hline. clear.
    unfold JsString.line_terminators. cbn [JsString.starts_with_any String.prefix].
    repeat match goal with
           | |- context [ascii_dec ?a ?b] => destruct (ascii_dec a b)
           end; rewrite ?prefix_empty; try discriminate; reflexivity.
  - destruct (JsString.starts_with_any _ (String d r)); [discriminate |].
    destruct r as [|e r]; [discriminate |].
    change (String c (String d (String e r) +:+ b))
      with (String c (String d (String e (r +:+ b)))).
    now rewrite (line_terminator_ahead c d e _ r).
Qed.

Lemma prefix_app_l (p s b : string) :
  String.prefix p s = true → String.prefix p (s +:+ b) = true.
Proof.
  revert s. induction p as [|a p IH]; intros s; [intros _; apply prefix_empty |].
  destruct s as [|x s]; [discriminate |].
  change (String x s +:+ b) with (String x (s +:+ b)). cbn [String.prefix].
  destruct (ascii_dec a x); [apply IH | discriminate].
Qed.

Lemma starts_with_any_app (pats : list string) (s b : string) (n : nat) :
  JsString.starts_with_any pats s = Some n →
  ∃ m, JsString.starts_with_any pats (s +:+ b) = Some m.
Proof.
  induction pats as [|p pats IH]; [discriminate |]. cbn [JsString.starts_with_any].
  destruct (String.prefix p s) eqn:Hp.
  - intros _. rewrite (prefix_app_l p s b Hp). eauto.
  - intros Hrest. destruct (String.prefix p (s +:+ b)); eauto.
Qed.

(** A capture that fails before a closing parenthesis fails whatever
    follows. *)
Lemma lazy_until_close_app_none (s b : string) :
  JsString.lazy_until_close s = None → has_char ")" s = true →
  JsString.lazy_until_close (s +:+ b) = None.
Proof.
  induction s as [|c r IH]; [discriminate |].
  change (String c r +:+ b) with (String c (r +:+ b)).
  rewrite !lazy_until_close_unfold. cbn [has_char].
  destruct (Ascii.eqb c ")"); [discriminate |].
  destruct (JsString.starts_with_any _ (String c r)) as [n|] eqn:Hline.
  - intros _ _.
    destruct (starts_with_any_app _ _ b _ Hline) as [m Hm].
    change (String c r +:+ b) with (String c (r +:+ b)) in Hm. now rewrite Hm.
  - destruct (JsString.lazy_until_close r) eqn:Hr; [discriminate |].
    intros _ Hclose. rewrite (IH eq_refl Hclose).
    destruct (JsString.starts_with_any JsString.line_terminators (String c (r +:+ b)));
      reflexivity.
Qed.

(** [capturable] is exact: the capture of a segment followed by a closing
    parenthesis is that segment if and only if the segment has no closing
    parenthesis and no line terminator. *)
Lemma capturable_exact (g rest : string) :
  JsString.lazy_until_close (g +:+ ")" +:+ rest) = Some g ↔ capturable g = true.
Proof.
  split; [| apply lazy_until_close_capturable].
  induction g as [|x g IH]; [reflexivity |].
  change (String x g +:+ ")" +:+ rest) with (String x (g +:+ ")" +:+ rest)).
  rewrite lazy_until_close_unfold. unfold capturable in *.
  cbn [has_char has_line_terminator].
  destruct (Ascii.eqb x ")"); [discriminate |].
  destruct (JsString.starts_with_any _ (String x (g +:+ ")" +:+ rest))) eqn:Hahead;
    [discriminate |].
  destruct (JsString.lazy_until_close (g +:+ ")" +:+ rest)) as [g'|]; [| discriminate].
  intros [= ->].
  destruct (JsString.starts_with_any JsString.line_terminators (String x g)) as [n|]
    eqn:Hline; [| now apply IH].
  destruct (starts_with_any_app _ _ (")" +:+ rest) _ Hline) as [m Hm].
  change (String x g +:+ ")" +:+ rest) with (String x (g +:+ ")" +:+ rest)) in Hm.
  congruence.
Qed.

Lemma match_paren_unfold (c : ascii) (r : string) :
  JsString.match_paren (String c r)
  = if Ascii.eqb c "("
    then match JsString.lazy_until_close r with
         | Some g => Some g
         | None => JsString.match_paren r
         end
    else JsString.match_paren r.
Proof. reflexivity. Qed.

Lemma match_paren_has_close (s g : string) :
  JsString.match_paren s = Some g → has_char ")" s = true.
Proof.
  induction s as [|c r IH]; [discriminate |].
  rewrite match_paren_unfold. cbn [has_char].
  destruct (Ascii.eqb c ")"); [reflexivity |].
  destruct (Ascii.eqb c "("); [| exact IH].
  destruct (JsString.lazy_until_close r) as [g'|] eqn:Hr; [| exact IH].
  intros _. now apply (lazy_until_close_has_close r g').
Qed.

(** The expression takes the leftmost match: a match in the first part
    of a text is the match of the whole text. *)
Lemma match_paren_app (a b g : string) :
  JsString.match_paren a = Some g → JsString.match_paren (a +:+ b) = Some g.
Proof.
  induction a as [|c r IH]; [discriminate |].
  change (String c r +:+ b) with (String c (r +:+ b)).
  rewrite !match_paren_unfold.
  destruct (Ascii.eqb c "("); [| exact IH].
  destruct (JsString.lazy_until_close r) as [g'|] eqn:Hr.
  - intros [= <-]. now rewrite (lazy_until_close_app r b g' Hr).
  - intros Hm.
    rewrite (lazy_until_close_app_none r b Hr (match_paren_has_close r g Hm)).
    now apply IH.
Qed.

(** A text in which the mark occurs is not empty. *)
Lemma includes_truthy (s p : string) :
  p ≠ "" → JsString.includes s p = true → JsString.truthy s = true.
Proof. destruct s, p; simpl; try congruence; reflexivity. Qed.

(** The expression captures the first parenthesised segment of the text,
    wherever it stands. *)
Lemma match_paren_first (pre g rest : string) :
  has_char "(" pre = false → capturable g = true →
  JsString.match_paren (pre +:+ "(" +:+ g +:+ ")" +:+ rest) = Some g.
Proof.
  intros Hpre Hg. induction pre as [|x pre IH].
  - change (JsString.match_paren (String "(" (g +:+ ")" +:+ rest)) = Some g).
    cbn [JsString.match_paren]. rewrite Ascii.eqb_refl.
    now rewrite lazy_until_close_capturable.
  - simpl in Hpre. destruct (Ascii.eqb x "(") eqn:Hx; [discriminate |].
    change (JsString.match_paren (String x (pre +:+ "(" +:+ g +:+ ")" +:+ rest)) = Some g).
    cbn [JsString.match_paren]. rewrite Hx. now apply IH.
Qed.

Lemma has_char_app (c : ascii) (a b : string) :
  has_char c (a +:+ b) = has_char c a || has_char c b.
Proof.
  induction a as [|x a IH]; [reflexivity |].
  change (has_char c (String x (a +:+ b)) = has_char c (String x a) || has_char c b).
  simpl. now destruct (Ascii.eqb x c).
Qed.

Lemma truthy_app_r (s t : string) :
  JsString.truthy t = true → JsString.truthy (s +:+ t) = true.
Proof. destruct s; [trivial | reflexivity]. Qed.

Section ImageBranch.

Variable encode : string → list N.
Variable siteDomain : string.
Context {Store : Type} `{MessageStore Store}.

(** The first candidate of a text that holds the mark and a match of the
    expression. *)
Lemma first_candidate_image (text g : string) (opts : SendMessageOptions)
    (cp : CompletionParams) (sys : list ChatCompletionRequestMessage) :
  JsString.includes text IMAGE_MARK = true →
  JsString.match_paren text = Some g →
  opt_completionParams opts = Some cp →
  first_candidate siteDomain text opts sys
  = Ok (sys ++ [image_entry siteDomain (JsString.split_head text IMAGE_MARK) g opts],
        IMAGE_MARK +:+ "(" +:+ g +:+ ")",
        set_completionParams (set_model VISION_MODEL cp) opts).
Proof.
  intros Hmark Hg Hcp. unfold first_candidate. rewrite Hmark, Hcp.
  cbn [deref mbind Result_bind]. rewrite Hg.
  cbn [deref mbind Result_bind mret Result_ret].
  rewrite (includes_truthy text IMAGE_MARK ltac:(discriminate) Hmark).
  unfold image_entry. destruct (JsString.startsWith g "http"); reflexivity.
Qed.

(** A call without a parent whose first candidate is within the ceiling
    returns that candidate after one iteration. *)
Lemma build_single (fuel : nat) (self : ChatGPTAPI) (store : Store) (text : string)
    (opts written : SendMessageOptions) (next : list ChatCompletionRequestMessage)
    (img : string) :
  opt_parentMessageId opts = None →
  first_candidate siteDomain text opts
    (system_entries (default (_systemMessage self) (opt_systemMessage opts)))
  = Ok (next, img, written) →
  _getTokenCount encode (render_prompt next)
  ≤ _maxModelTokens self - _maxResponseTokens self →
  _buildMessages encode siteDomain (S fuel) self store text opts
  = Some (Ok ({| messages := next;
                 maxTokens :=
                   Z.max 1 (Z.min (_maxModelTokens self
                                   - _getTokenCount encode (render_prompt next))
                                  (_maxResponseTokens self));
                 numTokens := _getTokenCount encode (render_prompt next);
                 imgPath := img |}, written)).
Proof.
  intros Hparent Hfirst Hfit. unfold _buildMessages. rewrite Hfirst, Hparent.
  apply Z.leb_le in Hfit. simpl. rewrite Hfit, andb_false_r. reflexivity.
Qed.

Lemma split_head_mark (before rest : string) :
  has_char "!" before = false →
  JsString.split_head (before +:+ IMAGE_MARK +:+ rest) IMAGE_MARK = before.
Proof. unfold IMAGE_MARK. apply split_head_app. Qed.

(** X5.  An image question in the form the client sends it, [before]
    (without "!" and "("), the mark, and the image path in parentheses (a
    path without ")" and without line terminator), is taken apart exactly:
    the user entry has the text part [before] and the image part made of
    the path (prefixed with the site domain unless it starts with "http"),
    [imgPath] is the mark with the path in parentheses, so that the text is
    [before] followed by [imgPath] and the rest, and the options come back
    with the vision model. *)
Theorem image_question_is_decomposed
    (fuel : nat) (self : ChatGPTAPI) (store : Store) (before path rest : string)
    (opts : SendMessageOptions) (cp : CompletionParams) :
  has_char "!" before = false →
  has_char "(" before = false →
  capturable path = true →
  opt_completionParams opts = Some cp →
  opt_parentMessageId opts = None →
  _getTokenCount encode
    (render_prompt
       (system_entries (default (_systemMessage self) (opt_systemMessage opts))
          ++ [image_entry siteDomain before path opts]))
  ≤ _maxModelTokens self - _maxResponseTokens self →
  ∃ built,
    _buildMessages encode siteDomain (S fuel) self store
      (before +:+ IMAGE_MARK +:+ "(" +:+ path +:+ ")" +:+ rest) opts
    = Some (Ok (built, set_completionParams (set_model VISION_MODEL cp) opts)) ∧
    messages built
    = system_entries (default (_systemMessage self) (opt_systemMessage opts))
        ++ [image_entry siteDomain before path opts] ∧
    imgPath built = IMAGE_MARK +:+ "(" +:+ path +:+ ")" ∧
    before +:+ imgPath built +:+ rest
    = before +:+ IMAGE_MARK +:+ "(" +:+ path +:+ ")" +:+ rest.
Proof.
  intros Hbang Hparen Hpath Hcp Hparent Hfit.
  assert (first_candidate siteDomain
            (before +:+ IMAGE_MARK +:+ "(" +:+ path +:+ ")" +:+ rest) opts
            (system_entries (default (_systemMessage self) (opt_systemMessage opts)))
          = Ok (system_entries (default (_systemMessage self) (opt_systemMessage opts))
                  ++ [image_entry siteDomain before path opts],
                IMAGE_MARK +:+ "(" +:+ path +:+ ")",
                set_completionParams (set_model VISION_MODEL cp) opts)) as Hfirst.
  { pose proof (first_candidate_image
                  (before +:+ IMAGE_MARK +:+ "(" +:+ path +:+ ")" +:+ rest) path opts cp
                  (system_entries (default (_systemMessage self) (opt_systemMessage opts))))
      as Himg.
    rewrite split_head_mark in Himg by exact Hbang.
    apply Himg; [| | exact Hcp].
    - apply includes_app_r, includes_here.
    - rewrite <- (append_assoc before IMAGE_MARK).
      apply match_paren_first; [| exact Hpath].
      rewrite has_char_app, Hparen. reflexivity. }
  eexists. split; [apply (build_single fuel self store _ opts _ _ _ Hparent Hfirst Hfit) |].
  cbn [messages imgPath]. split; [reflexivity |]. split; [reflexivity |].
  now rewrite !append_assoc.
Qed.

(** X6.  The expression is matched against the whole text, not against
    what follows the mark: when the part of the text before the mark holds
    a match of the expression, the first of them, with [g] between its
    parentheses, is the one that is used.  [imgPath] is the mark with [g]
    in parentheses and the image part of the user entry is made of [g],
    whatever path the question gives after the mark. *)
Theorem first_parenthesis_is_the_image_path
    (fuel : nat) (self : ChatGPTAPI) (store : Store) (before rest g : string)
    (opts : SendMessageOptions) (cp : CompletionParams) :
  JsString.match_paren before = Some g →
  JsString.includes rest IMAGE_MARK = true →
  opt_completionParams opts = Some cp →
  opt_parentMessageId opts = None →
  _getTokenCount encode
    (render_prompt
       (system_entries (default (_systemMessage self) (opt_systemMessage opts))
          ++ [image_entry siteDomain
                (JsString.split_head (before +:+ rest) IMAGE_MARK) g opts]))
  ≤ _maxModelTokens self - _maxResponseTokens self →
  ∃ built,
    _buildMessages encode siteDomain (S fuel) self store (before +:+ rest) opts
    = Some (Ok (built, set_completionParams (set_model VISION_MODEL cp) opts)) ∧
    imgPath built = IMAGE_MARK +:+ "(" +:+ g +:+ ")" ∧
    messages built
    = system_entries (default (_systemMessage self) (opt_systemMessage opts))
        ++ [image_entry siteDomain
              (JsString.split_head (before +:+ rest) IMAGE_MARK) g opts].
Proof.
  intros Hg Hmark Hcp Hparent Hfit.
  pose proof (first_candidate_image (before +:+ rest) g opts cp
                (system_entries (default (_systemMessage self) (opt_systemMessage opts)))
                (includes_app_r before rest IMAGE_MARK Hmark)
                (match_paren_app before rest g Hg) Hcp) as Hfirst.
  eexists. split; [apply (build_single fuel self store _ opts _ _ _ Hparent Hfirst Hfit) |].
  cbn [messages imgPath]. split; reflexivity.
Qed.

End ImageBranch.

(** ** What the count of a prompt depends on *)

Section Shadows.

Variable encode : string → list N.
Variable siteDomain : string.
Context {Store : Type} `{MessageStore Store}.

Lemma prompt_line_shadow (e1 e2 : ChatCompletionRequestMessage) :
  shadow e1 = shadow e2 → prompt_line e1 = prompt_line e2.
Proof. unfold shadow, prompt_line. intros [= -> ->]. reflexivity. Qed.

Lemma render_prompt_shadow (l1 l2 : list ChatCompletionRequestMessage) :
  map shadow l1 = map shadow l2 → render_prompt l1 = render_prompt l2.
Proof.
  intros Hsh. rewrite !render_prompt_lines. f_equal.
  revert l2 Hsh. induction l1 as [|e1 l1 IH]; intros [|e2 l2] Hsh; cbn [map] in *;
    try discriminate Hsh; [reflexivity |].
  injection Hsh as Hrole Hcontent Hrest.
  f_equal; [| now apply IH].
  apply prompt_line_shadow. unfold shadow. now rewrite Hrole, Hcontent.
Qed.

(** Two runs of the loop on candidates with the same shadows take the
    same decisions. *)
Lemma build_loop_shadow (ceiling : Z) (store : Store) (off : nat) :
  ∀ (fuel : nat) (acc1 acc2 next1 next2 : list ChatCompletionRequestMessage) (n : Z)
    (id : option string) (m1 : list ChatCompletionRequestMessage) (k : Z),
    map shadow acc1 = map shadow acc2 →
    map shadow next1 = map shadow next2 →
    build_loop encode fuel store ceiling off acc1 next1 n id = Some (m1, k) →
    ∃ m2, build_loop encode fuel store ceiling off acc2 next2 n id = Some (m2, k) ∧
          map shadow m1 = map shadow m2.
Proof.
  induction fuel as [|fuel IH]; intros acc1 acc2 next1 next2 n id m1 k Hacc Hnext; simpl;
    [discriminate |].
  rewrite <- (render_prompt_shadow next1 next2 Hnext).
  destruct (JsString.truthy _ && negb _); [intros [= <- <-]; eauto |].
  destruct (negb _); [intros [= <- <-]; eauto |].
  destruct id as [id|]; [| intros [= <- <-]; eauto].
  destruct (negb (JsString.truthy id)); [intros [= <- <-]; eauto |].
  destruct (getMessageById store id) as [parent|]; [| intros [= <- <-]; eauto].
  apply IH; [exact Hnext |].
  rewrite !map_app. simpl map. rewrite <- !firstn_map, <- !skipn_map.
  now rewrite Hnext.
Qed.

(** X7.  The count and the budget of an image question do not depend on
    its text or on its image path: the user entry of every image question
    is rendered as the same two placeholders.  When the builder returns for
    one image question it returns for any other in which the expression
    finds a match, under the same client, options and store, with the same
    count, the same budget and a sequence of the same length. *)
Theorem image_question_count_ignores_text
    (fuel : nat) (self : ChatGPTAPI) (store : Store) (text1 text2 g2 : string)
    (opts written1 : SendMessageOptions) (b1 : BuiltMessages) :
  JsString.includes text1 IMAGE_MARK = true →
  JsString.includes text2 IMAGE_MARK = true →
  JsString.match_paren text2 = Some g2 →
  _buildMessages encode siteDomain fuel self store text1 opts = Some (Ok (b1, written1)) →
  ∃ b2,
    _buildMessages encode siteDomain fuel self store text2 opts = Some (Ok (b2, written1)) ∧
    numTokens b2 = numTokens b1 ∧
    maxTokens b2 = maxTokens b1 ∧
    length (messages b2) = length (messages b1).
Proof.
  intros Hmark1 Hmark2 Hg2. unfold _buildMessages.
  destruct (opt_completionParams opts) as [cp|] eqn:Hcp.
  2: { unfold first_candidate. rewrite Hmark1, Hcp. discriminate. }
  destruct (JsString.match_paren text1) as [g1|] eqn:Hg1.
  2: { unfold first_candidate. rewrite Hmark1, Hcp. cbn [deref mbind Result_bind].
       rewrite Hg1. discriminate. }
  rewrite (first_candidate_image siteDomain text1 g1 opts cp _ Hmark1 Hg1 Hcp).
  rewrite (first_candidate_image siteDomain text2 g2 opts cp _ Hmark2 Hg2 Hcp).
  destruct (build_loop _ _ _ _ _ _ _ _ _) as [[m1 k]|] eqn:Hloop; [| discriminate].
  intros [= <- <-].
  eapply build_loop_shadow in Hloop as (m2 & -> & Hsh); [| reflexivity |].
  - eexists. split; [reflexivity |]. cbn [numTokens maxTokens messages].
    split; [reflexivity |]. split; [reflexivity |].
    apply (f_equal length) in Hsh. now rewrite !length_map in Hsh.
  - rewrite !map_app. reflexivity.
Qed.

End Shadows.

(** ** The request of a call *)

Section Requests.

Variable encode : string → list N.
Variable siteDomain : string.
Variable uuidv4 : nat → string.
Variable JSON_parse : string → option CreateChatCompletionDeltaResponse.
Variable _fetch : Request → FetchOutcome.
Variable fetchSSE : Request → SSEOutcome.
Context {Store : Type} `{MessageStore Store}.

(** A call hands at most one request to the transport, made of what the
    builder returned. *)
Lemma sendMessage_request
    (fuel : nat) (self : ChatGPTAPI) (store : Store) (text : string)
    (opts : SendMessageOptions) (ex : Exchange Store) (rq : Request) :
  sendMessage encode siteDomain uuidv4 JSON_parse _fetch fetchSSE fuel self store text opts
  = Some ex →
  rq ∈ ex_requests ex →
  ∃ built written,
    _buildMessages encode siteDomain fuel self store text opts
    = Some (Ok (built, written)) ∧
    ex_requests ex = [rq] ∧
    rq = make_request self written built
           (default (opt_onProgress opts) (opt_stream opts))
           (opt_abortSignal opts || creates_abortController opts).
Proof.
  unfold sendMessage.
  destruct (_buildMessages _ _ _ _ _ _ _) as [[[built written]|err]|]; [| | discriminate].
  - match goal with
    | |- context [st_promise ?st] => destruct (st_promise st) as [|m|err]
    end; intros [= <-]; simpl; intros ->%list_elem_of_singleton; eauto.
  - intros [= <-]; simpl. intros []%elem_of_nil.
Qed.

(** What the builder does to the options. *)
Lemma build_written
    (fuel : nat) (self : ChatGPTAPI) (store : Store) (text : string)
    (opts written : SendMessageOptions) (built : BuiltMessages) :
  _buildMessages encode siteDomain fuel self store text opts
  = Some (Ok (built, written)) →
  if JsString.includes text IMAGE_MARK
  then ∃ cp, opt_completionParams opts = Some cp ∧
             written = set_completionParams (set_model VISION_MODEL cp) opts
  else written = opts.
Proof.
  unfold _buildMessages, first_candidate.
  destruct (JsString.includes text IMAGE_MARK).
  - destruct (opt_completionParams opts) as [cp|]; simpl; [| discriminate].
    destruct (JsString.match_paren text) as [g|]; simpl; [| discriminate].
    destruct (build_loop _ _ _ _ _ _ _ _ _) as [[msgs k]|]; [| discriminate].
    intros [= _ <-]. eauto.
  - simpl. destruct (build_loop _ _ _ _ _ _ _ _ _) as [[msgs k]|]; [| discriminate].
    now intros [= _ <-].
Qed.

(** X8.  The request of an image question always names the vision model,
    whatever model the client was built with and whatever model the call's
    own [completionParams] asked for. *)
Theorem image_question_goes_to_vision_model
    (fuel : nat) (self : ChatGPTAPI) (store : Store) (text : string)
    (opts : SendMessageOptions) (ex : Exchange Store) (rq : Request) :
  JsString.includes text IMAGE_MARK = true →
  sendMessage encode siteDomain uuidv4 JSON_parse _fetch fetchSSE fuel self store text opts
  = Some ex →
  rq ∈ ex_requests ex →
  cp_model (body_params (rq_body rq)) = Some VISION_MODEL.
Proof.
  intros Hmark Hsend Hrq.
  destruct (sendMessage_request fuel self store text opts ex rq Hsend Hrq)
    as (built & written & Hbuild & _ & ->).
  apply build_written in Hbuild. rewrite Hmark in Hbuild.
  destruct Hbuild as (cp & _ & ->).
  unfold make_request, spread. cbn [rq_body body_params cp_model].
  simpl. now destruct (cp_model (_completionParams self)).
Qed.

(** X9.  In the request of a text without the mark, a key of the
    call's [completionParams] wins over the client's, and both win over
    the budget of the builder, whatever the key's value: [max_tokens] is
    the builder's [maxTokens] only when neither the call nor the client has
    that key, and a key that the call passes with the value [undefined]
    leaves the request without the parameter.  The entries sent are the
    ones the builder returned. *)
Theorem request_parameters_precedence
    (fuel : nat) (self : ChatGPTAPI) (store : Store) (text : string)
    (opts : SendMessageOptions) (ex : Exchange Store) (rq : Request) :
  JsString.includes text IMAGE_MARK = false →
  sendMessage encode siteDomain uuidv4 JSON_parse _fetch fetchSSE fuel self store text opts
  = Some ex →
  rq ∈ ex_requests ex →
  ∃ built,
    _buildMessages encode siteDomain fuel self store text opts = Some (Ok (built, opts)) ∧
    body_messages (rq_body rq) = messages built ∧
    key_model (body_params (rq_body rq))
    = match own_key key_model (opt_completionParams opts) with
      | Absent => key_model (_completionParams self)
      | own => own
      end ∧
    key_max_tokens (body_params (rq_body rq))
    = match own_key key_max_tokens (opt_completionParams opts) with
      | Absent =>
          match key_max_tokens (_completionParams self) with
          | Absent => Defined (maxTokens built)
          | of_client => of_client
          end
      | own => own
      end ∧
    (own_key key_model (opt_completionParams opts) = Undefined →
     cp_model (body_params (rq_body rq)) = None) ∧
    (own_key key_max_tokens (opt_completionParams opts) = Undefined →
     cp_max_tokens (body_params (rq_body rq)) = None).
Proof.
  intros Hmark Hsend Hrq.
  destruct (sendMessage_request fuel self store text opts ex rq Hsend Hrq)
    as (built & written & Hbuild & _ & ->).
  pose proof (build_written _ _ _ _ _ _ _ Hbuild) as Hw. rewrite Hmark in Hw. subst written.
  exists built. split; [exact Hbuild |]. split; [reflexivity |].
  unfold make_request, spread, cp_model, cp_max_tokens.
  cbn [rq_body body_params key_model key_max_tokens].
  destruct (opt_completionParams opts) as [cp|]; cbn [default own_key no_params
    key_model key_max_tokens spread_key]; unfold id.
  - destruct (key_model cp), (key_max_tokens cp),
      (key_model (_completionParams self)), (key_max_tokens (_completionParams self));
      cbn [spread_key read]; repeat split; try reflexivity; try discriminate;
      intros _; reflexivity.
  - destruct (key_model (_completionParams self)),
      (key_max_tokens (_completionParams self)); cbn [spread_key read];
      repeat split; try reflexivity; discriminate.
Qed.

End Requests.

(** * Further properties of the streaming handler *)

Section StreamMore.

Variable JSON_parse : string → option CreateChatCompletionDeltaResponse.

(** A frame that carries a fragment is reported once, with the text so
    far and the fragment as [delta]. *)
Lemma onMessage_fragment_progress (img : string) (st : StreamState)
    (data fragment : string) :
  carries_fragment JSON_parse data fragment →
  ∃ snapshot,
    st_progress (onMessage JSON_parse img true st data) = st_progress st ++ [snapshot] ∧
    msg_text snapshot = msg_text (st_result st) +:+ fragment ∧
    msg_delta snapshot = Some fragment ∧
    st_progress (onMessage JSON_parse img false st data) = st_progress st.
Proof.
  intros Hcarry.
  destruct (onMessage_fragment JSON_parse img true st data fragment Hcarry) as [Htext _].
  destruct Hcarry
    as [Hdata (response & choice & rest & delta & Hparse & Hch & Hdelta & Hcontent & Hstop)].
  revert Htext. unfold onMessage.
  apply String.eqb_neq in Hdata. rewrite Hdata, Hparse, Hch, Hdelta.
  cbn [st_progress st_result]. intros Htext.
  eexists. split; [reflexivity |]. split; [exact Htext |]. split; [| reflexivity].
  rewrite <- Hcontent. clear.
  destruct (d_role delta); destruct (truthy_opt (d_content delta));
    try destruct (bool_decide _); reflexivity.
Qed.

Lemma fold_onMessage_progress (img : string) (datas fragments : list string) :
  Forall2 (carries_fragment JSON_parse) datas fragments →
  ∀ st,
    map msg_text (st_progress (fold_left (onMessage JSON_parse img true) datas st))
    = map msg_text (st_progress st) ++ running (msg_text (st_result st)) fragments ∧
    map msg_delta (st_progress (fold_left (onMessage JSON_parse img true) datas st))
    = map msg_delta (st_progress st) ++ map Some fragments.
Proof.
  induction 1 as [|data fragment datas fragments Hcarry _ IH]; intros st; simpl.
  - now rewrite !app_nil_r.
  - destruct (onMessage_fragment_progress img st data fragment Hcarry)
      as (snapshot & Hprog & Htext & Hdelta & _).
    destruct (onMessage_fragment JSON_parse img true st data fragment Hcarry)
      as [Hres _].
    destruct (IH (onMessage JSON_parse img true st data)) as [IHt IHd].
    rewrite IHt, IHd, Hprog, Hres, !map_app. simpl map.
    rewrite Htext, Hdelta, <- !app_assoc. split; reflexivity.
Qed.

(** Without a callback nothing is reported. *)
Lemma fold_onMessage_silent (img : string) (datas : list string) :
  ∀ st, st_progress (fold_left (onMessage JSON_parse img false) datas st)
        = st_progress st.
Proof.
  induction datas as [|data datas IH]; intros st; simpl; [reflexivity |].
  rewrite IH. unfold onMessage.
  destruct (String.eqb data "[DONE]"); [reflexivity |].
  destruct (JSON_parse data) as [response|]; [| reflexivity].
  destruct (dr_choices response) as [|choice rest]; [reflexivity |].
  destruct (dc_delta choice); reflexivity.
Qed.

(** The sentinel is not reported. *)
Lemma onMessage_done_progress (img : string) (onProgress : bool) (st : StreamState) :
  st_progress (onMessage JSON_parse img onProgress st "[DONE]") = st_progress st.
Proof. unfold onMessage. now rewrite String.eqb_refl. Qed.

(** A frame without content that finishes with [stop] appends [imgPath]. *)
Lemma onMessage_stop (img : string) (onProgress : bool) (st : StreamState) (data : string) :
  carries_stop JSON_parse data →
  msg_text (st_result (onMessage JSON_parse img onProgress st data))
  = msg_text (st_result st) +:+ img ∧
  st_promise (onMessage JSON_parse img onProgress st data) = st_promise st.
Proof.
  intros [Hdata (response & choice & rest & delta & Hparse & Hch & Hdelta & Hcontent & Hstop)].
  unfold onMessage.
  apply String.eqb_neq in Hdata. rewrite Hdata, Hparse, Hch, Hdelta, Hcontent, Hstop.
  rewrite bool_decide_eq_true_2 by reflexivity.
  split; [| reflexivity]. split_optional_assignments; reflexivity.
Qed.

End StreamMore.

Section StreamTheorems.

Variable encode : string → list N.
Variable siteDomain : string.
Variable uuidv4 : nat → string.
Variable JSON_parse : string → option CreateChatCompletionDeltaResponse.
Variable _fetch : Request → FetchOutcome.
Variable fetchSSE : Request → SSEOutcome.
Context {Store : Type} `{MessageStore Store}.

(** A streamed call, in terms of the state its handler ends in. *)
Lemma sendMessage_streaming
    (fuel : nat) (self : ChatGPTAPI) (store : Store) (text : string)
    (opts written : SendMessageOptions) (built : BuiltMessages) :
  _buildMessages encode siteDomain fuel self store text opts = Some (Ok (built, written)) →
  default (opt_onProgress opts) (opt_stream opts) = true →
  ∃ ex,
    sendMessage encode siteDomain uuidv4 JSON_parse _fetch fetchSSE fuel self store text opts
    = Some ex ∧
    ex_progress ex
    = st_progress
        (stream_exchange JSON_parse fetchSSE
           (make_request self written built true
              (opt_abortSignal opts || creates_abortController opts))
           (imgPath built) (opt_onProgress opts) (placeholder uuidv4 opts)) ∧
    match st_promise
            (stream_exchange JSON_parse fetchSSE
               (make_request self written built true
                  (opt_abortSignal opts || creates_abortController opts))
               (imgPath built) (opt_onProgress opts) (placeholder uuidv4 opts)) with
    | Resolved m => ex_outcome ex = Resolved (estimate_usage encode (numTokens built) m)
    | settled => ex_outcome ex = settled ∧ ex_upserts ex = [] ∧ ex_store ex = store
    end.
Proof.
  intros Hbuild Hstream. unfold sendMessage. rewrite Hbuild, Hstream. cbv iota.
  destruct (st_promise _) as [|m|err]; eexists; (split; [reflexivity |]); simpl; auto.
Qed.

(** What the handler has done after fragments alone. *)
Lemma stream_exchange_frames (request : Request) (img : string) (onProgress : bool)
    (result : ChatMessage) :
  stream_exchange JSON_parse fetchSSE request img onProgress result
  = let st := fold_left (onMessage JSON_parse img onProgress)
                (sse_frames (fetchSSE request))
                {| st_result := result; st_promise := Pending; st_progress := [] |} in
    match sse_error (fetchSSE request) with
    | Some err => {| st_result := st_result st; st_promise := reject err (st_promise st);
                     st_progress := st_progress st |}
    | None => st
    end.
Proof. reflexivity. Qed.

(** X10.  In streaming mode with a progress callback, when the frames
    are fragments followed by the sentinel, the callback is invoked once
    for each fragment and not for the sentinel; the texts it sees are the
    running concatenations of the fragments, untrimmed, and the [delta] it
    sees each time is the fragment just received. *)
Theorem progress_reports_running_text
    (fuel : nat) (self : ChatGPTAPI) (store : Store) (text : string)
    (opts written : SendMessageOptions) (built : BuiltMessages)
    (datas fragments : list string) :
  _buildMessages encode siteDomain fuel self store text opts = Some (Ok (built, written)) →
  opt_onProgress opts = true →
  default (opt_onProgress opts) (opt_stream opts) = true →
  sse_frames
    (fetchSSE (make_request self written built true
                 (opt_abortSignal opts || creates_abortController opts)))
  = datas ++ ["[DONE]"] →
  Forall2 (carries_fragment JSON_parse) datas fragments →
  ∃ ex,
    sendMessage encode siteDomain uuidv4 JSON_parse _fetch fetchSSE fuel self store text opts
    = Some ex ∧
    map msg_text (ex_progress ex) = running "" fragments ∧
    map msg_delta (ex_progress ex) = map Some fragments ∧
    length (ex_progress ex) = length fragments.
Proof.
  intros Hbuild Hprog Hstream Hframes Hcarry.
  destruct (sendMessage_streaming fuel self store text opts written built Hbuild Hstream)
    as (ex & Hsend & Hp & _).
  exists ex. split; [exact Hsend |].
  assert (map msg_text (ex_progress ex) = running "" fragments ∧
          map msg_delta (ex_progress ex) = map Some fragments) as [Ht Hd].
  { rewrite Hp, stream_exchange_frames, Hframes, fold_left_app, Hprog. cbv zeta.
    cbn [fold_left].
    destruct (fold_onMessage_progress JSON_parse (imgPath built) datas fragments Hcarry
                {| st_result := placeholder uuidv4 opts; st_promise := Pending;
                   st_progress := [] |}) as [Ht Hd].
    destruct (sse_error _); cbn [st_progress];
      rewrite onMessage_done_progress; auto. }
  split; [exact Ht |]. split; [exact Hd |].
  apply (f_equal length) in Hd. now rewrite !length_map in Hd.
Qed.

(** X11.  A frame that is not the sentinel and that [JSON.parse] refuses,
    arriving after fragments and before any sentinel, rejects the call with
    the parse error; the frames that follow, a sentinel among them, do not
    change that, and nothing is written to the store. *)
Theorem undecodable_frame_fails_the_call
    (fuel : nat) (self : ChatGPTAPI) (store : Store) (text : string)
    (opts written : SendMessageOptions) (built : BuiltMessages)
    (datas fragments later : list string) (bad : string) :
  _buildMessages encode siteDomain fuel self store text opts = Some (Ok (built, written)) →
  default (opt_onProgress opts) (opt_stream opts) = true →
  sse_frames
    (fetchSSE (make_request self written built true
                 (opt_abortSignal opts || creates_abortController opts)))
  = datas ++ bad :: later →
  Forall2 (carries_fragment JSON_parse) datas fragments →
  bad ≠ "[DONE]" →
  JSON_parse bad = None →
  ∃ ex,
    sendMessage encode siteDomain uuidv4 JSON_parse _fetch fetchSSE fuel self store text opts
    = Some ex ∧
    ex_outcome ex = Rejected (Thrown "JSON.parse") ∧
    ex_upserts ex = [] ∧
    ex_store ex = store.
Proof.
  intros Hbuild Hstream Hframes Hcarry Hbad Hparse.
  destruct (sendMessage_streaming fuel self store text opts written built Hbuild Hstream)
    as (ex & Hsend & _ & Hout).
  exists ex. split; [exact Hsend |].
  assert (st_promise
            (stream_exchange JSON_parse fetchSSE
               (make_request self written built true
                  (opt_abortSignal opts || creates_abortController opts))
               (imgPath built) (opt_onProgress opts) (placeholder uuidv4 opts))
          = Rejected (Thrown "JSON.parse")) as Hp.
  { rewrite stream_exchange_frames, Hframes, fold_left_app. cbv zeta. cbn [fold_left].
    destruct (fold_onMessage_fragments JSON_parse (imgPath built) (opt_onProgress opts)
                datas fragments Hcarry
                {| st_result := placeholder uuidv4 opts; st_promise := Pending;
                   st_progress := [] |}) as [_ Hpending].
    pose proof (undecodable_frame_rejects JSON_parse (imgPath built) (opt_onProgress opts)
                  _ bad Hbad Hparse Hpending) as Hrej.
    assert (st_promise
              (fold_left (onMessage JSON_parse (imgPath built) (opt_onProgress opts)) later
                 (onMessage JSON_parse (imgPath built) (opt_onProgress opts)
                    (fold_left (onMessage JSON_parse (imgPath built) (opt_onProgress opts))
                       datas
                       {| st_result := placeholder uuidv4 opts; st_promise := Pending;
                          st_progress := [] |}) bad))
            = Rejected (Thrown "JSON.parse")) as Hlater.
    { rewrite fold_onMessage_settled; [exact Hrej |]. rewrite Hrej. discriminate. }
    destruct (sse_error _); cbn [st_promise]; rewrite Hlater; reflexivity. }
  rewrite Hp in Hout. exact Hout.
Qed.

(** The call in streaming mode, once the builder has returned. *)
Lemma sendMessage_call_streaming
    (elapsed_first : bool) (_upsertMessage : ChatMessage → Store → Store * option Error)
    (fuel : nat) (self : ChatGPTAPI) (store : Store) (text : string)
    (opts written : SendMessageOptions) (built : BuiltMessages) :
  _buildMessages encode siteDomain fuel self store text opts = Some (Ok (built, written)) →
  default (opt_onProgress opts) (opt_stream opts) = true →
  ∃ c,
    sendMessage_call encode siteDomain uuidv4 JSON_parse _fetch fetchSSE elapsed_first
      _upsertMessage fuel self store text opts = Some c ∧
    match st_promise
            (stream_exchange JSON_parse fetchSSE
               (make_request self written built true
                  (opt_abortSignal opts || creates_abortController opts))
               (imgPath built) (opt_onProgress opts) (placeholder uuidv4 opts)) with
    | Resolved m => True
    | settled =>
        call_outcome c
        = (if truthyN (opt_timeoutMs opts)
           then pTimeout elapsed_first settled "OpenAI timed out waiting for response"
           else settled) ∧
        call_writes c = [] ∧ call_store c = store
    end.
Proof.
  intros Hbuild Hstream. unfold sendMessage_call. rewrite Hbuild, Hstream. cbv iota zeta.
  destruct (st_promise _) as [|m|err].
  - eexists. split; [reflexivity |]. cbn. auto.
  - destruct (upsert_pair _ _ _ _). eexists. split; [reflexivity |]. exact I.
  - eexists. split; [reflexivity |]. cbn. auto.
Qed.

(** X12.  When the stream ends after fragments without a sentinel, the
    call never resolves and nothing is written to the store.  Without a
    timeout the call is rejected with the error of [fetchSSE] if there is
    one, and otherwise its promise stays pending for ever.  With a timeout
    a call that would stay pending is rejected with the timeout error, and
    so is one that [fetchSSE] fails after the timer has elapsed. *)
Theorem stream_without_sentinel_never_resolves
    (elapsed_first : bool) (_upsertMessage : ChatMessage → Store → Store * option Error)
    (fuel : nat) (self : ChatGPTAPI) (store : Store) (text : string)
    (opts written : SendMessageOptions) (built : BuiltMessages)
    (fragments : list string) :
  _buildMessages encode siteDomain fuel self store text opts = Some (Ok (built, written)) →
  default (opt_onProgress opts) (opt_stream opts) = true →
  Forall2 (carries_fragment JSON_parse)
    (sse_frames
       (fetchSSE (make_request self written built true
                    (opt_abortSignal opts || creates_abortController opts))))
    fragments →
  ∃ c,
    sendMessage_call encode siteDomain uuidv4 JSON_parse _fetch fetchSSE elapsed_first
      _upsertMessage fuel self store text opts = Some c ∧
    call_outcome c
    = match sse_error
              (fetchSSE (make_request self written built true
                           (opt_abortSignal opts || creates_abortController opts))) with
      | Some err =>
          if truthyN (opt_timeoutMs opts) && elapsed_first
          then Rejected (TimeoutError "OpenAI timed out waiting for response")
          else Rejected err
      | None =>
          if truthyN (opt_timeoutMs opts)
          then Rejected (TimeoutError "OpenAI timed out waiting for response")
          else Pending
      end ∧
    (∀ message, call_outcome c ≠ Resolved message) ∧
    call_writes c = [] ∧
    call_store c = store.
Proof.
  intros Hbuild Hstream Hcarry.
  destruct (sendMessage_call_streaming elapsed_first _upsertMessage fuel self store text
              opts written built Hbuild Hstream) as (c & Hcall & Hout).
  exists c. split; [exact Hcall |].
  rewrite stream_exchange_frames in Hout. cbv zeta in Hout.
  destruct (fold_onMessage_fragments JSON_parse (imgPath built) (opt_onProgress opts)
              _ fragments Hcarry
              {| st_result := placeholder uuidv4 opts; st_promise := Pending;
                 st_progress := [] |}) as [_ Hpending].
  destruct (sse_error _) as [err|]; cbn [st_promise] in Hout; rewrite Hpending in Hout;
    cbn [reject pTimeout] in Hout; destruct Hout as (Hout & Hwrites & Hstore);
    rewrite Hout; (split; [| split; [| split; assumption]]);
    destruct (truthyN (opt_timeoutMs opts)), elapsed_first; cbn; try reflexivity;
    discriminate.
Qed.

(** X13.  In streaming mode, when the fragments are followed by a frame
    without content whose finish reason is [stop] and then by the sentinel,
    the text of the resolved message is the concatenation of the fragments
    followed by the builder's [imgPath], trimmed: the answer to an image
    question carries the image reference of the question. *)
Theorem stop_frame_appends_image_path
    (fuel : nat) (self : ChatGPTAPI) (store : Store) (text : string)
    (opts written : SendMessageOptions) (built : BuiltMessages)
    (datas fragments : list string) (stop : string) :
  _buildMessages encode siteDomain fuel self store text opts = Some (Ok (built, written)) →
  default (opt_onProgress opts) (opt_stream opts) = true →
  sse_frames
    (fetchSSE (make_request self written built true
                 (opt_abortSignal opts || creates_abortController opts)))
  = datas ++ [stop; "[DONE]"] →
  Forall2 (carries_fragment JSON_parse) datas fragments →
  carries_stop JSON_parse stop →
  ∃ ex message,
    sendMessage encode siteDomain uuidv4 JSON_parse _fetch fetchSSE fuel self store text opts
    = Some ex ∧
    ex_outcome ex = Resolved message ∧
    msg_text message = JsString.trim (concat_fragments fragments +:+ imgPath built).
Proof.
  intros Hbuild Hstream Hframes Hcarry Hstop.
  destruct (sendMessage_streaming fuel self store text opts written built Hbuild Hstream)
    as (ex & Hsend & _ & Hout).
  exists ex.
  rewrite stream_exchange_frames, Hframes, fold_left_app in Hout. cbv zeta in Hout.
  cbn [fold_left] in Hout.
  destruct (fold_onMessage_fragments JSON_parse (imgPath built) (opt_onProgress opts)
              datas fragments Hcarry
              {| st_result := placeholder uuidv4 opts; st_promise := Pending;
                 st_progress := [] |}) as [Htext Hpending].
  set (st := fold_left _ datas _) in *.
  destruct (onMessage_stop JSON_parse (imgPath built) (opt_onProgress opts) st stop Hstop)
    as [Htext' Hpending'].
  set (st' := onMessage _ _ _ st stop) in *.
  assert (st_promise (onMessage JSON_parse (imgPath built) (opt_onProgress opts) st' "[DONE]")
          = Resolved (set_text (JsString.trim (msg_text (st_result st'))) (st_result st')))
    as Hdone.
  { unfold onMessage. rewrite String.eqb_refl. cbn [st_promise].
    now rewrite Hpending', Hpending. }
  assert (ex_outcome ex
          = Resolved (estimate_usage encode (numTokens built)
                        (set_text (JsString.trim (msg_text (st_result st')))
                           (st_result st')))) as Hex.
  { destruct (sse_error _); cbn [st_promise] in Hout; rewrite Hdone in Hout; exact Hout. }
  eexists. split; [exact Hsend |]. split; [exact Hex |].
  destruct (estimate_usage_fields encode (numTokens built)
              (set_text (JsString.trim (msg_text (st_result st'))) (st_result st')))
    as (_ & -> & _).
  cbn [msg_text set_text]. now rewrite Htext', Htext.
Qed.

(** X14.  The progress callback is invoked only by the streaming branch:
    a call that reported progress had a callback and ran in streaming
    mode.  In particular a call with [stream: false] never invokes the
    callback it was given. *)
Theorem progress_only_when_streaming
    (fuel : nat) (self : ChatGPTAPI) (store : Store) (text : string)
    (opts : SendMessageOptions) (ex : Exchange Store) :
  sendMessage encode siteDomain uuidv4 JSON_parse _fetch fetchSSE fuel self store text opts
  = Some ex →
  ex_progress ex ≠ [] →
  opt_onProgress opts = true ∧ opt_stream opts ≠ Some false.
Proof.
  unfold sendMessage.
  destruct (_buildMessages _ _ _ _ _ _ _) as [[[built written]|err]|]; [| | discriminate].
  2: { intros [= <-]. simpl. congruence. }
  intros Hsend Hprog.
  assert (st_progress
            (if default (opt_onProgress opts) (opt_stream opts)
             then stream_exchange JSON_parse fetchSSE
                    (make_request self written built
                       (default (opt_onProgress opts) (opt_stream opts))
                       (opt_abortSignal opts || creates_abortController opts))
                    (imgPath built) (opt_onProgress opts) (placeholder uuidv4 opts)
             else {| st_result := placeholder uuidv4 opts;
                     st_promise :=
                       buffered_exchange _fetch
                         (make_request self written built
                            (default (opt_onProgress opts) (opt_stream opts))
                            (opt_abortSignal opts || creates_abortController opts))
                         (placeholder uuidv4 opts);
                     st_progress := [] |}) ≠ []) as Hst.
  { revert Hsend Hprog. cbv zeta.
    destruct (st_promise _); intros [= <-]; simpl; auto. }
  clear Hsend Hprog.
  destruct (opt_stream opts) as [[|]|] eqn:Hs; simpl in Hst.
  - split; [| discriminate].
    destruct (opt_onProgress opts); [reflexivity |].
    exfalso. apply Hst. rewrite stream_exchange_frames. cbv zeta.
    destruct (sse_error _); cbn [st_progress]; apply fold_onMessage_silent.
  - congruence.
  - split; [| discriminate].
    destruct (opt_onProgress opts); [reflexivity | simpl in Hst; congruence].
Qed.

End StreamTheorems.

(** * Further properties of the request controller *)

Section ControllerTheorems.

Variable encode : string → list N.
Variable siteDomain : string.
Variable uuidv4 : nat → string.
Variable JSON_parse : string → option CreateChatCompletionDeltaResponse.
Variable _fetch : Request → FetchOutcome.
Variable fetchSSE : Request → SSEOutcome.
Context {Store : Type} `{MessageStore Store}.

(** A buffered call, in terms of the settlement of its transport. *)
Lemma sendMessage_buffered
    (fuel : nat) (self : ChatGPTAPI) (store : Store) (text : string)
    (opts written : SendMessageOptions) (built : BuiltMessages) :
  _buildMessages encode siteDomain fuel self store text opts = Some (Ok (built, written)) →
  default (opt_onProgress opts) (opt_stream opts) = false →
  ∃ ex,
    sendMessage encode siteDomain uuidv4 JSON_parse _fetch fetchSSE fuel self store text opts
    = Some ex ∧
    ex_requests ex
    = [make_request self written built false
         (opt_abortSignal opts || creates_abortController opts)] ∧
    match buffered_exchange _fetch
            (make_request self written built false
               (opt_abortSignal opts || creates_abortController opts))
            (placeholder uuidv4 opts) with
    | Resolved m => ex_outcome ex = Resolved (estimate_usage encode (numTokens built) m)
    | settled => ex_outcome ex = settled ∧ ex_upserts ex = [] ∧ ex_store ex = store
    end.
Proof.
  intros Hbuild Hstream. unfold sendMessage. rewrite Hbuild, Hstream. cbv iota.
  cbn [st_promise].
  destruct (buffered_exchange _ _ _) as [|m|err]; eexists; (split; [reflexivity |]);
    simpl; auto.
Qed.

(** X15.  In buffered mode the usage that the provider reports is kept
    as it is; when it reports none, the resolved message carries an
    estimate: the builder's count as prompt tokens, the count of the
    answer's text as completion tokens, their sum as total, marked as
    estimated. *)
Theorem usage_is_kept_or_estimated
    (fuel : nat) (self : ChatGPTAPI) (store : Store) (text : string)
    (opts written : SendMessageOptions) (built : BuiltMessages) (res : Response)
    (response : CreateChatCompletionResponse)
    (choice : CreateChatCompletionResponseChoice)
    (rest : list CreateChatCompletionResponseChoice) :
  _buildMessages encode siteDomain fuel self store text opts = Some (Ok (built, written)) →
  default (opt_onProgress opts) (opt_stream opts) = false →
  _fetch (make_request self written built false
            (opt_abortSignal opts || creates_abortController opts))
  = FetchResponse res →
  res_ok res = true →
  res_json res = Some response →
  cr_choices response = choice :: rest →
  ∃ ex message,
    sendMessage encode siteDomain uuidv4 JSON_parse _fetch fetchSSE fuel self store text opts
    = Some ex ∧
    ex_outcome ex = Resolved message ∧
    msg_detail message ≫= detail_usage
    = Some match cr_usage response with
           | Some reported => reported
           | None =>
               {| prompt_tokens := numTokens built;
                  completion_tokens :=
                    _getTokenCount encode (rm_content (ch_message choice));
                  total_tokens :=
                    numTokens built
                    + _getTokenCount encode (rm_content (ch_message choice));
                  estimated := true |}
           end.
Proof.
  intros Hbuild Hstream Hfetch Hok Hjson Hch.
  destruct (sendMessage_buffered fuel self store text opts written built Hbuild Hstream)
    as (ex & Hsend & _ & Hout).
  unfold buffered_exchange in Hout. rewrite Hfetch, Hok, Hjson, Hch in Hout.
  cbn [negb] in Hout. cbv iota in Hout.
  eexists ex, _. split; [exact Hsend |]. split; [exact Hout |].
  unfold estimate_usage.
  assert (∀ m, msg_detail (set_detail (DetailOfResponse response) m)
               = Some (DetailOfResponse response)) as Hd by reflexivity.
  rewrite Hd. cbn [detail_usage].
  destruct (cr_usage response) as [reported|] eqn:Hu.
  - rewrite Hd. cbn. now rewrite Hu.
  - cbn. repeat f_equal; split_optional_assignments; reflexivity.
Qed.

(** X16.  In buffered mode an error thrown by [fetch] is what the call is
    rejected with, as it is; the call has made this one request and has
    written nothing. *)
Theorem fetch_error_is_passed_on
    (fuel : nat) (self : ChatGPTAPI) (store : Store) (text : string)
    (opts written : SendMessageOptions) (built : BuiltMessages) (err : Error) :
  _buildMessages encode siteDomain fuel self store text opts = Some (Ok (built, written)) →
  default (opt_onProgress opts) (opt_stream opts) = false →
  _fetch (make_request self written built false
            (opt_abortSignal opts || creates_abortController opts))
  = FetchRejects err →
  ∃ ex,
    sendMessage encode siteDomain uuidv4 JSON_parse _fetch fetchSSE fuel self store text opts
    = Some ex ∧
    ex_outcome ex = Rejected err ∧
    length (ex_requests ex) = 1%nat ∧
    ex_upserts ex = [] ∧
    ex_store ex = store.
Proof.
  intros Hbuild Hstream Hfetch.
  destruct (sendMessage_buffered fuel self store text opts written built Hbuild Hstream)
    as (ex & Hsend & Hreq & Hout).
  unfold buffered_exchange in Hout. rewrite Hfetch in Hout.
  exists ex. rewrite Hreq. intuition.
Qed.

End ControllerTheorems.

(** * The store between two calls *)

Section Continuity.

Variable encode : string → list N.
Variable siteDomain : string.
Variable uuidv4 : nat → string.
Variable JSON_parse : string → option CreateChatCompletionDeltaResponse.
Variable _fetch : Request → FetchOutcome.
Variable fetchSSE : Request → SSEOutcome.

(** The message a call resolves with names the call's user message as its
    parent. *)
Lemma resolved_message_parent {Store : Type} `{MessageStore Store}
    (fuel : nat) (self : ChatGPTAPI) (store : Store) (text : string)
    (opts : SendMessageOptions) (ex : Exchange Store) (message : ChatMessage) :
  sendMessage encode siteDomain uuidv4 JSON_parse _fetch fetchSSE fuel self store text opts
  = Some ex →
  ex_outcome ex = Resolved message →
  msg_parentMessageId message = Some (msg_id (user_message uuidv4 text opts)).
Proof.
  unfold sendMessage.
  destruct (_buildMessages _ _ _ _ _ _ _) as [[[built written]|err]|]; [| | discriminate].
  - match goal with
    | |- context [st_promise ?st] => destruct (st_promise st) as [|m|err] eqn:Hp
    end; intros [= <-]; simpl; intros [= <-].
    destruct (estimate_usage_fields encode (numTokens built) m) as (-> & _).
    destruct (default (opt_onProgress opts) (opt_stream opts)).
    + now apply stream_exchange_linked in Hp.
    + now apply buffered_exchange_linked in Hp.
  - intros [= <-]; simpl; discriminate.
Qed.

(** X17.  Over the default store, the exchange that a first call of a
    conversation has written is the context of the next call: when the
    next call names the resolved message as its parent and the budget has
    room, its prompt is the system entries, the first question as a user
    entry, the answer, and the new turn.  The two identifiers must be
    non-empty and differ. *)
Theorem next_call_sees_the_exchange
    (fuel1 fuel2 : nat) (self : ChatGPTAPI) (store : gmap string ChatMessage)
    (text1 text2 : string) (opts1 opts2 written2 : SendMessageOptions)
    (ex1 : Exchange (gmap string ChatMessage)) (answer : ChatMessage) (img : string)
    (turn : list ChatCompletionRequestMessage) :
  sendMessage encode siteDomain uuidv4 JSON_parse _fetch fetchSSE fuel1 self store
    text1 opts1 = Some ex1 →
  ex_outcome ex1 = Resolved answer →
  opt_parentMessageId opts1 = None →
  msg_id answer ≠ "" →
  msg_id (user_message uuidv4 text1 opts1) ≠ "" →
  msg_id answer ≠ msg_id (user_message uuidv4 text1 opts1) →
  opt_parentMessageId opts2 = Some (msg_id answer) →
  first_candidate siteDomain text2 opts2
    (system_entries (default (_systemMessage self) (opt_systemMessage opts2)))
  = Ok (system_entries (default (_systemMessage self) (opt_systemMessage opts2)) ++ turn,
        img, written2) →
  (∀ k, (k ≤ 2)%nat →
        _getTokenCount encode
          (render_prompt
             (candidate
                (system_entries (default (_systemMessage self) (opt_systemMessage opts2)))
                turn [answer; user_message uuidv4 text1 opts1] k))
        ≤ _maxModelTokens self - _maxResponseTokens self) →
  (2 < fuel2)%nat →
  ∃ built,
    _buildMessages encode siteDomain fuel2 self (ex_store ex1) text2 opts2
    = Some (Ok (built, written2)) ∧
    messages built
    = system_entries (default (_systemMessage self) (opt_systemMessage opts2))
        ++ [ {| req_role := user; req_content := ContentText text1; req_name := None |};
             parent_entry answer ]
        ++ turn.
Proof.
  intros Hsend Hres Hfirstcall Hid_a Hid_q Hne Hparent Hfirst Hfit Hfuel.
  destruct (resolved_run_writes_pair _ _ _ _ _ _ _ _ _ _ _ _ _ Hsend Hres) as [_ Hstore].
  pose proof (resolved_message_parent _ _ _ _ _ _ _ Hsend Hres) as Hlink.
  assert (ancestor_chain (ex_store ex1) (Some (msg_id answer))
            [answer; user_message uuidv4 text1 opts1]) as Hchain.
  { rewrite Hstore. apply chain_parent; [exact Hid_a | |].
    - apply lookup_insert_eq.
    - rewrite Hlink. apply chain_parent; [exact Hid_q | |].
      + cbn [getMessageById default_store upsertMessage].
        unfold _defaultGetMessageById, _defaultUpsertMessage.
        rewrite lookup_insert_ne by exact Hne. apply lookup_insert_eq.
      + cbn [msg_parentMessageId user_message]. rewrite Hfirstcall. apply chain_no_parent. }
  set (sys := system_entries (default (_systemMessage self) (opt_systemMessage opts2))) in *.
  pose proof (build_loop_slack encode (_maxModelTokens self - _maxResponseTokens self)
                (ex_store ex1) sys turn [answer; user_message uuidv4 text1 opts1]
                fuel2 (Some (msg_id answer)) [] sys 0 Hchain) as Hloop.
  simpl app in Hloop. specialize (Hloop Hfit Hfuel).
  unfold _buildMessages. fold sys. rewrite Hfirst, Hparent, Hloop.
  eexists. split; [reflexivity |]. reflexivity.
Qed.

End Continuity.

(** * The constructor and the token count *)

(** X18.  The constructor refuses an empty API key before it looks at
    [fetch], refuses a missing [fetch] and one that is not a function, and
    otherwise builds a client whose limits are the options' or else 4000
    and 1000.  The model of that client is the default model when the
    options' [completionParams] have no [model] key; a key that is there
    replaces the default, so that a [model] passed as [undefined] leaves
    the client without a model. *)
Theorem constructor_validates (currentDate : string) (opts : ChatGPTAPIOptions) :
  (o_apiKey opts = "" →
   constructor currentDate opts = Throw (JsError "OpenAI missing required apiKey")) ∧
  (o_apiKey opts ≠ "" → o_fetch opts = FetchMissing →
   constructor currentDate opts
   = Throw (JsError "Invalid environment; fetch is not defined")) ∧
  (o_apiKey opts ≠ "" → o_fetch opts = FetchNotAFunction →
   constructor currentDate opts
   = Throw (JsError ("Invalid " +:+ String (Ascii.ascii_of_nat 34) "fetch"
                       +:+ String (Ascii.ascii_of_nat 34) " is not a function"))) ∧
  (o_apiKey opts ≠ "" → o_fetch opts = FetchFunction →
   ∃ self,
     constructor currentDate opts = Ok self ∧
     _apiKey self = o_apiKey opts ∧
     _maxModelTokens self = default 4000 (o_maxModelTokens opts) ∧
     _maxResponseTokens self = default 1000 (o_maxResponseTokens opts) ∧
     cp_model (_completionParams self)
     = match own_key key_model (o_completionParams opts) with
       | Absent => Some CHATGPT_MODEL
       | Undefined => None
       | Defined model => Some model
       end).
Proof.
  unfold constructor. cbn [_apiKey].
  repeat split.
  - intros ->. reflexivity.
  - intros Hkey ->. apply truthy_spec in Hkey. now rewrite Hkey.
  - intros Hkey ->. apply truthy_spec in Hkey. now rewrite Hkey.
  - intros Hkey ->. apply truthy_spec in Hkey. rewrite Hkey. cbn [negb].
    eexists. split; [reflexivity |]. cbn.
    repeat split.
    destruct (o_completionParams opts) as [cp|]; cbn; [| reflexivity].
    unfold cp_model. cbn. now destruct (key_model cp).
Qed.

Lemma remove_all_from_skip (p q rest : string) :
  JsString.remove_all_from (String.length q) p (q +:+ rest)
  = JsString.remove_all_from 0 p rest.
Proof.
  induction q as [|a q IH]; [reflexivity |].
  change (JsString.remove_all_from (S (String.length q)) p (String a (q +:+ rest))
          = JsString.remove_all_from 0 p rest).
  exact IH.
Qed.

Lemma remove_all_pattern (c : ascii) (p rest : string) :
  JsString.remove_all (String c p) (String c p +:+ rest)
  = JsString.remove_all (String c p) rest.
Proof.
  unfold JsString.remove_all.
  change (String c p +:+ rest) with (String c (p +:+ rest)).
  cbn [JsString.remove_all_from].
  change (String c (p +:+ rest)) with (String c p +:+ rest).
  rewrite prefix_app. cbn [String.length Nat.pred]. apply remove_all_from_skip.
Qed.

Lemma remove_all_clear (c : ascii) (p a rest : string) :
  has_char c a = false →
  JsString.remove_all (String c p) (a +:+ rest)
  = a +:+ JsString.remove_all (String c p) rest.
Proof.
  intros Ha. unfold JsString.remove_all. induction a as [|x a IH]; [reflexivity |].
  simpl in Ha. destruct (Ascii.eqb x c) eqn:Hx; [discriminate |].
  change (String x a +:+ rest) with (String x (a +:+ rest)).
  cbn [JsString.remove_all_from]. rewrite (prefix_other_head c x p _ Hx).
  rewrite IH by exact Ha. reflexivity.
Qed.

(** X19.  An end-of-text marker in a text is not counted: the count of a
    text with a marker after a stretch free of "<" is the count of the text
    without that marker. *)
Theorem end_of_text_marker_is_not_counted
    (encode : string → list N) (a b : string) :
  has_char "<" a = false →
  _getTokenCount encode (a +:+ "<|endoftext|>" +:+ b) = _getTokenCount encode (a +:+ b).
Proof.
  intros Ha. unfold _getTokenCount.
  rewrite !(remove_all_clear "<" "|endoftext|>" a _ Ha).
  now rewrite (remove_all_pattern "<" "|endoftext|>" b).
Qed.

(** * The further properties at concrete inputs *)

Lemma image_question_is_decomposed_witness :
  ∃ built,
    _buildMessages Sample.byte_encode "https://site" 1 (Sample.api "")
      (∅ : gmap string ChatMessage)
      ("What is this? " +:+ IMAGE_MARK +:+ "(" +:+ "/img/5€.png" +:+ ")" +:+ "")
      Sample.image_opts
    = Some (Ok (built,
                set_completionParams (set_model VISION_MODEL no_params)
                  Sample.image_opts)) ∧
    messages built
    = system_entries ""
        ++ [image_entry "https://site" "What is this? " "/img/5€.png"
              Sample.image_opts] ∧
    imgPath built = IMAGE_MARK +:+ "(" +:+ "/img/5€.png" +:+ ")" ∧
    "What is this? " +:+ imgPath built +:+ ""
    = "What is this? " +:+ IMAGE_MARK +:+ "(" +:+ "/img/5€.png" +:+ ")" +:+ "".
Proof.
  apply (image_question_is_decomposed Sample.byte_encode "https://site" 0
           (Sample.api "") (∅ : gmap string ChatMessage)
           "What is this? " "/img/5€.png" "" Sample.image_opts no_params);
    try reflexivity.
  vm_compute. discriminate.
Defined.

Lemma first_parenthesis_is_the_image_path_witness :
  ∃ built,
    _buildMessages Sample.byte_encode "https://site" 1 (Sample.api "")
      (∅ : gmap string ChatMessage)
      ("Compare (5€, see the note) with " +:+ IMAGE_MARK +:+ "(/sysfiles/1.png)")
      Sample.image_opts
    = Some (Ok (built,
                set_completionParams (set_model VISION_MODEL no_params)
                  Sample.image_opts)) ∧
    imgPath built = IMAGE_MARK +:+ "(" +:+ "5€, see the note" +:+ ")" ∧
    messages built
    = system_entries ""
        ++ [image_entry "https://site"
              (JsString.split_head
                 ("Compare (5€, see the note) with "
                    +:+ IMAGE_MARK +:+ "(/sysfiles/1.png)") IMAGE_MARK)
              "5€, see the note" Sample.image_opts].
Proof.
  apply (first_parenthesis_is_the_image_path Sample.byte_encode "https://site" 0
           (Sample.api "") (∅ : gmap string ChatMessage)
           "Compare (5€, see the note) with " (IMAGE_MARK +:+ "(/sysfiles/1.png)")
           "5€, see the note" Sample.image_opts no_params);
    try reflexivity.
  vm_compute. discriminate.
Defined.

(** The image reference that goes out for that text. *)
Example stray_parenthesis_request :
  messages <$>
    (_buildMessages Sample.byte_encode "https://site" 1 (Sample.api "")
       (∅ : gmap string ChatMessage)
       ("Compare (5€, see the note) with " +:+ IMAGE_MARK +:+ "(/sysfiles/1.png)")
       Sample.image_opts
     ≫= λ r, match r with Ok (built, _) => Some built | Throw _ => None end)
  = Some [ {| req_role := user;
              req_content :=
                ContentParts [TextPart "Compare (5€, see the note) with ";
                              ImageUrlPart "https://site5€, see the note"];
              req_name := None |} ].
Proof. vm_compute. reflexivity. Qed.

(** An opening parenthesis left open before the mark takes everything up
    to the closing parenthesis of the next segment. *)
Example unclosed_parenthesis_before_the_mark :
  JsString.match_paren ("see ( fig (a) " +:+ IMAGE_MARK +:+ "(/sysfiles/1.png)")
  = Some " fig (a".
Proof. vm_compute. reflexivity. Qed.

Lemma image_question_count_ignores_text_witness :
  ∃ b1 b2,
    _buildMessages Sample.byte_encode "https://site" 1 (Sample.api "Be brief.")
      (∅ : gmap string ChatMessage)
      ("Hi " +:+ IMAGE_MARK +:+ "(/a.png)") Sample.image_opts
    = Some (Ok (b1, set_completionParams (set_model VISION_MODEL no_params)
                      Sample.image_opts)) ∧
    _buildMessages Sample.byte_encode "https://site" 1 (Sample.api "Be brief.")
      (∅ : gmap string ChatMessage)
      (Sample.repeat_string 3500 "hello " +:+ IMAGE_MARK +:+ "(/img/5€.png)")
      Sample.image_opts
    = Some (Ok (b2, set_completionParams (set_model VISION_MODEL no_params)
                      Sample.image_opts)) ∧
    numTokens b2 = numTokens b1 ∧
    maxTokens b2 = maxTokens b1 ∧
    length (messages b2) = length (messages b1).
Proof.
  eexists.
  assert (_buildMessages Sample.byte_encode "https://site" 1 (Sample.api "Be brief.")
            (∅ : gmap string ChatMessage)
            ("Hi " +:+ IMAGE_MARK +:+ "(/a.png)") Sample.image_opts
          = Some (Ok ({| messages :=
                           system_entries "Be brief."
                             ++ [image_entry "https://site" "Hi " "/a.png"
                                   Sample.image_opts];
                         maxTokens := 1000; numTokens := 62;
                         imgPath := IMAGE_MARK +:+ "(/a.png)" |},
                      set_completionParams (set_model VISION_MODEL no_params)
                        Sample.image_opts))) as Hb1
    by (vm_compute; reflexivity).
  destruct (image_question_count_ignores_text Sample.byte_encode "https://site" 1
              (Sample.api "Be brief.") (∅ : gmap string ChatMessage)
              ("Hi " +:+ IMAGE_MARK +:+ "(/a.png)")
              (Sample.repeat_string 3500 "hello " +:+ IMAGE_MARK +:+ "(/img/5€.png)")
              "/img/5€.png" Sample.image_opts _ _
              ltac:(vm_compute; reflexivity) ltac:(vm_compute; reflexivity)
              ltac:(vm_compute; reflexivity) Hb1)
    as (b2 & Hb2 & Hrest).
  exists b2. split; [exact Hb1 |]. split; [exact Hb2 |]. exact Hrest.
Defined.

Lemma image_question_goes_to_vision_model_witness :
  ∃ ex rq,
    sendMessage Sample.byte_encode "https://site" Sample.uuid Sample.parse_image
      Sample.fetch_ok Sample.sse_image 1 (Sample.api "") (∅ : gmap string ChatMessage)
      ("What is this? " +:+ IMAGE_MARK +:+ "(/sysfiles/1.png)")
      (set_completionParams (set_model "gpt-4" no_params) Sample.image_opts)
    = Some ex ∧
    rq ∈ ex_requests ex ∧
    cp_model (body_params (rq_body rq)) = Some VISION_MODEL.
Proof.
  eexists _, _. split; [reflexivity |]. split; [left |].
  eapply (image_question_goes_to_vision_model Sample.byte_encode "https://site"
            Sample.uuid Sample.parse_image Sample.fetch_ok Sample.sse_image 1
            (Sample.api "") (∅ : gmap string ChatMessage)
            ("What is this? " +:+ IMAGE_MARK +:+ "(/sysfiles/1.png)")
            (set_completionParams (set_model "gpt-4" no_params) Sample.image_opts)).
  - vm_compute. reflexivity.
  - reflexivity.
  - left.
Defined.

Lemma request_parameters_precedence_witness :
  ∃ ex rq built,
    sendMessage Sample.byte_encode "https://site" Sample.uuid Sample.parse
      Sample.fetch_ok Sample.sse 1 (Sample.api "Be brief.") (∅ : gmap string ChatMessage)
      "Say hello" (set_completionParams Sample.call_params Sample.no_opts)
    = Some ex ∧
    rq ∈ ex_requests ex ∧
    _buildMessages Sample.byte_encode "https://site" 1 (Sample.api "Be brief.")
      (∅ : gmap string ChatMessage) "Say hello"
      (set_completionParams Sample.call_params Sample.no_opts)
    = Some (Ok (built, set_completionParams Sample.call_params Sample.no_opts)) ∧
    body_messages (rq_body rq) = messages built ∧
    key_model (body_params (rq_body rq)) = Defined "gpt-4" ∧
    key_max_tokens (body_params (rq_body rq)) = Undefined ∧
    (own_key key_model (Some Sample.call_params) = Undefined →
     cp_model (body_params (rq_body rq)) = None) ∧
    (own_key key_max_tokens (Some Sample.call_params) = Undefined →
     cp_max_tokens (body_params (rq_body rq)) = None).
Proof.
  eexists _, _.
  destruct (request_parameters_precedence Sample.byte_encode "https://site"
              Sample.uuid Sample.parse Sample.fetch_ok Sample.sse 1
              (Sample.api "Be brief.") (∅ : gmap string ChatMessage) "Say hello"
              (set_completionParams Sample.call_params Sample.no_opts)
              _ _ ltac:(vm_compute; reflexivity) ltac:(reflexivity) ltac:(left))
    as (built & Hbuild & Hrest).
  exists built. split; [reflexivity |]. split; [left |]. split; [exact Hbuild |].
  exact Hrest.
Defined.

(** The request of that call goes out without [max_tokens]. *)
Example undefined_max_tokens_request :
  (λ ex, map (λ rq, (cp_model (body_params (rq_body rq)),
                     cp_max_tokens (body_params (rq_body rq)))) (ex_requests ex)) <$>
    sendMessage Sample.byte_encode "https://site" Sample.uuid Sample.parse
      Sample.fetch_ok Sample.sse 1 (Sample.api "Be brief.") (∅ : gmap string ChatMessage)
      "Say hello" (set_completionParams Sample.call_params Sample.no_opts)
  = Some [(Some "gpt-4", None)].
Proof. vm_compute. reflexivity. Qed.

Lemma progress_reports_running_text_witness :
  ∃ ex,
    sendMessage Sample.byte_encode "https://site" Sample.uuid Sample.parse
      Sample.fetch_ok Sample.sse 1 (Sample.api "Be brief.")
      (∅ : gmap string ChatMessage) "Say hello" Sample.streaming
    = Some ex ∧
    map msg_text (ex_progress ex) = running "" ["Hel"; "lo"] ∧
    map msg_delta (ex_progress ex) = map Some ["Hel"; "lo"] ∧
    length (ex_progress ex) = length ["Hel"; "lo"].
Proof.
  apply (progress_reports_running_text Sample.byte_encode "https://site"
           Sample.uuid Sample.parse Sample.fetch_ok Sample.sse 1 (Sample.api "Be brief.")
           (∅ : gmap string ChatMessage) "Say hello" Sample.streaming Sample.streaming
           {| messages := system_entries "Be brief."
                            ++ [user_entry "Say hello" Sample.streaming];
              maxTokens := 1000; numTokens := 40; imgPath := "" |}
           ["{Hel}"; "{lo}"] ["Hel"; "lo"]).
  - vm_compute. reflexivity.
  - reflexivity.
  - reflexivity.
  - reflexivity.
  - exact sample_frames_carry_fragments.
Defined.

Lemma sample_first_frame_carries :
  Forall2 (carries_fragment Sample.parse) ["{Hel}"] ["Hel"].
Proof.
  repeat constructor; try discriminate;
    eexists _, _, _, _; (repeat split; try reflexivity); discriminate.
Qed.

Lemma undecodable_frame_fails_the_call_witness :
  ∃ ex,
    sendMessage Sample.byte_encode "https://site" Sample.uuid Sample.parse
      Sample.fetch_ok Sample.sse_garbled 1 (Sample.api "Be brief.")
      (∅ : gmap string ChatMessage) "Say hello" Sample.streaming
    = Some ex ∧
    ex_outcome ex = Rejected (Thrown "JSON.parse") ∧
    ex_upserts ex = [] ∧
    ex_store ex = ∅.
Proof.
  apply (undecodable_frame_fails_the_call Sample.byte_encode "https://site"
           Sample.uuid Sample.parse Sample.fetch_ok Sample.sse_garbled 1
           (Sample.api "Be brief.")
           (∅ : gmap string ChatMessage) "Say hello" Sample.streaming Sample.streaming
           {| messages := system_entries "Be brief."
                            ++ [user_entry "Say hello" Sample.streaming];
              maxTokens := 1000; numTokens := 40; imgPath := "" |}
           ["{Hel}"] ["Hel"] ["{lo}"; "[DONE]"] "<html>").
  - vm_compute. reflexivity.
  - reflexivity.
  - reflexivity.
  - exact sample_first_frame_carries.
  - discriminate.
  - reflexivity.
Defined.

Lemma stream_without_sentinel_never_resolves_witness :
  ∃ c,
    sendMessage_call Sample.byte_encode "https://site" Sample.uuid Sample.parse
      Sample.fetch_ok Sample.sse_cut false Sample.upsert_ok 1 (Sample.api "Be brief.")
      (∅ : gmap string ChatMessage) "Say hello" Sample.timed_streaming
    = Some c ∧
    call_outcome c = Rejected (TimeoutError "OpenAI timed out waiting for response") ∧
    (∀ message, call_outcome c ≠ Resolved message) ∧
    call_writes c = [] ∧
    call_store c = ∅.
Proof.
  apply (stream_without_sentinel_never_resolves Sample.byte_encode "https://site"
           Sample.uuid Sample.parse Sample.fetch_ok Sample.sse_cut false Sample.upsert_ok
           1 (Sample.api "Be brief.")
           (∅ : gmap string ChatMessage) "Say hello" Sample.timed_streaming
           Sample.timed_streaming
           {| messages := system_entries "Be brief."
                            ++ [user_entry "Say hello" Sample.timed_streaming];
              maxTokens := 1000; numTokens := 40; imgPath := "" |}
           ["Hel"; "lo"]).
  - vm_compute. reflexivity.
  - reflexivity.
  - exact sample_frames_carry_fragments.
Defined.

(** Without a timeout the same stream leaves the promise pending. *)
Example cut_stream_without_timeout :
  call_outcome <$>
    sendMessage_call Sample.byte_encode "https://site" Sample.uuid Sample.parse
      Sample.fetch_ok Sample.sse_cut false Sample.upsert_ok 1 (Sample.api "Be brief.")
      (∅ : gmap string ChatMessage) "Say hello" Sample.streaming
  = Some Pending.
Proof. vm_compute. reflexivity. Qed.

Lemma stop_frame_appends_image_path_witness :
  ∃ ex message,
    sendMessage Sample.byte_encode "https://site" Sample.uuid Sample.parse_image
      Sample.fetch_ok Sample.sse_image 1 (Sample.api "") (∅ : gmap string ChatMessage)
      ("What is this? " +:+ IMAGE_MARK +:+ "(/sysfiles/1.png)") Sample.image_opts
    = Some ex ∧
    ex_outcome ex = Resolved message ∧
    msg_text message
    = JsString.trim (concat_fragments ["A cat."] +:+ (IMAGE_MARK +:+ "(/sysfiles/1.png)")).
Proof.
  apply (stop_frame_appends_image_path Sample.byte_encode "https://site"
           Sample.uuid Sample.parse_image Sample.fetch_ok Sample.sse_image 1
           (Sample.api "") (∅ : gmap string ChatMessage)
           ("What is this? " +:+ IMAGE_MARK +:+ "(/sysfiles/1.png)") Sample.image_opts
           (set_completionParams (set_model VISION_MODEL no_params) Sample.image_opts)
           {| messages := [image_entry "https://site" "What is this? " "/sysfiles/1.png"
                             Sample.image_opts];
              maxTokens := 1000; numTokens := 37;
              imgPath := IMAGE_MARK +:+ "(/sysfiles/1.png)" |}
           ["{A cat.}"] ["A cat."] "{stop}").
  - vm_compute. reflexivity.
  - reflexivity.
  - reflexivity.
  - repeat constructor; try discriminate.
    eexists _, _, _, _; (repeat split; try reflexivity); discriminate.
  - split; [discriminate |]. eexists _, _, _, _. repeat split; reflexivity.
Defined.

Lemma progress_only_when_streaming_witness :
  ∃ ex,
    sendMessage Sample.byte_encode "https://site" Sample.uuid Sample.parse
      Sample.fetch_ok Sample.sse 1 (Sample.api "Be brief.")
      (∅ : gmap string ChatMessage) "Say hello" Sample.streaming
    = Some ex ∧
    true = true ∧ (None : option bool) ≠ Some false.
Proof.
  eexists. split; [reflexivity |].
  eapply (progress_only_when_streaming Sample.byte_encode "https://site" Sample.uuid
            Sample.parse Sample.fetch_ok Sample.sse 1 (Sample.api "Be brief.")
            (∅ : gmap string ChatMessage) "Say hello" Sample.streaming).
  - reflexivity.
  - vm_compute. discriminate.
Defined.

(** With [stream: false] the callback of the call is never invoked. *)
Example explicit_buffered_is_silent :
  ex_progress <$>
    sendMessage Sample.byte_encode "https://site" Sample.uuid Sample.parse
      Sample.fetch_ok Sample.sse 1 (Sample.api "Be brief.")
      (∅ : gmap string ChatMessage) "Say hello"
      {| opt_parentMessageId := None; opt_conversationId := None;
         opt_messageId := None; opt_timeoutMs := None; opt_onProgress := true;
         opt_stream := Some false; opt_abortSignal := false;
         opt_completionParams := None; opt_systemMessage := None; opt_name := None |}
  = Some [].
Proof. vm_compute. reflexivity. Qed.

Lemma usage_is_kept_or_estimated_witness :
  ∃ ex message,
    sendMessage Sample.byte_encode "https://site" Sample.uuid Sample.parse
      Sample.fetch_metered Sample.sse 1 (Sample.api "Be brief.")
      (∅ : gmap string ChatMessage) "Say hello" Sample.no_opts
    = Some ex ∧
    ex_outcome ex = Resolved message ∧
    msg_detail message ≫= detail_usage
    = Some {| prompt_tokens := 12; completion_tokens := 1; total_tokens := 13;
              estimated := false |}.
Proof.
  apply (usage_is_kept_or_estimated Sample.byte_encode "https://site" Sample.uuid
           Sample.parse Sample.fetch_metered Sample.sse 1 (Sample.api "Be brief.")
           (∅ : gmap string ChatMessage) "Say hello" Sample.no_opts Sample.no_opts
           {| messages := system_entries "Be brief."
                            ++ [user_entry "Say hello" Sample.no_opts];
              maxTokens := 1000; numTokens := 40; imgPath := "" |}
           Sample.metered_response Sample.metered_reply
           {| ch_message := {| rm_role := Some assistant; rm_content := "Hello" |} |}
           []).
  - vm_compute. reflexivity.
  - reflexivity.
  - reflexivity.
  - reflexivity.
  - reflexivity.
  - reflexivity.
Defined.

(** Without a reported usage the estimate is attached. *)
Example usage_estimated :
  (λ ex, match ex_outcome ex with
         | Resolved m => msg_detail m ≫= detail_usage
         | _ => None
         end) <$>
    sendMessage Sample.byte_encode "https://site" Sample.uuid Sample.parse
      Sample.fetch_ok Sample.sse 1 (Sample.api "Be brief.")
      (∅ : gmap string ChatMessage) "Say hello" Sample.no_opts
  = Some (Some {| prompt_tokens := 40; completion_tokens := 5; total_tokens := 45;
                  estimated := true |}).
Proof. vm_compute. reflexivity. Qed.

Lemma fetch_error_is_passed_on_witness :
  ∃ ex,
    sendMessage Sample.byte_encode "https://site" Sample.uuid Sample.parse
      Sample.fetch_down Sample.sse 1 (Sample.api "Be brief.")
      (∅ : gmap string ChatMessage) "Say hello" Sample.no_opts
    = Some ex ∧
    ex_outcome ex = Rejected (Thrown "ECONNREFUSED") ∧
    length (ex_requests ex) = 1%nat ∧
    ex_upserts ex = [] ∧
    ex_store ex = ∅.
Proof.
  apply (fetch_error_is_passed_on Sample.byte_encode "https://site" Sample.uuid
           Sample.parse Sample.fetch_down Sample.sse 1 (Sample.api "Be brief.")
           (∅ : gmap string ChatMessage) "Say hello" Sample.no_opts Sample.no_opts
           {| messages := system_entries "Be brief."
                            ++ [user_entry "Say hello" Sample.no_opts];
              maxTokens := 1000; numTokens := 40; imgPath := "" |}).
  - vm_compute. reflexivity.
  - reflexivity.
  - reflexivity.
Defined.

Lemma next_call_sees_the_exchange_witness :
  ∃ ex1 answer,
    sendMessage Sample.byte_encode "https://site" Sample.uuid Sample.parse
      Sample.fetch_ok Sample.sse 1 (Sample.api "Be brief.")
      (∅ : gmap string ChatMessage) "Say hello" Sample.no_opts
    = Some ex1 ∧
    ex_outcome ex1 = Resolved answer ∧
    msg_id answer = "chatcmpl-2" ∧
    ∃ built,
      _buildMessages Sample.byte_encode "https://site" 3 (Sample.api "Be brief.")
        (ex_store ex1) "And again?" (Sample.with_parent "chatcmpl-2")
      = Some (Ok (built, Sample.with_parent "chatcmpl-2")) ∧
      messages built
      = system_entries "Be brief."
          ++ [ {| req_role := user; req_content := ContentText "Say hello";
                  req_name := None |};
               parent_entry answer ]
          ++ [user_entry "And again?" (Sample.with_parent "chatcmpl-2")].
Proof.
  eexists _, _. split; [reflexivity |]. split; [reflexivity |]. split; [reflexivity |].
  eapply (next_call_sees_the_exchange Sample.byte_encode "https://site" Sample.uuid
            Sample.parse Sample.fetch_ok Sample.sse 1 3 (Sample.api "Be brief.")
            (∅ : gmap string ChatMessage) "Say hello" "And again?" Sample.no_opts
            (Sample.with_parent "chatcmpl-2") (Sample.with_parent "chatcmpl-2")
            _ _ "" [user_entry "And again?" (Sample.with_parent "chatcmpl-2")]).
  - reflexivity.
  - reflexivity.
  - reflexivity.
  - discriminate.
  - discriminate.
  - discriminate.
  - reflexivity.
  - reflexivity.
  - intros k Hk. apply Z.leb_le.
    destruct k as [|[|[|k]]]; [vm_compute; reflexivity .. |]. lia.
  - lia.
Defined.

Lemma constructor_validates_witness :
  ∃ self,
    constructor "2024-02-23"
      {| o_apiKey := "sk-test"; o_apiOrg := None; o_apiBaseUrl := None; o_debug := None;
         o_completionParams := Some Sample.no_model; o_systemMessage := Some "Be brief.";
         o_maxModelTokens := None; o_maxResponseTokens := Some 500;
         o_fetch := FetchFunction |}
    = Ok self ∧
    _apiKey self = "sk-test" ∧
    _maxModelTokens self = default 4000 None ∧
    _maxResponseTokens self = default 1000 (Some 500) ∧
    cp_model (_completionParams self) = None.
Proof.
  apply (constructor_validates "2024-02-23"
           {| o_apiKey := "sk-test"; o_apiOrg := None; o_apiBaseUrl := None;
              o_debug := None; o_completionParams := Some Sample.no_model;
              o_systemMessage := Some "Be brief."; o_maxModelTokens := None;
              o_maxResponseTokens := Some 500; o_fetch := FetchFunction |});
    [discriminate | reflexivity].
Defined.

Lemma end_of_text_marker_is_not_counted_witness :
  _getTokenCount Sample.byte_encode ("Hello" +:+ "<|endoftext|>" +:+ " world")
  = _getTokenCount Sample.byte_encode ("Hello" +:+ " world").
Proof.
  apply (end_of_text_marker_is_not_counted Sample.byte_encode "Hello" " world").
  reflexivity.
Defined.

(** One pass only: a marker put together by the deletion of another stays. *)
Example marker_left_by_one_pass :
  JsString.remove_all "<|endoftext|>" "<|endof<|endoftext|>text|>" = "<|endoftext|>".
Proof. vm_compute. reflexivity. Qed.

(** * The signal, the headers and the empty text *)

Section CallEdges.

Variable encode : string → list N.
Variable siteDomain : string.
Variable uuidv4 : nat → string.
Variable JSON_parse : string → option CreateChatCompletionDeltaResponse.
Variable _fetch : Request → FetchOutcome.
Variable fetchSSE : Request → SSEOutcome.
Context {Store : Type} `{MessageStore Store}.

(** X20.  The request of a call carries an abort signal exactly when the
    caller passed one or set a timeout other than zero; a timeout of zero
    counts as none. *)
Theorem request_signal
    (fuel : nat) (self : ChatGPTAPI) (store : Store) (text : string)
    (opts : SendMessageOptions) (ex : Exchange Store) (rq : Request) :
  sendMessage encode siteDomain uuidv4 JSON_parse _fetch fetchSSE fuel self store text opts
  = Some ex →
  rq ∈ ex_requests ex →
  rq_signal rq = opt_abortSignal opts || truthyN (opt_timeoutMs opts) ∧
  (opt_timeoutMs opts = Some 0%N → rq_signal rq = opt_abortSignal opts).
Proof.
  intros Hsend Hrq.
  destruct (sendMessage_request _ _ _ _ _ _ _ _ _ _ _ _ _ Hsend Hrq)
    as (built & written & _ & _ & ->).
  unfold make_request, creates_abortController. cbn [rq_signal].
  split; [| intros ->]; destruct (opt_abortSignal opts); simpl;
    try destruct (truthyN _); reflexivity.
Qed.

(** X21.  The request goes to the client's base URL followed by
    "/chat/completions" with the key that the client holds when the call
    is made, so after the setter [apiKey] with the new one; it names the
    organisation exactly when the client has a non-empty one. *)
Theorem request_credentials
    (fuel : nat) (self : ChatGPTAPI) (apiKey : string) (store : Store) (text : string)
    (opts : SendMessageOptions) (ex : Exchange Store) (rq : Request) :
  sendMessage encode siteDomain uuidv4 JSON_parse _fetch fetchSSE fuel
    (set_apiKey apiKey self) store text opts = Some ex →
  rq ∈ ex_requests ex →
  rq_url rq = _apiBaseUrl self +:+ "/chat/completions" ∧
  ("Authorization", "Bearer " +:+ apiKey) ∈ rq_headers rq ∧
  (∀ org, ("OpenAI-Organization", org) ∈ rq_headers rq
          ↔ _apiOrg self = Some org ∧ org ≠ "").
Proof.
  intros Hsend Hrq.
  destruct (sendMessage_request _ _ _ _ _ _ _ _ _ _ _ _ _ Hsend Hrq)
    as (built & written & _ & _ & ->).
  unfold make_request. cbn [rq_url rq_headers _apiBaseUrl _apiKey _apiOrg set_apiKey].
  split; [reflexivity |]. split.
  - destruct (truthy_opt (_apiOrg self)); set_solver.
  - intros org. destruct (_apiOrg self) as [o|]; simpl.
    + destruct (JsString.truthy o) eqn:Ho; simpl.
      * apply truthy_spec in Ho. split.
        -- intros Hin. repeat (apply elem_of_cons in Hin as [[=] | Hin]; subst);
             [auto | now apply elem_of_nil in Hin].
        -- intros [[= ->] _]. set_solver.
      * split.
        -- intros Hin. repeat (apply elem_of_cons in Hin as [[=] | Hin]);
             now apply elem_of_nil in Hin.
        -- intros [[= ->] Hne]. apply truthy_spec in Hne. congruence.
    + split.
      * intros Hin. repeat (apply elem_of_cons in Hin as [[=] | Hin]);
          now apply elem_of_nil in Hin.
      * intros [[=] _].
Qed.

(** X22.  An empty text adds no user entry: a call with an empty text
    and no parent gets the system entries alone as its prompt, whatever
    the limits, after one iteration. *)
Theorem empty_text_has_no_user_entry
    (fuel : nat) (self : ChatGPTAPI) (store : Store) (opts : SendMessageOptions) :
  opt_parentMessageId opts = None →
  ∃ built,
    _buildMessages encode siteDomain (S fuel) self store "" opts
    = Some (Ok (built, opts)) ∧
    messages built
    = system_entries (default (_systemMessage self) (opt_systemMessage opts)) ∧
    imgPath built = "".
Proof.
  intros Hparent. unfold _buildMessages, first_candidate. rewrite Hparent.
  cbn [JsString.includes String.prefix IMAGE_MARK JsString.truthy mret Result_ret].
  cbn [build_loop].
  destruct (JsString.truthy _ && negb _); [eauto |].
  destruct (negb _); eauto.
Qed.

End CallEdges.

Lemma request_signal_witness :
  ∃ ex rq,
    sendMessage Sample.byte_encode "https://site" Sample.uuid Sample.parse
      Sample.fetch_ok Sample.sse 1 (Sample.api "Be brief.")
      (∅ : gmap string ChatMessage) "Say hello"
      {| opt_parentMessageId := None; opt_conversationId := None;
         opt_messageId := None; opt_timeoutMs := Some 0%N; opt_onProgress := false;
         opt_stream := None; opt_abortSignal := false;
         opt_completionParams := None; opt_systemMessage := None; opt_name := None |}
    = Some ex ∧
    rq ∈ ex_requests ex ∧
    rq_signal rq = false || truthyN (Some 0%N) ∧
    (Some 0%N = Some 0%N → rq_signal rq = false).
Proof.
  eexists _, _. split; [reflexivity |]. split; [left |].
  eapply (request_signal Sample.byte_encode "https://site" Sample.uuid Sample.parse
            Sample.fetch_ok Sample.sse 1 (Sample.api "Be brief.")
            (∅ : gmap string ChatMessage) "Say hello"
            {| opt_parentMessageId := None; opt_conversationId := None;
               opt_messageId := None; opt_timeoutMs := Some 0%N; opt_onProgress := false;
               opt_stream := None; opt_abortSignal := false;
               opt_completionParams := None; opt_systemMessage := None;
               opt_name := None |}).
  - reflexivity.
  - left.
Defined.

Lemma request_credentials_witness :
  ∃ ex rq,
    sendMessage Sample.byte_encode "https://site" Sample.uuid Sample.parse
      Sample.fetch_ok Sample.sse 1 (set_apiKey "sk-new" (Sample.api "Be brief."))
      (∅ : gmap string ChatMessage) "Say hello" Sample.no_opts
    = Some ex ∧
    rq ∈ ex_requests ex ∧
    rq_url rq = "https://api.openai.com/v1" +:+ "/chat/completions" ∧
    ("Authorization", "Bearer " +:+ "sk-new") ∈ rq_headers rq ∧
    (∀ org, ("OpenAI-Organization", org) ∈ rq_headers rq
            ↔ (None : option string) = Some org ∧ org ≠ "").
Proof.
  eexists _, _. split; [reflexivity |]. split; [left |].
  eapply (request_credentials Sample.byte_encode "https://site" Sample.uuid Sample.parse
            Sample.fetch_ok Sample.sse 1 (Sample.api "Be brief.") "sk-new"
            (∅ : gmap string ChatMessage) "Say hello" Sample.no_opts).
  - reflexivity.
  - left.
Defined.

Lemma empty_text_has_no_user_entry_witness :
  ∃ built,
    _buildMessages Sample.byte_encode "https://site" 1 (Sample.api "Be brief.")
      (∅ : gmap string ChatMessage) "" Sample.no_opts
    = Some (Ok (built, Sample.no_opts)) ∧
    messages built = system_entries "Be brief." ∧
    imgPath built = "".
Proof.
  apply (empty_text_has_no_user_entry Sample.byte_encode "https://site" 0
           (Sample.api "Be brief.") (∅ : gmap string ChatMessage) Sample.no_opts).
  reflexivity.
Defined.
